(** * Settings diff, chat history, stream reducer and notification hub

    A shallow embedding of the TypeScript sources

      - [src/lib/utils.ts]           ([union], [omit], [isEqual],
                                      [extractOverrideSettings]),
      - [src/lib/parsers/openai.ts]  (text and chat completion parsers, the
                                      stream reducer [reduce] and
                                      [multiChoiceMessageReducer]),
      - the text-generation parser   ([constructStreamOutput], [run]),
      - [src/lib/callback.ts]        ([withTimeout], [CallbackManager]),

    together with the properties that the specification states about them.

    Conventions of the embedding.

    - JavaScript values are the JSON-like values of [JSValue].  Numbers are
      integers ([Z]); floating point values and [NaN] are not represented.
    - An object is the list of its own enumerable properties in insertion
      order, which is the order of [Object.keys] and [Object.entries].  A
      JavaScript object never holds a property name twice; [wf_value] states
      this for a [JSValue].
    - A property read answers the own property of that name.  An object
      inherits the members of [Object.prototype]
      ([Object_prototype_names]), which a read of a name that the object
      lacks would find, and an own property named [constructor] shadows
      the inherited one that [isEqual] reads.  The statements that range
      over all objects keep to plain data in this respect: they assume
      [no_own_constructor] of the values that [isEqual] compares, and that
      a name read on an object that lacks it is not [inherited].
    - [===] on two arrays or two objects compares references.  Values here
      carry no addresses; [strict_eq] answers [false] on containers, i.e. it
      models operands held at distinct addresses.  Lemma [isEqual_refl]
      shows that for aliased operands (where [===] answers [true]) the
      structural path of [isEqual] gives the same answer.
    - A thrown exception is the [Throw] of [outcome].  The modules are
      strict-mode code: an assignment to a property of a primitive throws.
    - A promise is described by the time and the result of its settlement
      ([Promise]); [async] functions compose with [await].
    - What the sources import and do not define is a parameter: the
      members of [Runtime] (template resolution, model settings, latest
      output, [JSON.stringify], [Date.now]) and the provider clients
      [OpenAIClient] and [HfInference].  The construction of a client is
      taken to succeed.
    - Of a notification event only the [name], and the [data] where it is a
      plain value, are kept; the listeners are functions of the event. *)

From Stdlib Require Import ZArith String Ascii List Lia Bool DecimalString.
From stdpp Require Import base gmap strings list.
Import ListNotations.

Local Open Scope string_scope.
Local Open Scope Z_scope.

(** ** JavaScript values *)

Module JS.

Unset Elimination Schemes.
Inductive JSValue : Type :=
| JUndefined
| JNull
| JBool (b : bool)
| JNum (n : Z)
| JStr (s : string)
| JArr (elems : list JSValue)
| JObj (props : list (string * JSValue)).
Set Elimination Schemes.

Definition Props := list (string * JSValue).

(** Induction over values that also descends into array elements and
    property values. *)
Section ValueInduction.
Variable P : JSValue -> Prop.
Hypothesis Hundef : P JUndefined.
Hypothesis Hnull : P JNull.
Hypothesis Hbool : forall b, P (JBool b).
Hypothesis Hnum : forall n, P (JNum n).
Hypothesis Hstr : forall s, P (JStr s).
Hypothesis Harr : forall l, Forall P l -> P (JArr l).
Hypothesis Hobj : forall l, Forall (fun kv => P (snd kv)) l -> P (JObj l).

Fixpoint JSValue_ind (v : JSValue) : P v :=
  match v with
  | JUndefined => Hundef
  | JNull => Hnull
  | JBool b => Hbool b
  | JNum n => Hnum n
  | JStr s => Hstr s
  | JArr l =>
      Harr l ((fix elems (l : list JSValue) : Forall P l :=
                 match l with
                 | [] => ltac:(constructor)
                 | x :: l' =>
                     ltac:(constructor;
                           [exact (JSValue_ind x) | exact (elems l')])
                 end) l)
  | JObj l =>
      Hobj l ((fix props (l : Props) : Forall (fun kv => P (snd kv)) l :=
                 match l with
                 | [] => ltac:(constructor)
                 | kv :: l' =>
                     ltac:(constructor;
                           [exact (JSValue_ind (snd kv)) | exact (props l')])
                 end) l)
  end.
End ValueInduction.

(** Exceptions.  [TypeError] is what the runtime raises on a property access
    on [null]/[undefined]; [Error msg] is [new Error(msg)]. *)
Inductive JSError : Type :=
| TypeError
| Error (msg : string).

Inductive outcome (A : Type) : Type :=
| Ret (a : A)
| Throw (e : JSError).
Arguments Ret {A} a.
Arguments Throw {A} e.

Definition bind {A B} (m : outcome A) (k : A -> outcome B) : outcome B :=
  match m with
  | Ret a => k a
  | Throw e => Throw e
  end.

Notation "'let?' x ':=' m 'in' k" := (bind m (fun x => k))
  (at level 10, x name, m at level 200, k at level 200).

(** [typeof v] *)
Definition typeof (v : JSValue) : string :=
  match v with
  | JUndefined => "undefined"
  | JNull => "object"
  | JBool _ => "boolean"
  | JNum _ => "number"
  | JStr _ => "string"
  | JArr _ => "object"
  | JObj _ => "object"
  end.

(** Truthiness, as tested by [if (v)], [!v], [a && b]. *)
Definition truthy (v : JSValue) : bool :=
  match v with
  | JUndefined | JNull => false
  | JBool b => b
  | JNum n => negb (n =? 0)
  | JStr s => negb (String.eqb s "")
  | JArr _ | JObj _ => true
  end.

(** [a === b] (see the conventions above for containers). *)
Definition strict_eq (a b : JSValue) : bool :=
  match a, b with
  | JUndefined, JUndefined => true
  | JNull, JNull => true
  | JBool x, JBool y => Bool.eqb x y
  | JNum x, JNum y => x =? y
  | JStr x, JStr y => String.eqb x y
  | _, _ => false
  end.

(** [v == null], true of [null] and [undefined] only. *)
Definition nullish (v : JSValue) : bool :=
  match v with
  | JUndefined | JNull => true
  | _ => false
  end.

(** [a ?? b] *)
Definition coalesce (a b : JSValue) : JSValue :=
  if nullish a then b else a.

Definition isArray (v : JSValue) : bool :=
  match v with JArr _ => true | _ => false end.

Definition is_string (v : JSValue) : bool :=
  match v with JStr _ => true | _ => false end.

(** Decimal rendering of an array index, the property name of an element. *)
Definition index_key (i : nat) : string :=
  NilEmpty.string_of_uint (Nat.to_uint i).

(** Own properties of an object, by name.  Reading a missing property gives
    [undefined]. *)
Fixpoint obj_find (l : Props) (k : string) : option JSValue :=
  match l with
  | [] => None
  | (k', v) :: l' => if String.eqb k' k then Some v else obj_find l' k
  end.

Definition obj_get (l : Props) (k : string) : JSValue :=
  match obj_find l k with
  | Some v => v
  | None => JUndefined
  end.

Definition obj_has (l : Props) (k : string) : bool :=
  match obj_find l k with
  | Some _ => true
  | None => false
  end.

(** [o[k] = v]: an existing property keeps its position, a new one is added
    last. *)
Fixpoint obj_set (l : Props) (k : string) (v : JSValue) : Props :=
  match l with
  | [] => [(k, v)]
  | (k', v') :: l' =>
      if String.eqb k' k then (k, v) :: l' else (k', v') :: obj_set l' k v
  end.

(** [delete o[k]] *)
Definition obj_delete (l : Props) (k : string) : Props :=
  filter (fun kv => negb (String.eqb (fst kv) k)) l.

Definition keys (l : Props) : list string := map fst l.

(** Indexed view of an array and of a string: the entries that
    [Object.entries] and the spread operator enumerate. *)
Fixpoint array_entries_from (i : nat) (l : list JSValue) : Props :=
  match l with
  | [] => []
  | x :: l' => (index_key i, x) :: array_entries_from (S i) l'
  end.

Fixpoint string_entries_from (i : nat) (s : string) : Props :=
  match s with
  | EmptyString => []
  | String c s' =>
      (index_key i, JStr (String c EmptyString)) :: string_entries_from (S i) s'
  end.

(** [{ ...v }]: own enumerable properties of [v]; nothing for [null],
    [undefined], numbers and booleans. *)
Definition spread (v : JSValue) : Props :=
  match v with
  | JObj l => l
  | JArr l => array_entries_from 0 l
  | JStr s => string_entries_from 0 s
  | _ => []
  end.

(** [Object.entries(v)]: throws on [null] and [undefined]. *)
Definition Object_entries (v : JSValue) : outcome Props :=
  match v with
  | JUndefined | JNull => Throw TypeError
  | _ => Ret (spread v)
  end.

(** [v?.[k]]: property read that answers [undefined] on a nullish [v]. *)
Definition get (v : JSValue) (k : string) : JSValue :=
  match v with
  | JObj l => obj_get l k
  | JArr l =>
      if String.eqb k "length" then JNum (Z.of_nat (length l))
      else obj_get (array_entries_from 0 l) k
  | JStr s =>
      if String.eqb k "length" then JNum (Z.of_nat (String.length s))
      else obj_get (string_entries_from 0 s) k
  | _ => JUndefined
  end.

(** [v[k]] without optional chaining: a [TypeError] on a nullish [v]. *)
Definition get_strict (v : JSValue) (k : string) : outcome JSValue :=
  if nullish v then Throw TypeError else Ret (get v k).

(** [v?.hasOwnProperty(k)], as a condition. *)
Definition hasOwnProperty (v : JSValue) (k : string) : bool :=
  match v with
  | JObj l => obj_has l k
  | JArr l => String.eqb k "length" || obj_has (array_entries_from 0 l) k
  | JStr s => String.eqb k "length" || obj_has (string_entries_from 0 s) k
  | _ => false
  end.

(** [v?.constructor.name], read through the prototype of [v]: the name of
    the constructor that built the value.  (An own property named
    [constructor] would be read in its place; see [no_own_constructor].) *)
Definition constructor_name (v : JSValue) : option string :=
  match v with
  | JUndefined | JNull => None
  | JBool _ => Some "Boolean"
  | JNum _ => Some "Number"
  | JStr _ => Some "String"
  | JArr _ => Some "Array"
  | JObj _ => Some "Object"
  end.

Definition name_eqb (a b : option string) : bool :=
  match a, b with
  | None, None => true
  | Some x, Some y => String.eqb x y
  | _, _ => false
  end.

(** No object in [v] holds a property name twice. *)
Fixpoint distinct (l : list string) : bool :=
  match l with
  | [] => true
  | k :: l' => negb (existsb (String.eqb k) l') && distinct l'
  end.

Fixpoint wf_value (v : JSValue) : bool :=
  match v with
  | JArr l => forallb wf_value l
  | JObj l => distinct (keys l) && forallb (fun kv => wf_value (snd kv)) l
  | _ => true
  end.

End JS.
Export JS.

(** ** [src/lib/utils.ts] *)

Module Utils.

(** [union(...arrays)]: the items of all the arrays, each once, in the order
    in which a [Set] first receives them. *)
Definition set_add (set : list string) (item : string) : list string :=
  if existsb (String.eqb item) set then set else set ++ [item].

Definition union (arrays : list (list string)) : list string :=
  fold_left (fun set array => fold_left set_add array set) arrays [].

(** [omit(obj, ...keysToOmit)] *)
Definition omit (obj : Props) (keysToOmit : list string) : Props :=
  fold_left
    (fun result key =>
       if obj_has obj key && negb (existsb (String.eqb key) keysToOmit)
       then obj_set result key (obj_get obj key)
       else result)
    (keys obj) [].

(** The loop of [isEqual] over two arrays of equal length. *)
Definition isEqual_array (isEqual : JSValue -> JSValue -> bool)
  : list JSValue -> list JSValue -> bool :=
  fix loop (first second : list JSValue) : bool :=
    match first, second with
    | x :: first', y :: second' =>
        if negb (isEqual x y) then false else loop first' second'
    | _, _ => true
    end.

(** The loop of [isEqual] over [fKeys], the properties of [first] in order;
    [fv] is [first[fKeys[i]]] and [sv] is [second[fKeys[i]]]. *)
Definition isEqual_object (isEqual : JSValue -> JSValue -> bool)
    (second : Props) : Props -> bool :=
  fix loop (first : Props) : bool :=
    match first with
    | [] => true
    | (k, fv) :: first' =>
        let sv := obj_get second k in
        if truthy fv && truthy sv then
          if strict_eq fv sv then loop first'
          else if truthy fv
                  && (name_eqb (constructor_name fv) (Some "Array")
                      || name_eqb (constructor_name fv) (Some "Object"))
          then if negb (isEqual fv sv) then false else loop first'
          else if negb (strict_eq fv sv) then false
          else loop first'
        else if (truthy fv && negb (truthy sv))
                || (negb (truthy fv) && truthy sv)
        then false
        else loop first'
    end.

(** [isEqual(first, second)] *)
Fixpoint isEqual (first second : JSValue) : bool :=
  if strict_eq first second then true
  else if (strict_eq first JUndefined || strict_eq second JUndefined
           || strict_eq first JNull || strict_eq second JNull)
          && (truthy first || truthy second)
  then false
  else
    let firstType := constructor_name first in
    let secondType := constructor_name second in
    if negb (name_eqb firstType secondType) then false
    else
      match first with
      | JArr f =>
          match second with
          | JArr s =>
              if negb (Nat.eqb (length f) (length s)) then false
              else isEqual_array isEqual f s
          | _ => strict_eq first second
          end
      | JObj f =>
          match second with
          | JObj s =>
              if negb (Nat.eqb (length (keys f)) (length (keys s))) then false
              else isEqual_object isEqual s f
          | _ => strict_eq first second
          end
      | _ => strict_eq first second
      end.

(** Deep equality in the words of the specification: identical primitives;
    or two arrays of equal length with pairwise equal elements in order; or
    two mappings with the same key set and pairwise equal values; otherwise
    unequal. *)
Definition same_key_set (f s : Props) : bool :=
  forallb (fun k => obj_has s k) (keys f)
  && forallb (fun k => obj_has f k) (keys s).

Definition deepEqual_elements (deepEqual : JSValue -> JSValue -> bool)
  : list JSValue -> list JSValue -> bool :=
  fix pairwise (f s : list JSValue) : bool :=
    match f, s with
    | x :: f', y :: s' => deepEqual x y && pairwise f' s'
    | _, _ => true
    end.

Definition deepEqual_values (deepEqual : JSValue -> JSValue -> bool)
    (s : Props) : Props -> bool :=
  fix values (f : Props) : bool :=
    match f with
    | [] => true
    | (k, fv) :: f' => deepEqual fv (obj_get s k) && values f'
    end.

Fixpoint deepEqual (a b : JSValue) : bool :=
  match a, b with
  | JArr f, JArr s =>
      Nat.eqb (length f) (length s) && deepEqual_elements deepEqual f s
  | JObj f, JObj s =>
      same_key_set f s && deepEqual_values deepEqual s f
  | _, _ => strict_eq a b
  end.

(** The reducer of [extractOverrideSettings] and of both [serialize]
    methods: the keys of either side whose values [isEqual] tells apart,
    each with the requested value. *)
Definition overrides (globalModelSettings inferenceSettings : Props) : Props :=
  let keys := union [keys globalModelSettings; keys inferenceSettings] in
  fold_left
    (fun result key =>
       if negb (isEqual (obj_get globalModelSettings key)
                        (obj_get inferenceSettings key))
       then obj_set result key (obj_get inferenceSettings key)
       else result)
    keys [].

(** [extractOverrideSettings(configRuntime, inferenceSettings, modelName)];
    [globalSettings] is [configRuntime.getGlobalSettings(modelName)].  The
    spread makes [globalModelSettings] an object, so the final
    [return inferenceSettings] is never reached. *)
Definition extractOverrideSettings
    (globalSettings inferenceSettings : JSValue) : Props :=
  let globalModelSettings := spread (coalesce globalSettings (JObj [])) in
  let inferenceSettings := spread (coalesce inferenceSettings (JObj [])) in
  if negb (nullish (JObj globalModelSettings))
  then overrides globalModelSettings inferenceSettings
  else inferenceSettings.

(** Modelled from the spec: the layering of per-prompt overrides on top of
    the global settings ("global settings with explicit per-prompt overrides
    layered on top"), which the parsers reach through [getModelSettings];
    that method is not part of the sources.  It is the object
    [{ ...global, ...override }]. *)
Definition merge (global override : Props) : Props :=
  fold_left (fun result kv => obj_set result (fst kv) (snd kv)) override global.

End Utils.
Export Utils.

(** ** [src/lib/callback.ts] *)

Module Callback.

(** A promise is described by when and how it settles: [Settled t r] after
    [t] milliseconds (counted from the moment the promise is created), or
    [Pending] for a promise that never settles. *)
Inductive settlement (A : Type) : Type :=
| Fulfilled (a : A)
| Rejected (e : JSError).
Arguments Fulfilled {A} a.
Arguments Rejected {A} e.

Inductive Promise (A : Type) : Type :=
| Pending
| Settled (t : nat) (r : settlement A).
Arguments Pending {A}.
Arguments Settled {A} t r.

Definition resolved {A} (a : A) : Promise A := Settled 0 (Fulfilled a).
Definition rejected {A} (e : JSError) : Promise A := Settled 0 (Rejected e).

(** [await p; k]: the continuation starts when [p] fulfils; a rejection is
    thrown at the [await] and, uncaught, rejects the enclosing [async]
    function. *)
Definition delay {A} (t : nat) (p : Promise A) : Promise A :=
  match p with
  | Pending => Pending
  | Settled t' r => Settled (t + t') r
  end.

Definition await {A B} (p : Promise A) (k : A -> Promise B) : Promise B :=
  match p with
  | Pending => Pending
  | Settled t (Rejected e) => Settled t (Rejected e)
  | Settled t (Fulfilled a) => delay t (k a)
  end.

(** An [async] function body that runs without awaiting. *)
Definition of_outcome {A} (o : outcome A) : Promise A :=
  match o with
  | Ret a => resolved a
  | Throw e => rejected e
  end.

(** [Promise.race([p, q])]: the promise that settles first decides; on a tie
    the first operand does (its reaction is queued first). *)
Definition Promise_race {A} (p q : Promise A) : Promise A :=
  match p, q with
  | Pending, _ => q
  | _, Pending => p
  | Settled tp _, Settled tq _ => if (tp <=? tq)%nat then p else q
  end.

(** [Promise.all(tasks)]: rejects as soon as one task rejects, with that
    task's error; fulfils with all the values once every task has
    fulfilled.  [earliest_rejection] is the first rejection in time (the
    leftmost among simultaneous ones). *)
Fixpoint earliest_rejection {A} (tasks : list (Promise A))
  : option (nat * JSError) :=
  match tasks with
  | [] => None
  | p :: tasks' =>
      let rest := earliest_rejection tasks' in
      match p with
      | Settled t (Rejected e) =>
          match rest with
          | Some (t', e') => if (t <=? t')%nat then Some (t, e) else Some (t', e')
          | None => Some (t, e)
          end
      | _ => rest
      end
  end.

Fixpoint all_fulfilled {A} (tasks : list (Promise A))
  : option (nat * list A) :=
  match tasks with
  | [] => Some (0%nat, [])
  | Settled t (Fulfilled a) :: tasks' =>
      match all_fulfilled tasks' with
      | Some (t', l) => Some (Nat.max t t', a :: l)
      | None => None
      end
  | _ :: _ => None
  end.

Definition Promise_all {A} (tasks : list (Promise A)) : Promise (list A) :=
  match earliest_rejection tasks with
  | Some (t, e) => Settled t (Rejected e)
  | None =>
      match all_fulfilled tasks with
      | Some (t, l) => Settled t (Fulfilled l)
      | None => Pending
      end
  end.

Definition DEFAULT_TIMEOUT_SECONDS : nat := 0.

(** [CallbackEvent] is the object [{ name, data, ts_ns? }]. *)
Definition CallbackEvent := Props.
Definition Callback := CallbackEvent -> Promise JSValue.

(** [withTimeout(promise, timeout)].  [promise.finally(...)] settles as
    [promise] does; [timeoutPromise] rejects when the timer fires, after
    [timeout * 1000] milliseconds. *)
Definition withTimeout (promise : Promise JSValue) (timeout : nat)
  : Promise JSValue :=
  let timeoutPromise :=
    Settled (timeout * 1000) (Rejected (Error "Timeout")) in
  Promise_race promise timeoutPromise.

Record CallbackManager : Type := {
  callbacks : list Callback;
  results : list JSValue;
  timeout : nat
}.

(** [new CallbackManager(callbacks, timeout = DEFAULT_TIMEOUT_SECONDS)] *)
Definition new_CallbackManager (callbacks : list Callback)
    (timeout : option nat) : CallbackManager :=
  {| callbacks := callbacks;
     results := [];
     timeout := match timeout with
                | Some t => t
                | None => DEFAULT_TIMEOUT_SECONDS
                end |}.

(** [{ ...event, ts_ns: event.ts_ns ?? Date.now() }]; [now] is
    [Date.now()]. *)
Definition eventWithTimeStamp (now : Z) (event : CallbackEvent)
  : CallbackEvent :=
  obj_set event "ts_ns" (coalesce (obj_get event "ts_ns") (JNum now)).

(** [runCallbacks(event)].  The promise fulfils with the manager whose
    [results] have been assigned. *)
Definition runCallbacks (this : CallbackManager) (now : Z)
    (event : CallbackEvent) : Promise CallbackManager :=
  let eventWithTimeStamp := eventWithTimeStamp now event in
  let tasks :=
    map (fun callback => withTimeout (callback eventWithTimeStamp)
                                     (timeout this))
        (callbacks this) in
  await (Promise_all tasks)
        (fun results =>
           resolved {| callbacks := callbacks this;
                       results := results;
                       timeout := timeout this |}).

End Callback.
Export Callback.

(** ** The stream reducer of [src/lib/parsers/openai.ts] *)

Module StreamReducer.

(** Nesting depth: the recursion of [reduce] is bounded by it. *)
Definition max_of {A} (f : A -> nat) (l : list A) : nat :=
  fold_right (fun x d => Nat.max (f x) d) 0%nat l.

Fixpoint depth (v : JSValue) : nat :=
  match v with
  | JArr l => S (max_of depth l)
  | JObj l => S (max_of (fun kv => depth (snd kv)) l)
  | _ => 0%nat
  end.

Definition props_depth (l : Props) : nat :=
  max_of (fun kv => depth (snd kv)) l.

(** One iteration of the loop of [reduce] over [Object.entries(delta)];
    [rec] is the recursive call. *)
Definition reduce_entry (rec : JSValue -> JSValue -> option (outcome JSValue))
    (acc : Props) (key : string) (value : JSValue)
  : option (outcome Props) :=
  let field := obj_get acc key in
  if strict_eq field JUndefined || strict_eq field JNull then
    Some (Ret (obj_set acc key value))
  else
    match field, value with
    | JStr a, JStr b => Some (Ret (obj_set acc key (JStr (a ++ b))))
    | _, _ =>
        if String.eqb (typeof field) "object" && negb (isArray field) then
          match rec field value with
          | Some (Ret merged) => Some (Ret (obj_set acc key merged))
          | Some (Throw e) => Some (Throw e)
          | None => None
          end
        else Some (Ret acc)
    end.

Fixpoint reduce_entries (rec : JSValue -> JSValue -> option (outcome JSValue))
    (acc : Props) (entries : Props) : option (outcome Props) :=
  match entries with
  | [] => Some (Ret acc)
  | (key, value) :: entries' =>
      match reduce_entry rec acc key value with
      | Some (Ret acc') => reduce_entries rec acc' entries'
      | other => other
      end
  end.

(** The body of [reduce]: [acc = { ...acc }], then the loop, then
    [return acc]. *)
Definition reduce_body (rec : JSValue -> JSValue -> option (outcome JSValue))
    (acc delta : JSValue) : option (outcome JSValue) :=
  let acc := spread acc in
  match Object_entries delta with
  | Throw e => Some (Throw e)
  | Ret entries =>
      match reduce_entries rec acc entries with
      | Some (Ret acc) => Some (Ret (JObj acc))
      | Some (Throw e) => Some (Throw e)
      | None => None
      end
  end.

(** [reduce] with a bound on the depth of the recursion; [None] when the
    bound is reached. *)
Fixpoint reduce_fuel (fuel : nat) (acc delta : JSValue)
  : option (outcome JSValue) :=
  match fuel with
  | O => None
  | S fuel' => reduce_body (reduce_fuel fuel') acc delta
  end.

(** Depth that the recursion of [reduce(acc, delta)] cannot exceed
    (theorem [reduce_fuel_enough]). *)
Definition reduce_bound (acc delta : JSValue) : nat :=
  S (Nat.max (props_depth (spread acc)) (props_depth (spread delta))).

(** [reduce(acc, delta)] *)
Definition reduce (acc delta : JSValue) : outcome JSValue :=
  match reduce_fuel (reduce_bound acc delta) acc delta with
  | Some o => o
  | None => Throw (Error "unreachable")
  end.

(** A streamed chat fragment: [chunk.choices[i]] with its [index], [delta]
    and [finish_reason]. *)
Record ChunkChoice : Type := {
  index : Z;
  delta : JSValue;
  finish_reason : JSValue
}.

Record ChatCompletionChunk : Type := {
  choices : list ChunkChoice;
  (** the fields of the chunk other than [choices] *)
  chunk_rest : Props
}.

Definition choice_count_error : JSError :=
  Error "Invalid number of previous choices -- it should match the incoming number of choices".

(** The loop of [multiChoiceMessageReducer] over [chunk.choices]. *)
Fixpoint reduce_choices (messages : gmap Z JSValue)
    (choices : list ChunkChoice) : outcome (gmap Z JSValue) :=
  match choices with
  | [] => Ret messages
  | choice :: choices' =>
      let previousMessage :=
        match messages !! index choice with
        | Some m => m
        | None => JUndefined
        end in
      let? updatedMessage :=
        reduce (coalesce previousMessage (JArr [])) (delta choice) in
      reduce_choices (<[index choice := updatedMessage]> messages) choices'
  end.

(** [multiChoiceMessageReducer(messages, chunk)]; [None] is the [null]
    accumulator of the first fragment. *)
Definition multiChoiceMessageReducer (messages : option (gmap Z JSValue))
    (chunk : ChatCompletionChunk) : outcome (gmap Z JSValue) :=
  match messages with
  | None => reduce_choices ∅ (choices chunk)
  | Some messages =>
      if negb (Nat.eqb (size messages) (length (choices chunk)))
      then Throw choice_count_error
      else reduce_choices messages (choices chunk)
  end.

(** [buildOutputData(message)] *)
Definition buildOutputData (message : JSValue) : JSValue :=
  if negb (nullish message) then
    if negb (nullish (get message "content")) then
      get message "content"
    else if negb (nullish (get message "function_call")) then
      JObj [("kind", JStr "tool_calls");
            ("value", JArr [JObj [("type", JStr "function");
                                  ("function", get message "function_call")]])]
    else JUndefined
  else JUndefined.

End StreamReducer.
Export StreamReducer.

(** ** Documents, prompts and the capabilities the parsers consume *)

Module Config.

(** [Prompt]: [{ name, input, metadata, outputs }]; an absent [metadata] or
    [outputs] is [undefined]. *)
Record Prompt : Type := {
  name : string;
  input : JSValue;
  metadata : JSValue;
  outputs : JSValue
}.

(** [AIConfigRuntime], as far as the parsers read it: the ordered prompts,
    [metadata.models] and the callback manager. *)
Record AIConfigRuntime : Type := {
  prompts : list Prompt;
  models : JSValue;
  callbackManager : CallbackManager
}.

(** [InferenceOptions]: [{ stream?, callbacks? }]; [opt_callbacks] tells
    whether [callbacks] is set. *)
Record InferenceOptions : Type := {
  opt_stream : JSValue;
  opt_callbacks : bool
}.

(** One invocation [streamCallback(data, accumulatedData, index)]. *)
Definition StreamCall : Type := JSValue * JSValue * Z.

(** What the parsers inherit from [ParameterizedModelParser], call on the
    document or on the provider's client, and the built-ins [JSON.stringify]
    and [Date.now]; none of them is defined in the sources. *)
Class Runtime : Type := {
  (** [this.id] *)
  id : string;
  (** [this.resolvePromptTemplate(template, prompt, aiConfig, params)] *)
  resolvePromptTemplate :
    JSValue -> Prompt -> AIConfigRuntime -> JSValue -> string;
  (** [this.getModelSettings(prompt, aiConfig)] *)
  getModelSettings : Prompt -> AIConfigRuntime -> JSValue;
  (** [aiConfig.getLatestOutput(prompt)] *)
  getLatestOutput : AIConfigRuntime -> Prompt -> JSValue;
  JSON_stringify : JSValue -> string;
  Date_now : Z
}.

(** The provider clients.  A streamed response is the list of its chunks in
    arrival order. *)
Record CompletionChoice : Type := {
  choice_index : Z;
  choice_text : string;
  choice_finish_reason : JSValue;
  choice_logprobs : JSValue
}.

Record CompletionChunk : Type := {
  completion_choices : list CompletionChoice;
  (** the fields of the chunk other than [choices] *)
  completion_rest : Props
}.

Class OpenAIClient : Type := {
  (** [openai.completions.create(params, { stream: false })] *)
  completions_create : Props -> Promise JSValue;
  (** [openai.completions.create(params, { stream: true })] *)
  completions_stream : Props -> Promise (list CompletionChunk);
  (** [openai.chat.completions.create(params)] with [params.stream] false *)
  chat_completions_create : Props -> Promise JSValue;
  (** [openai.chat.completions.create(params)] with [params.stream] true *)
  chat_completions_stream : Props -> Promise (list ChatCompletionChunk)
}.

Class HfInference : Type := {
  (** [hfClient.textGeneration(args)] *)
  textGeneration : Props -> Promise JSValue;
  (** [hfClient.textGenerationStream(args)] *)
  textGenerationStream : Props -> Promise (list JSValue)
}.

(** A [Map<number, V>] whose values are listed in insertion order by
    [values()]. *)
Fixpoint Map_set {V} (m : list (Z * V)) (k : Z) (v : V) : list (Z * V) :=
  match m with
  | [] => [(k, v)]
  | (k', v') :: m' =>
      if (k' =? k) then (k, v) :: m' else (k', v') :: Map_set m' k v
  end.

Definition Map_values {V} (m : list (Z * V)) : list V := map snd m.

(** [array.push(item)] *)
Definition push {A} (array : list A) (item : A) : list A :=
  (array ++ [item])%list.

(** An object literal [{ ...a, ...b, ... }]: later members overwrite
    earlier ones of the same name. *)
Definition spread_members (parts : list Props) : Props :=
  fold_left
    (fun result part =>
       fold_left (fun r kv => obj_set r (fst kv) (snd kv)) part result)
    parts [].

(** A property name computed from a value ([o[v]]); model names are
    strings, other primitives are rendered as the runtime does. *)
Definition property_key (v : JSValue) : string :=
  match v with
  | JStr s => s
  | JNum n => NilZero.string_of_int (Z.to_int n)
  | JBool true => "true"
  | JBool false => "false"
  | JNull => "null"
  | JUndefined => "undefined"
  | JArr _ => ""
  | JObj _ => "[object Object]"
  end.

(** What a [run] leaves behind: the outputs it returns, the prompt with
    [prompt.outputs] assigned, and the invocations of [streamCallback]. *)
Record RunResult : Type := {
  run_outputs : list JSValue;
  run_prompt : Prompt;
  run_streamCalls : list StreamCall
}.

Definition with_outputs (prompt : Prompt) (outputs : list JSValue) : Prompt :=
  {| name := name prompt;
     input := input prompt;
     metadata := metadata prompt;
     outputs := JArr outputs |}.

(** Notifications that are started and not awaited: the function that
    starts them goes on with [continue] and its result does not depend on
    how the notification settles.  (A rejection of such a notification
    stays unhandled; no statement below is about it.) *)
Definition fire_and_forget {A B} (started : Promise A) (continue : B) : B :=
  continue.

End Config.
Export Config.

(** ** [OpenAIChatModelParser] *)

Module OpenAIChat.
Section Parser.
Context `{runtime : Runtime}.

(** [getPromptTemplate(prompt, aiConfig)]; the last branch reads
    [message.content] of an input that may be [null] or [undefined]. *)
Definition getPromptTemplate (prompt : Prompt) (aiConfig : AIConfigRuntime)
  : outcome JSValue :=
  if String.eqb (typeof (input prompt)) "string" then Ret (input prompt)
  else if String.eqb (typeof (get (input prompt) "data")) "string" then
    Ret (get (input prompt) "data")
  else
    let message := input prompt in
    let? content := get_strict message "content" in
    Ret (coalesce content (JStr "")).

(** [v != null ? v : undefined] *)
Definition optional (v : JSValue) : JSValue :=
  if negb (nullish v) then v else JUndefined.

(** [refineChatCompletionParams(params)] *)
Definition refineChatCompletionParams (params : JSValue) : Props :=
  [("model", get params "model");
   ("messages", get params "messages");
   ("functions", get params "functions");
   ("function_call", optional (get params "function_call"));
   ("temperature", optional (get params "temperature"));
   ("top_p", optional (get params "top_p"));
   ("n", optional (get params "n"));
   ("stream", optional (get params "stream"));
   ("stop", get params "stop");
   ("max_tokens", get params "max_tokens");
   ("presence_penalty", optional (get params "presence_penalty"));
   ("frequency_penalty", optional (get params "frequency_penalty"));
   ("logit_bias", optional (get params "logit_bias"));
   ("user", get params "user")].

(** The function call of a recorded tool-call output:
    [outputData.value[outputData.value.length - 1]!.function]. *)
Definition last_index_key (length : JSValue) : string :=
  match length with
  | JNum n => NilZero.string_of_int (Z.to_int (n - 1))
  | _ => "NaN"
  end.

Definition last_function (value : JSValue) : outcome JSValue :=
  let? length := get_strict value "length" in
  get_strict (get value (last_index_key length)) "function".

(** The optional members [...(c && { k: v })] of an object literal. *)
Definition member_if (c : bool) (k : string) (v : JSValue) : Props :=
  if c then [(k, v)] else [].

(** [addPromptAsMessage(prompt, aiConfig, messages, params)]: the array
    [messages] after the pushes. *)
Definition addPromptAsMessage (prompt : Prompt) (aiConfig : AIConfigRuntime)
    (messages : list JSValue) (params : JSValue) : outcome (list JSValue) :=
  let? promptTemplate := getPromptTemplate prompt aiConfig in
  let resolvedPrompt :=
    resolvePromptTemplate promptTemplate prompt aiConfig params in
  let messages :=
    if String.eqb (typeof (input prompt)) "string" then
      push messages (JObj [("content", JStr resolvedPrompt);
                           ("role", JStr "user")])
    else
      push messages
           (JObj [("content", JStr resolvedPrompt);
                  ("role", coalesce (get (input prompt) "role") (JStr "user"));
                  ("function_call", get (input prompt) "function_call");
                  ("name", get (input prompt) "name")]) in
  let output := getLatestOutput aiConfig prompt in
  if negb (nullish output) then
    if strict_eq (get output "output_type") (JStr "execute_result") then
      let metadata := get output "metadata" in
      let data := get output "data" in
      if truthy (coalesce (get metadata "role")
                          (JBool (strict_eq
                                    (get (get metadata "raw_response") "role")
                                    (JStr "assistant"))))
      then
        let? extracted :=
          if String.eqb (typeof data) "string" then Ret (data, JUndefined)
          else if hasOwnProperty data "value" then
            let outputData := data in
            if String.eqb (typeof (get outputData "value")) "string" then
              Ret (get outputData "value", JUndefined)
            else if strict_eq (get outputData "kind") (JStr "tool_calls") then
              let? functionCall := last_function (get outputData "value") in
              Ret (JNull, functionCall)
            else Ret (JNull, JUndefined)
          else Ret (JNull, JUndefined) in
        let content := fst extracted in
        let functionCall := snd extracted in
        let name :=
          coalesce (get metadata "name")
                   (get (get metadata "raw_response") "name") in
        Ret (push messages
               (JObj (spread_members
                        [[("content", content); ("role", JStr "assistant")];
                         member_if (negb (nullish functionCall))
                                   "function_call" functionCall;
                         member_if (negb (nullish name)) "name" name])))
      else if hasOwnProperty data "content" && hasOwnProperty data "role" then
        let outputMessage := data in
        if strict_eq (get outputMessage "role") (JStr "assistant")
        then Ret (push messages outputMessage)
        else Ret messages
      else Ret messages
    else Ret messages
  else Ret messages.

(** The loop of [deserialize] over [aiConfig.prompts], with its [break]. *)
Fixpoint walk (prompt : Prompt) (aiConfig : AIConfigRuntime)
    (params : JSValue) (remaining : list Prompt) (messages : list JSValue)
  : outcome (list JSValue) :=
  match remaining with
  | [] => Ret messages
  | currentPrompt :: remaining' =>
      let? messages := addPromptAsMessage currentPrompt aiConfig messages params in
      if String.eqb (name currentPrompt) (name prompt) then Ret messages
      else walk prompt aiConfig params remaining' messages
  end.

(** The system message that opens the history, if the settings have one:
    the block of [deserialize] under [// Add system prompt].  A
    [system_prompt] that is neither a string nor a message object is
    outside its declared type; the assignment to its [content] throws. *)
Definition systemMessages (prompt : Prompt) (aiConfig : AIConfigRuntime)
    (params modelMetadata : JSValue) : outcome (list JSValue) :=
  let system_prompt := get modelMetadata "system_prompt" in
  if negb (nullish system_prompt) then
    let? systemPrompt :=
      if String.eqb (typeof system_prompt) "string"
      then Ret [("content", system_prompt); ("role", JStr "system")]
      else match system_prompt with
           | JObj message => Ret message
           | _ => Throw TypeError
           end in
    let content :=
      resolvePromptTemplate (coalesce (obj_get systemPrompt "content") (JStr ""))
                            prompt aiConfig params in
    Ret [JObj (obj_set systemPrompt "content" (JStr content))]
  else Ret [].

(** The loop of [deserialize] that resolves the messages saved in the
    settings; each of them is a message object. *)
Fixpoint resolveSaved (prompt : Prompt) (aiConfig : AIConfigRuntime)
    (params : JSValue) (messages : list JSValue) : outcome (list JSValue) :=
  match messages with
  | [] => Ret []
  | message :: messages' =>
      match message with
      | JObj fields =>
          let content :=
            resolvePromptTemplate (coalesce (obj_get fields "content") (JStr ""))
                                  prompt aiConfig params in
          let? rest := resolveSaved prompt aiConfig params messages' in
          Ret (JObj (obj_set fields "content" (JStr content)) :: rest)
      | _ => Throw TypeError
      end
  end.

(** [deserialize(prompt, aiConfig, params)], with the prompts to walk as an
    argument of their own ([deserialize] passes [aiConfig.prompts]). *)
Definition deserialize_over (documentPrompts : list Prompt) (prompt : Prompt)
    (aiConfig : AIConfigRuntime) (params : JSValue) : outcome Props :=
  let startEvent :=
    [("name", JStr "on_deserialize_start")] in
  fire_and_forget
    (runCallbacks (callbackManager aiConfig) Date_now startEvent)
    (let modelMetadata :=
       coalesce (getModelSettings prompt aiConfig) (JObj []) in
     let completionParams := refineChatCompletionParams modelMetadata in
     let? messages :=
       if nullish (obj_get completionParams "messages") then
         let? messages := systemMessages prompt aiConfig params modelMetadata in
         if negb (strict_eq (get (metadata prompt) "remember_chat_context")
                            (JBool false))
         then walk prompt aiConfig params documentPrompts messages
         else addPromptAsMessage prompt aiConfig messages params
       else
         match obj_get completionParams "messages" with
         | JArr saved =>
             let? messages := resolveSaved prompt aiConfig params saved in
             addPromptAsMessage prompt aiConfig messages params
         | _ => Throw TypeError
         end in
     let completionParams :=
       obj_set completionParams "messages" (JArr messages) in
     let endEvent :=
       [("name", JStr "on_deserialize_end");
        ("data", JObj [("result", JObj completionParams)])] in
     fire_and_forget
       (runCallbacks (callbackManager aiConfig) Date_now endEvent)
       (Ret completionParams)).

Definition deserialize (prompt : Prompt) (aiConfig : AIConfigRuntime)
    (params : JSValue) : outcome Props :=
  deserialize_over (prompts aiConfig) prompt aiConfig params.

(** [data.messages.find((message) => message.role === "system")] *)
Fixpoint find_system (messages : list JSValue) : outcome JSValue :=
  match messages with
  | [] => Ret JUndefined
  | message :: messages' =>
      let? role := get_strict message "role" in
      if strict_eq role (JStr "system") then Ret message
      else find_system messages'
  end.

(** The model metadata that both [serialize] methods record: the bare model
    name when the requested settings equal the global ones, the name with
    the differing settings otherwise, and the name with all the settings
    when the document has no global settings for the model. *)
Definition serializeModelMetadata (modelName globalModelMetadata : JSValue)
    (promptModelMetadata : Props) : JSValue :=
  if negb (nullish globalModelMetadata) then
    let overrides :=
      overrides (spread globalModelMetadata) promptModelMetadata in
    if (0 <? length (keys overrides))%nat then
      JObj [("name", modelName); ("settings", JObj overrides)]
    else modelName
  else
    JObj [("name", modelName); ("settings", JObj promptModelMetadata)].

(** The [while] loop of [serialize] over [data.messages]; the roles are
    strings, on which [==] and [===] agree. *)
Fixpoint serialize_messages (promptName : string)
    (modelMetadata params : JSValue) (messages : list JSValue)
    (prompts : list Prompt) : outcome (list Prompt) :=
  match messages with
  | [] => Ret prompts
  | message :: messages' =>
      let? role := get_strict message "role" in
      if strict_eq role (JStr "user") || strict_eq role (JStr "function") then
        let? assistantResponse :=
          match messages' with
          | nextMessage :: _ =>
              let? nextRole := get_strict nextMessage "role" in
              if strict_eq nextRole (JStr "assistant") then Ret nextMessage
              else Ret JNull
          | [] => Ret JNull
          end in
        let input :=
          if strict_eq role (JStr "user")
          then coalesce (get message "content") (JStr "")
          else JObj (spread message) in
        let outputs :=
          if negb (nullish assistantResponse) then
            let assistantOutputData := buildOutputData assistantResponse in
            if negb (nullish assistantOutputData) then
              JArr [JObj
                      [("output_type", JStr "execute_result");
                       ("data", assistantOutputData);
                       ("metadata",
                        JObj (spread_members
                                [[("raw_response", assistantResponse)];
                                 omit (spread assistantResponse)
                                      ["content"; "function_call"]]))]]
            else JUndefined
          else JUndefined in
        let prompt :=
          {| name := promptName ++ "_" ++ index_key (length prompts + 1);
             input := input;
             metadata :=
               JObj [("model", modelMetadata);
                     ("parameters", coalesce params (JObj []));
                     ("remember_chat_context", JBool true)];
             outputs := outputs |} in
        serialize_messages promptName modelMetadata params messages'
                           (push prompts prompt)
      else
        serialize_messages promptName modelMetadata params messages' prompts
  end.

(** [prompts[prompts.length - 1]!.name = promptName] *)
Fixpoint rename_last (prompts : list Prompt) (promptName : string)
  : outcome (list Prompt) :=
  match prompts with
  | [] => Throw TypeError
  | [prompt] =>
      Ret [{| name := promptName;
              input := input prompt;
              metadata := metadata prompt;
              outputs := outputs prompt |}]
  | prompt :: prompts' =>
      let? renamed := rename_last prompts' promptName in
      Ret (prompt :: renamed)
  end.

(** [serialize(promptName, data, aiConfig, params)]; [data] is the request
    object, whose [messages] is an array. *)
Definition serialize (promptName : string) (data : Props)
    (aiConfig : AIConfigRuntime) (params : JSValue) : outcome (list Prompt) :=
  let startEvent := [("name", JStr "on_serialize_start")] in
  fire_and_forget
    (runCallbacks (callbackManager aiConfig) Date_now startEvent)
    (let? messages :=
       match obj_get data "messages" with
       | JArr messages => Ret messages
       | _ => Throw TypeError
       end in
     let? systemPrompt := find_system messages in
     let promptModelMetadata :=
       obj_set (omit data ["messages"]) "system_prompt" systemPrompt in
     let modelName := coalesce (obj_get data "model") (JStr id) in
     let globalModelMetadata :=
       get (models aiConfig) (property_key modelName) in
     let modelMetadata :=
       serializeModelMetadata modelName globalModelMetadata
                              promptModelMetadata in
     let? prompts :=
       serialize_messages promptName modelMetadata params messages [] in
     let? prompts := rename_last prompts promptName in
     let endEvent := [("name", JStr "on_serialize_end")] in
     fire_and_forget
       (runCallbacks (callbackManager aiConfig) Date_now endEvent)
       (Ret prompts)).

(** [getOutputText(aiConfig, output, prompt)] *)
Definition getOutputText (aiConfig : AIConfigRuntime) (output : JSValue)
    (prompt : option Prompt) : JSValue :=
  let output :=
    match prompt with
    | Some prompt =>
        if nullish output then getLatestOutput aiConfig prompt else output
    | None => output
    end in
  if nullish output then JStr ""
  else if strict_eq (get output "output_type") (JStr "execute_result") then
    let data := get output "data" in
    if String.eqb (typeof data) "string" then data
    else if hasOwnProperty data "value" then
      if String.eqb (typeof (get data "value")) "string" then get data "value"
      else JStr (JSON_stringify (get data "value"))
    else if hasOwnProperty data "content" && hasOwnProperty data "role" then
      let message := data in
      if negb (nullish (get message "content")) then get message "content"
      else if truthy (get message "function_call") then
        JStr (JSON_stringify (get message "function_call"))
      else JStr ""
    else JStr ""
  else JStr "".

(** The decision of [run] between the two provider calls:
    [options?.stream ?? completionParams.stream ?? true]. *)
Definition run_stream (options : option InferenceOptions)
    (completionParams : Props) : JSValue :=
  coalesce
    (coalesce (match options with
               | Some options => opt_stream options
               | None => JUndefined
               end)
              (obj_get completionParams "stream"))
    (JBool true).

Context `{openai : OpenAIClient}.

(** The outputs of a complete response: the loop of [run] over
    [response.choices]. *)
Fixpoint response_outputs (responseWithoutChoices : Props)
    (choices : list JSValue) : outcome (list JSValue) :=
  match choices with
  | [] => Ret []
  | choice :: choices' =>
      let? message := get_strict choice "message" in
      let outputData := buildOutputData message in
      if nullish outputData then
        response_outputs responseWithoutChoices choices'
      else
        let output :=
          JObj [("output_type", JStr "execute_result");
                ("data", outputData);
                ("execution_count", get choice "index");
                ("metadata",
                 JObj (spread_members
                         [[("finish_reason", get choice "finish_reason")];
                          responseWithoutChoices;
                          [("raw_response", message)];
                          omit (spread message)
                               ["content"; "function_call"]]))] in
        let? outputs := response_outputs responseWithoutChoices choices' in
        Ret (output :: outputs)
  end.

(** The state of the streaming loop of [run]. *)
Record StreamState : Type := {
  st_outputs : list (Z * JSValue);
  st_messages : option (gmap Z JSValue);
  st_streamCalls : list StreamCall
}.

(** The inner loop of the streaming branch, over the choices of one
    chunk; [messages] is the accumulator after the chunk was folded in. *)
Fixpoint stream_choices (options : option InferenceOptions)
    (messages : gmap Z JSValue) (choices : list ChunkChoice)
    (outputs : list (Z * JSValue)) (calls : list StreamCall)
  : list (Z * JSValue) * list StreamCall :=
  match choices with
  | [] => (outputs, calls)
  | choice :: choices' =>
      let message :=
        match messages !! index choice with
        | Some m => m
        | None => JUndefined
        end in
      let calls :=
        match options with
        | Some options =>
            if opt_callbacks options
            then push calls
                      (JObj (spread (delta choice)), message, index choice)
            else calls
        | None => calls
        end in
      if nullish message then
        stream_choices options messages choices' outputs calls
      else
        let outputData := buildOutputData message in
        if nullish outputData then
          stream_choices options messages choices' outputs calls
        else
          let output :=
            JObj [("output_type", JStr "execute_result");
                  ("data", outputData);
                  ("execution_count", JNum (index choice));
                  ("metadata",
                   JObj [("finish_reason", finish_reason choice);
                         ("raw_response", message)])] in
          stream_choices options messages choices'
                         (Map_set outputs (index choice) output) calls
  end.

(** The loop [for await (const chunk of responseStream)]. *)
Fixpoint stream_chunks (options : option InferenceOptions)
    (responseStream : list ChatCompletionChunk) (st : StreamState)
  : outcome StreamState :=
  match responseStream with
  | [] => Ret st
  | chunk :: responseStream' =>
      let? messages := multiChoiceMessageReducer (st_messages st) chunk in
      let '(outputs, calls) :=
        stream_choices options messages (choices chunk)
                       (st_outputs st) (st_streamCalls st) in
      stream_chunks options responseStream'
                    {| st_outputs := outputs;
                       st_messages := Some messages;
                       st_streamCalls := calls |}
  end.

(** [run(prompt, aiConfig, options, params)].  The construction of the
    client ([new OpenAI(...)]) is taken to succeed. *)
Definition run (prompt : Prompt) (aiConfig : AIConfigRuntime)
    (options : option InferenceOptions) (params : JSValue)
  : Promise RunResult :=
  let startEvent := [("name", JStr "on_run_start")] in
  await (runCallbacks (callbackManager aiConfig) Date_now startEvent)
  (fun _ =>
  await (of_outcome (deserialize prompt aiConfig params))
  (fun completionParams =>
  let stream := run_stream options completionParams in
  if negb (truthy stream) then
    let completionParams := obj_set completionParams "stream" (JBool false) in
    await (chat_completions_create completionParams)
    (fun response =>
    await (of_outcome
             (let? choices :=
                match get response "choices" with
                | JArr choices => Ret choices
                | _ => Throw TypeError
                end in
              response_outputs (omit (spread response) ["choices"]) choices))
    (fun outputs =>
    let endEvent :=
      [("name", JStr "on_run_end");
       ("data", JObj [("result", JArr outputs)])] in
    await (runCallbacks (callbackManager aiConfig) Date_now endEvent)
    (fun _ =>
    resolved {| run_outputs := outputs;
                run_prompt := with_outputs prompt outputs;
                run_streamCalls := [] |})))
  else
    let completionParams := obj_set completionParams "stream" (JBool true) in
    await (chat_completions_stream completionParams)
    (fun responseStream =>
    await (of_outcome
             (stream_chunks options responseStream
                            {| st_outputs := [];
                               st_messages := None;
                               st_streamCalls := [] |}))
    (fun st =>
    let outputs := Map_values (st_outputs st) in
    let endEvent :=
      [("name", JStr "on_run_end");
       ("data", JObj [("result", JArr outputs)])] in
    await (runCallbacks (callbackManager aiConfig) Date_now endEvent)
    (fun _ =>
    resolved {| run_outputs := outputs;
                run_prompt := with_outputs prompt outputs;
                run_streamCalls := st_streamCalls st |}))))).

End Parser.
End OpenAIChat.

(** ** [OpenAIModelParser] (text completion) *)

Module OpenAIText.
Section Parser.
Context `{runtime : Runtime} `{openai : OpenAIClient}.

(** [serialize(promptName, data, aiConfig, params)] *)
Definition serialize (promptName : string) (data : Props)
    (aiConfig : AIConfigRuntime) (params : JSValue) : list Prompt :=
  let input :=
    if String.eqb (typeof (obj_get data "prompt")) "string"
    then obj_get data "prompt"
    else JObj [("data", obj_get data "prompt")] in
  let promptModelMetadata := obj_delete data "prompt" in
  let modelName := coalesce (obj_get data "model") (JStr id) in
  let globalModelMetadata := get (models aiConfig) (property_key modelName) in
  let modelMetadata :=
    OpenAIChat.serializeModelMetadata modelName globalModelMetadata
                                      promptModelMetadata in
  let prompt :=
    {| name := promptName;
       input := input;
       metadata := JObj [("model", modelMetadata);
                         ("parameters", coalesce params (JObj []))];
       outputs := JUndefined |} in
  [prompt].

(** [refineCompletionParams(params)] *)
Definition refineCompletionParams (params : JSValue) : Props :=
  [("model", get params "model");
   ("prompt", get params "prompt");
   ("temperature", OpenAIChat.optional (get params "temperature"));
   ("top_p", OpenAIChat.optional (get params "top_p"));
   ("n", OpenAIChat.optional (get params "n"));
   ("stream", OpenAIChat.optional (get params "stream"));
   ("stop", get params "stop");
   ("max_tokens", get params "max_tokens");
   ("presence_penalty", OpenAIChat.optional (get params "presence_penalty"));
   ("frequency_penalty", OpenAIChat.optional (get params "frequency_penalty"));
   ("logit_bias", OpenAIChat.optional (get params "logit_bias"));
   ("user", get params "user")].

(** [deserialize(prompt, aiConfig, params)] *)
Definition deserialize (prompt : Prompt) (aiConfig : AIConfigRuntime)
    (params : JSValue) : Props :=
  let modelMetadata := getModelSettings prompt aiConfig in
  let completionParams :=
    refineCompletionParams (coalesce modelMetadata (JObj [])) in
  let resolvedPrompt :=
    if String.eqb (typeof (input prompt)) "string" then
      JStr (resolvePromptTemplate (input prompt) prompt aiConfig params)
    else if String.eqb (typeof (get (input prompt) "data")) "string" then
      JStr (resolvePromptTemplate (get (input prompt) "data")
                                  prompt aiConfig params)
    else coalesce (get (input prompt) "data") JNull in
  obj_set completionParams "prompt" resolvedPrompt.

(** [options?.stream ?? completionParams.stream ?? true] *)
Definition run_stream (options : option InferenceOptions)
    (completionParams : Props) : JSValue :=
  coalesce
    (coalesce (match options with
               | Some options => opt_stream options
               | None => JUndefined
               end)
              (obj_get completionParams "stream"))
    (JBool true).

(** The outputs of a complete response. *)
Fixpoint response_outputs (response : JSValue) (choices : list JSValue)
  : outcome (list JSValue) :=
  match choices with
  | [] => Ret []
  | choice :: choices' =>
      let? text := get_strict choice "text" in
      let output :=
        JObj [("output_type", JStr "execute_result");
              ("data", text);
              ("execution_count", get choice "index");
              ("metadata",
               JObj [("finish_reason", get choice "finish_reason");
                     ("logprobs", get choice "logprobs");
                     ("raw_response", response)])] in
      let? outputs := response_outputs response choices' in
      Ret (output :: outputs)
  end.

(** The state of the streaming loop: the two maps keyed by the choice index
    and the invocations of [streamCallback]. *)
Record StreamState : Type := {
  st_outputs : list (Z * JSValue);
  st_completions : gmap Z string;
  st_streamCalls : list StreamCall
}.

(** The inner loop over the choices of one chunk. *)
Fixpoint stream_choices (options : option InferenceOptions)
    (chunkWithoutChoices : Props) (choices : list CompletionChoice)
    (st : StreamState) : StreamState :=
  match choices with
  | [] => st
  | choice :: choices' =>
      let completionText := st_completions st !! choice_index choice in
      let accumulatedText :=
        match completionText with
        | Some text => text
        | None => ""
        end ++ choice_text choice in
      let completions :=
        <[choice_index choice := accumulatedText]> (st_completions st) in
      let calls :=
        match options with
        | Some options =>
            if opt_callbacks options
            then push (st_streamCalls st)
                      (JStr (choice_text choice), JStr accumulatedText,
                       choice_index choice)
            else st_streamCalls st
        | None => st_streamCalls st
        end in
      let output :=
        JObj [("output_type", JStr "execute_result");
              ("data", JStr accumulatedText);
              ("execution_count", JNum (choice_index choice));
              ("metadata",
               JObj (spread_members
                       [[("finish_reason", choice_finish_reason choice);
                         ("logprobs", choice_logprobs choice)];
                        chunkWithoutChoices]))] in
      stream_choices options chunkWithoutChoices choices'
                     {| st_outputs :=
                          Map_set (st_outputs st) (choice_index choice) output;
                        st_completions := completions;
                        st_streamCalls := calls |}
  end.

(** The loop [for await (const chunk of responseStream)]. *)
Definition stream_chunks (options : option InferenceOptions)
    (responseStream : list CompletionChunk) (st : StreamState) : StreamState :=
  fold_left
    (fun st chunk =>
       stream_choices options (completion_rest chunk)
                      (completion_choices chunk) st)
    responseStream st.

(** [run(prompt, aiConfig, options, params)].  The construction of the
    client is taken to succeed. *)
Definition run (prompt : Prompt) (aiConfig : AIConfigRuntime)
    (options : option InferenceOptions) (params : JSValue)
  : Promise RunResult :=
  let completionParams := deserialize prompt aiConfig params in
  let stream := run_stream options completionParams in
  if negb (truthy stream) then
    await (completions_create completionParams)
    (fun response =>
    await (of_outcome
             (let? choices :=
                match get response "choices" with
                | JArr choices => Ret choices
                | _ => Throw TypeError
                end in
              response_outputs response choices))
    (fun outputs =>
    resolved {| run_outputs := outputs;
                run_prompt := with_outputs prompt outputs;
                run_streamCalls := [] |}))
  else
    await (completions_stream completionParams)
    (fun responseStream =>
    let st :=
      stream_chunks options responseStream
                    {| st_outputs := [];
                       st_completions := ∅;
                       st_streamCalls := [] |} in
    let outputs := Map_values (st_outputs st) in
    resolved {| run_outputs := outputs;
                run_prompt := with_outputs prompt outputs;
                run_streamCalls := st_streamCalls st |}).

(** [getOutputText(aiConfig, output, prompt)]: the same text as in
    [OpenAIChatModelParser]. *)
Definition getOutputText (aiConfig : AIConfigRuntime) (output : JSValue)
    (prompt : option Prompt) : JSValue :=
  let output :=
    match prompt with
    | Some prompt =>
        if nullish output then getLatestOutput aiConfig prompt else output
    | None => output
    end in
  if nullish output then JStr ""
  else if strict_eq (get output "output_type") (JStr "execute_result") then
    let data := get output "data" in
    if String.eqb (typeof data) "string" then data
    else if hasOwnProperty data "value" then
      if String.eqb (typeof (get data "value")) "string" then get data "value"
      else JStr (JSON_stringify (get data "value"))
    else if hasOwnProperty data "content" && hasOwnProperty data "role" then
      let message := data in
      if negb (nullish (get message "content")) then get message "content"
      else if truthy (get message "function_call") then
        JStr (JSON_stringify (get message "function_call"))
      else JStr ""
    else JStr ""
  else JStr "".

End Parser.
End OpenAIText.

(** ** [HuggingFaceTextGenerationParser] *)

Module HuggingFace.
Section Parser.
Context `{runtime : Runtime} `{hf : HfInference}.

(** [refineCompletionParams(input, params)] *)
Definition refineCompletionParams (input : string) (params : JSValue)
  : Props :=
  [("model", get params "model");
   ("inputs", JStr input);
   ("parameters",
    JObj [("do_sample", OpenAIChat.optional (get params "do_sample"));
          ("max_new_tokens", OpenAIChat.optional (get params "max_new_tokens"));
          ("max_time", OpenAIChat.optional (get params "max_time"));
          ("num_return_sequences",
           OpenAIChat.optional (get params "num_return_sequences"));
          ("repetition_penalty",
           OpenAIChat.optional (get params "repetition_penalty"));
          ("return_full_text",
           OpenAIChat.optional (get params "return_full_text"));
          ("temperature", OpenAIChat.optional (get params "temperature"));
          ("top_k", OpenAIChat.optional (get params "top_k"));
          ("top_p", OpenAIChat.optional (get params "top_p"));
          ("truncate", OpenAIChat.optional (get params "truncate"));
          ("stop_sequences",
           OpenAIChat.optional (get params "stop_sequences"))])].

(** [deserialize(prompt, aiConfig, params)] *)
Definition deserialize (prompt : Prompt) (aiConfig : AIConfigRuntime)
    (params : JSValue) : Props :=
  let startEvent := [("name", JStr "on_deserialize_start")] in
  fire_and_forget
    (runCallbacks (callbackManager aiConfig) Date_now startEvent)
    (let resolvedPrompt :=
       resolvePromptTemplate (input prompt) prompt aiConfig params in
     let modelMetadata :=
       coalesce (getModelSettings prompt aiConfig) (JObj []) in
     let completionParams :=
       refineCompletionParams resolvedPrompt modelMetadata in
     let endEvent :=
       [("name", JStr "on_deserialize_end");
        ("data", JObj [("result", JObj completionParams)])] in
     fire_and_forget
       (runCallbacks (callbackManager aiConfig) Date_now endEvent)
       completionParams).

(** The loop of [constructStreamOutput(response, options)]; [newText] is a
    string, and [+=] appends it. *)
Fixpoint constructStreamOutput_loop (options : InferenceOptions)
    (response : list JSValue) (accumulatedMessage : string)
    (output : JSValue) (calls : list StreamCall)
  : outcome (JSValue * list StreamCall) :=
  match response with
  | [] => Ret (output, calls)
  | iteration :: response' =>
      let? token := get_strict iteration "token" in
      let? newText := get_strict token "text" in
      let metadata := iteration in
      let accumulatedMessage :=
        accumulatedMessage ++ property_key newText in
      let index := 0 in
      if opt_callbacks options then
        let calls := push calls (newText, JStr accumulatedMessage, 0) in
        let output :=
          JObj [("output_type", JStr "execute_result");
                ("data", newText);
                ("execution_count", JNum index);
                ("metadata", metadata)] in
        constructStreamOutput_loop options response' accumulatedMessage
                                   output calls
      else Throw TypeError
  end.

(** [constructStreamOutput(response, options)] *)
Definition constructStreamOutput (response : list JSValue)
    (options : InferenceOptions) : outcome (JSValue * list StreamCall) :=
  constructStreamOutput_loop options response "" (JObj []) [].

(** [constructOutput(response)] *)
Definition constructOutput (response : JSValue) : outcome JSValue :=
  let? generated_text := get_strict response "generated_text" in
  Ret (JObj [("output_type", JStr "execute_result");
             ("data", generated_text);
             ("execution_count", JNum 0);
             ("metadata", JObj [("raw_response", response)])]).

(** The decision of [run] between the two provider calls:
    [options ? (options.stream ? options.stream : true) : false]. *)
Definition run_stream (options : option InferenceOptions) : JSValue :=
  match options with
  | Some options =>
      if truthy (opt_stream options) then opt_stream options else JBool true
  | None => JBool false
  end.

(** [run(prompt, aiConfig, options, params)] *)
Definition run (prompt : Prompt) (aiConfig : AIConfigRuntime)
    (options : option InferenceOptions) (params : JSValue)
  : Promise RunResult :=
  let startEvent := [("name", JStr "on_run_start")] in
  await (runCallbacks (callbackManager aiConfig) Date_now startEvent)
  (fun _ =>
  let textGenerationArgs := deserialize prompt aiConfig params in
  let stream := run_stream options in
  await
    (if truthy stream then
       await (textGenerationStream textGenerationArgs)
       (fun response =>
          match options with
          | Some options =>
              of_outcome (constructStreamOutput response options)
          | None => rejected TypeError
          end)
     else
       await (textGeneration textGenerationArgs)
       (fun response =>
          of_outcome (let? output := constructOutput response in
                      Ret (output, []))))
  (fun '(output, calls) =>
  let outputs := [output] in
  let endEvent :=
    [("name", JStr "on_run_end");
     ("data", JObj [("result", JArr outputs)])] in
  await (runCallbacks (callbackManager aiConfig) Date_now endEvent)
  (fun _ =>
  resolved {| run_outputs := outputs;
              run_prompt := with_outputs prompt outputs;
              run_streamCalls := calls |}))).

(** [getOutputText(aiConfig, output, prompt)] *)
Definition getOutputText (aiConfig : AIConfigRuntime) (output : JSValue)
    (prompt : option Prompt) : JSValue :=
  let output :=
    match prompt with
    | Some prompt =>
        if nullish output then getLatestOutput aiConfig prompt else output
    | None => output
    end in
  if nullish output then JStr ""
  else if strict_eq (get output "output_type") (JStr "execute_result") then
    let data := get output "data" in
    if String.eqb (typeof data) "string" then data
    else if hasOwnProperty data "value" then
      if String.eqb (typeof (get data "value")) "string" then get data "value"
      else JStr (JSON_stringify (get data "value"))
    else if hasOwnProperty data "generated_text" then
      get data "generated_text"
    else JStr ""
  else JStr "".

End Parser.
End HuggingFace.

(** ** [src/lib/utils.ts], continued *)

Module UtilsRest.

(** The loop of [deepClone] over the properties of a plain object:
    [result[key] = deepClone(obj[key])] for each own property, in order. *)
Definition deepClone_props (deepClone : JSValue -> JSValue)
  : Props -> Props -> Props :=
  fix loop (obj result : Props) : Props :=
    match obj with
    | [] => result
    | (key, value) :: obj' => loop obj' (obj_set result key (deepClone value))
    end.

(** [deepClone(obj)], on plain data ([Date] objects are not represented). *)
Fixpoint deepClone (obj : JSValue) : JSValue :=
  match obj with
  | JArr items => JArr (map deepClone items)
  | JObj props => JObj (deepClone_props deepClone props [])
  | _ => obj
  end.

End UtilsRest.
Export UtilsRest.

(** ** Notions used in the statements *)

Definition is_container (v : JSValue) : bool :=
  match v with
  | JArr _ | JObj _ => true
  | _ => false
  end.

(** The reducer of [overrides], for any list of keys. *)
Definition is_mapping (v : JSValue) : bool :=
  match v with
  | JObj _ => true
  | _ => false
  end.

(** No object in [v] holds a falsy property value. *)
Fixpoint no_falsy_property (v : JSValue) : bool :=
  match v with
  | JArr l => forallb no_falsy_property l
  | JObj l =>
      forallb (fun kv => truthy (snd kv) && no_falsy_property (snd kv)) l
  | _ => true
  end.

Definition overrides_step (G R : Props) (result : Props) (key : string)
  : Props :=
  if negb (isEqual (obj_get G key) (obj_get R key))
  then obj_set result key (obj_get R key)
  else result.

(** [rec'] answers wherever [rec] does, and the same. *)
Definition extends (rec rec' : JSValue -> JSValue -> option (outcome JSValue))
  : Prop :=
  forall a d o, rec a d = Some o -> rec' a d = Some o.

(** [rec] answers on every pair within the depth budget [n], and what it
    returns is an object no deeper than its arguments. *)
Definition answers_below
    (rec : JSValue -> JSValue -> option (outcome JSValue)) (n : nat) : Prop :=
  forall a d,
    (Nat.max (props_depth (spread a)) (props_depth (spread d)) < n)%nat ->
    exists o, rec a d = Some o /\
      forall r, o = Ret r ->
        exists r', r = JObj r' /\
          (props_depth r' <=
           Nat.max (props_depth (spread a)) (props_depth (spread d)))%nat.

(** [reduce] satisfies the equation of its source text. *)
Definition reduce_rec (acc delta : JSValue) : option (outcome JSValue) :=
  Some (reduce acc delta).

(** The value of a property after the merge, from its value [field] in the
    accumulator ([undefined] when missing) and the incoming [value]. *)
Definition merge_field (field value : JSValue) : outcome JSValue :=
  if nullish field then Ret value
  else
    match field, value with
    | JStr a, JStr b => Ret (JStr (a ++ b))
    | JObj _, _ => reduce field value
    | _, _ => Ret field
    end.

(** [rec] raises nothing but a [TypeError]. *)
Definition raises_TypeError_only
    (rec : JSValue -> JSValue -> option (outcome JSValue)) : Prop :=
  forall a d e, rec a d = Some (Throw e) -> e = TypeError.

(** No [null] and no [undefined] anywhere in the value. *)
Fixpoint defined_everywhere (v : JSValue) : bool :=
  match v with
  | JUndefined | JNull => false
  | JArr l => forallb defined_everywhere l
  | JObj l => forallb (fun kv => defined_everywhere (snd kv)) l
  | _ => true
  end.

(** [rec] raises nothing on a delta that is defined everywhere. *)
Definition returns_on_defined
    (rec : JSValue -> JSValue -> option (outcome JSValue)) : Prop :=
  forall a d e, defined_everywhere d = true -> rec a d <> Some (Throw e).

(** The promise is still pending when the timer of [timeout] seconds
    fires. *)
Definition pending_at_timeout {A} (p : Promise A) (timeout : nat) : bool :=
  match p with
  | Pending => true
  | Settled t _ => (timeout * 1000 <? t)%nat
  end.

Definition settles_by {A} (deadline : nat) (p : Promise A) : Prop :=
  exists t r, p = Settled t r /\ (t <= deadline)%nat.

(** The tasks of [runCallbacks]. *)
Definition tasks_of (this : CallbackManager) (now : Z) (event : CallbackEvent)
  : list (Promise JSValue) :=
  map (fun callback => withTimeout (callback (eventWithTimeStamp now event))
                                   (timeout this))
      (callbacks this).

(** The names of the members that every object inherits from
    [Object.prototype]: a read [o[k]] of such a name on an object without
    an own property [k] answers the inherited member. *)
Definition Object_prototype_names : list string :=
  ["constructor"; "__defineGetter__"; "__defineSetter__"; "hasOwnProperty";
   "__lookupGetter__"; "__lookupSetter__"; "isPrototypeOf";
   "propertyIsEnumerable"; "toString"; "valueOf"; "__proto__";
   "toLocaleString"].

Definition inherited (k : string) : bool :=
  existsb (String.eqb k) Object_prototype_names.

(** No object in [v] holds an own property named [constructor], so that
    [v?.constructor.name] reads the inherited constructor at every
    depth. *)
Fixpoint no_own_constructor (v : JSValue) : bool :=
  match v with
  | JArr l => forallb no_own_constructor l
  | JObj l =>
      negb (existsb (String.eqb "constructor") (keys l))
      && forallb (fun kv => no_own_constructor (snd kv)) l
  | _ => true
  end.

(** What [addPromptAsMessage] reads in the latest output of a prompt.  The
    output is a recorded result when it is an [execute_result]; it is
    marked as an assistant's when
    [metadata.role ?? (metadata.raw_response.role === "assistant")] is
    truthy; its data is an assistant message (the older format of outputs)
    when it has a [content] and the [role] "assistant".  The text of the
    data is the data itself when it is a string, and its [value] when that
    is a string. *)
Definition recorded_result (output : JSValue) : bool :=
  negb (nullish output)
  && strict_eq (get output "output_type") (JStr "execute_result").

Definition marked_assistant (output : JSValue) : bool :=
  let metadata := get output "metadata" in
  truthy (coalesce (get metadata "role")
                   (JBool (strict_eq (get (get metadata "raw_response") "role")
                                     (JStr "assistant")))).

Definition assistant_message (data : JSValue) : bool :=
  hasOwnProperty data "content" && hasOwnProperty data "role"
  && strict_eq (get data "role") (JStr "assistant").

Definition recorded_text (data : JSValue) : option JSValue :=
  if String.eqb (typeof data) "string" then Some data
  else if hasOwnProperty data "value"
          && String.eqb (typeof (get data "value")) "string"
       then Some (get data "value")
       else None.

Section HistoryNotions.
Context `{runtime : Runtime}.

(** The prompts of a document up to and including the first one that bears
    the given name. *)
Fixpoint upto_target (target : string) (prompts : list Prompt) : list Prompt :=
  match prompts with
  | [] => []
  | p :: prompts' =>
      if String.eqb (name p) target then [p]
      else p :: upto_target target prompts'
  end.

(** [addPromptAsMessage] applied to each prompt of a list in turn. *)
Fixpoint add_all (aiConfig : AIConfigRuntime) (params : JSValue)
    (prompts : list Prompt) (messages : list JSValue)
  : outcome (list JSValue) :=
  match prompts with
  | [] => Ret messages
  | p :: prompts' =>
      let? messages := OpenAIChat.addPromptAsMessage p aiConfig messages params in
      add_all aiConfig params prompts' messages
  end.

End HistoryNotions.

(** ** A runtime and a document for the examples *)

Module Samples.

(** Templates resolve to themselves; the settings of a prompt are the
    global settings of the model that its metadata names; the latest
    output of a prompt is the last one recorded on it. *)
Definition sample_runtime : Runtime :=
  {| id := "gpt-4";
     resolvePromptTemplate := fun template _ _ _ => property_key template;
     getModelSettings :=
       fun prompt aiConfig =>
         get (models aiConfig) (property_key (get (metadata prompt) "model"));
     getLatestOutput :=
       fun _ prompt =>
         match outputs prompt with
         | JArr recorded => List.last recorded JUndefined
         | _ => JUndefined
         end;
     JSON_stringify := fun _ => "";
     Date_now := 0 |}.

Definition assistant_output (text : string) : JSValue :=
  JObj [("output_type", JStr "execute_result");
        ("data", JStr text);
        ("metadata",
         JObj [("raw_response",
                JObj [("role", JStr "assistant"); ("content", JStr text)])])].

Definition chat_prompt (name : string) (text : string) (remember : bool)
    (outputs : JSValue) : Prompt :=
  {| name := name;
     input := JStr text;
     metadata := JObj [("model", JStr "gpt-4");
                       ("remember_chat_context", JBool remember)];
     outputs := outputs |}.

Definition first_prompt : Prompt :=
  chat_prompt "greet" "Hi" true (JArr [assistant_output "Hello"]).

Definition second_prompt : Prompt :=
  chat_prompt "ask" "What is Rocq?" true JUndefined.

Definition third_prompt : Prompt :=
  chat_prompt "thank" "Thanks" true JUndefined.

Definition forgetful_prompt : Prompt :=
  chat_prompt "again" "Hi" false (JArr [assistant_output "Hello"]).

Definition sample_config : AIConfigRuntime :=
  {| prompts := [first_prompt; second_prompt; third_prompt; forgetful_prompt];
     models := JObj [("gpt-4", JObj [("model", JStr "gpt-4")])];
     callbackManager := new_CallbackManager [] None |}.

End Samples.

(** ** Providers for the examples *)

Module SampleProviders.

Definition text_chunk (text : string) : CompletionChunk :=
  {| completion_choices :=
       [{| choice_index := 0;
           choice_text := text;
           choice_finish_reason := JNull;
           choice_logprobs := JNull |}];
     completion_rest := [("object", JStr "text_completion")] |}.

Definition chat_chunk (content : string) : ChatCompletionChunk :=
  {| choices := [{| index := 0;
                    delta := JObj [("content", JStr content)];
                    finish_reason := JNull |}];
     chunk_rest := [("object", JStr "chat.completion.chunk")] |}.

Definition token (text : string) : JSValue :=
  JObj [("token", JObj [("text", JStr text)]);
        ("generated_text", JNull)].

(** A provider that streams the two fragments "Hel" and "lo" for choice 0. *)
Definition hello_openai : OpenAIClient :=
  {| completions_create := fun _ => Pending;
     completions_stream :=
       fun _ => resolved [text_chunk "Hel"; text_chunk "lo"];
     chat_completions_create := fun _ => Pending;
     chat_completions_stream :=
       fun _ => resolved [chat_chunk "Hel"; chat_chunk "lo"] |}.

Definition hello_hf : HfInference :=
  {| textGeneration := fun _ => Pending;
     textGenerationStream := fun _ => resolved [token "Hel"; token "lo"] |}.

Definition streaming_options : InferenceOptions :=
  {| opt_stream := JUndefined; opt_callbacks := true |}.

(** A listener that never settles, and a document whose callback manager
    holds it, with the default timeout. *)
Definition stuck_listener : Callback := fun _ => Pending.

Definition watched_config : AIConfigRuntime :=
  {| prompts := prompts Samples.sample_config;
     models := models Samples.sample_config;
     callbackManager := new_CallbackManager [stuck_listener] None |}.

End SampleProviders.

(** ** Values for the examples *)

Definition partial_message : JSValue :=
  JObj [("role", JStr "assistant"); ("content", JStr "Hel");
        ("function_call", JObj [("name", JStr "lookup")]);
        ("n", JNum 1)].

Definition incoming_delta : Props :=
  [("content", JStr "lo");
   ("function_call", JObj [("arguments", JStr "{")]);
   ("n", JNum 2);
   ("refusal", JNull)].

Definition one_choice_so_far : gmap Z JSValue :=
  {[ 0 := JObj [("role", JStr "assistant"); ("content", JStr "Hel")] ]}.

Definition next_fragment : ChatCompletionChunk :=
  {| choices := [{| index := 0;
                    delta := JObj [("content", JStr "lo")];
                    finish_reason := JNull |}];
     chunk_rest := [] |}.

Definition system_only_request : Props :=
  [("model", JStr "gpt-4");
   ("messages",
    JArr [JObj [("role", JStr "system"); ("content", JStr "Be brief")];
          JObj [("role", JStr "assistant"); ("content", JStr "Hello")]])].

(** Two listeners that answer after three and after nine milliseconds. *)
Definition quick_listener : Callback :=
  fun _ => Settled 3 (Fulfilled (JStr "a")).

Definition slow_listener : Callback :=
  fun _ => Settled 9 (Fulfilled (JStr "b")).

(** The sample document with these two listeners and a timeout of one
    second. *)
Definition attended_config : AIConfigRuntime :=
  {| prompts := prompts Samples.sample_config;
     models := models Samples.sample_config;
     callbackManager :=
       new_CallbackManager [quick_listener; slow_listener] (Some 1%nat) |}.

(** The text that a property holds: the empty text when it is unset. *)
Definition text_of (field : JSValue) : string :=
  match field with
  | JStr s => s
  | _ => ""
  end.

(** ** Notions used for the streamed runs *)

(** [m.get(k)] on a [Map<number, V>]. *)
Fixpoint Map_get {V} (m : list (Z * V)) (k : Z) : option V :=
  match m with
  | [] => None
  | (k', v) :: m' => if (k' =? k) then Some v else Map_get m' k
  end.

(** The text fragments that the choices of a chunk, and the chunks of a
    streamed response, carry for one choice index, in arrival order. *)
Definition texts_for (index : Z) (choices : list CompletionChoice)
  : list string :=
  map choice_text
      (List.filter (fun choice => choice_index choice =? index) choices).

Definition fragments_of (index : Z) (responseStream : list CompletionChunk)
  : list string :=
  texts_for index (concat (map completion_choices responseStream)).

(** The fragments appended one after the other to a text. *)
Definition appended (text : string) (fragments : list string) : string :=
  fold_left String.append fragments text.

(** The text recorded for a choice after more fragments arrived for it. *)
Definition extended (recorded : option string) (fragments : list string)
  : option string :=
  match fragments with
  | [] => recorded
  | _ => Some (appended (default "" recorded) fragments)
  end.

(** The state in which the streaming loop of the text-completion parser
    starts. *)
Definition text_stream_start : OpenAIText.StreamState :=
  {| OpenAIText.st_outputs := [];
     OpenAIText.st_completions := ∅;
     OpenAIText.st_streamCalls := [] |}.

(** The output recorded for a choice holds the text recorded for it. *)
Definition text_outputs_follow (st : OpenAIText.StreamState) : Prop :=
  forall index,
    match OpenAIText.st_completions st !! index with
    | Some text =>
        exists output,
          Map_get (OpenAIText.st_outputs st) index = Some output /\
          get output "data" = JStr text /\
          get output "execution_count" = JNum index
    | None => Map_get (OpenAIText.st_outputs st) index = None
    end.

(** The invocations [streamCallback(fragment, accumulated, 0)] that a
    sequence of text fragments gives rise to, [accumulated] being the text
    received so far. *)
Fixpoint fragment_calls (accumulated : string) (fragments : list string)
  : list StreamCall :=
  match fragments with
  | [] => []
  | fragment :: fragments' =>
      (JStr fragment, JStr (accumulated ++ fragment), 0)
      :: fragment_calls (accumulated ++ fragment) fragments'
  end.

(** An iteration of a generation stream carries the given text fragment. *)
Definition carries (iteration : JSValue) (fragment : string) : Prop :=
  get (get iteration "token") "text" = JStr fragment.

(** ** Notions used for the chat parser *)

(** The messages of a request that [serialize] turns into prompts: those
    of role [user] or [function]. *)
Definition is_turn (message : JSValue) : bool :=
  strict_eq (get message "role") (JStr "user")
  || strict_eq (get message "role") (JStr "function").

(** The input that [serialize] records for such a message. *)
Definition turn_input (message : JSValue) : JSValue :=
  if strict_eq (get message "role") (JStr "user")
  then coalesce (get message "content") (JStr "")
  else JObj (spread message).

(** The names [promptName_first], [promptName_(first+1)], ... *)
Definition numbered (promptName : string) (first count : nat) : list string :=
  map (fun i => promptName ++ "_" ++ index_key i) (seq first count).

(** The number of prompts that [deserialize] hands to [addPromptAsMessage]
    when the settings hold no saved messages. *)
Definition prompts_walked (target : Prompt) (aiConfig : AIConfigRuntime)
  : nat :=
  if strict_eq (get (metadata target) "remember_chat_context") (JBool false)
  then 1
  else length (upto_target (name target) (prompts aiConfig)).

(** A prompt that the sample document does not hold. *)
Definition stray_prompt : Prompt :=
  Samples.chat_prompt "elsewhere" "Anyone?" true JUndefined.

(** A document whose model settings hold saved messages and a system
    prompt. *)
Definition saved_config : AIConfigRuntime :=
  {| prompts := prompts Samples.sample_config;
     models :=
       JObj [("gpt-4",
              JObj [("model", JStr "gpt-4");
                    ("system_prompt", JStr "Be brief");
                    ("messages",
                     JArr [JObj [("role", JStr "user");
                                 ("content", JStr "Earlier")]])])];
     callbackManager := new_CallbackManager [] None |}.

(** A choice of a complete chat response for which [run] records an
    output: its message has a content or a function call. *)
Definition answers (choice : JSValue) : bool :=
  negb (nullish (buildOutputData (get choice "message"))).

(** The index and the data of an output, and what a choice of a chat
    response and of a text response gives for them. *)
Definition index_and_data (output : JSValue) : JSValue * JSValue :=
  (get output "execution_count", get output "data").

Definition chat_choice_data (choice : JSValue) : JSValue * JSValue :=
  (get choice "index", buildOutputData (get choice "message")).

Definition text_choice_data (choice : JSValue) : JSValue * JSValue :=
  (get choice "index", get choice "text").

(** The output [{ output_type: "execute_result", data, execution_count,
    metadata }]. *)
Definition execute_result (data execution_count metadata : JSValue)
  : JSValue :=
  JObj [("output_type", JStr "execute_result");
        ("data", data);
        ("execution_count", execution_count);
        ("metadata", metadata)].

(** The choices of a complete chat response: an answer, an empty message
    and a function call. *)
Definition three_choices : list JSValue :=
  [JObj [("index", JNum 0);
         ("message", JObj [("role", JStr "assistant");
                           ("content", JStr "Hello")])];
   JObj [("index", JNum 1);
         ("message", JObj [("role", JStr "assistant")])];
   JObj [("index", JNum 2);
         ("message", JObj [("role", JStr "assistant");
                           ("content", JNull);
                           ("function_call",
                            JObj [("name", JStr "lookup")])])]].

(** The state in which the streaming loop of the chat parser starts. *)
Definition chat_stream_start : OpenAIChat.StreamState :=
  {| OpenAIChat.st_outputs := [];
     OpenAIChat.st_messages := None;
     OpenAIChat.st_streamCalls := [] |}.

(** A streamed chat fragment without choices, and a provider whose stream
    opens with it. *)
Definition empty_chunk : ChatCompletionChunk :=
  {| choices := []; chunk_rest := [("object", JStr "chat.completion.chunk")] |}.

Definition late_openai : OpenAIClient :=
  {| completions_create := fun _ => Pending;
     completions_stream := fun _ => Pending;
     chat_completions_create := fun _ => Pending;
     chat_completions_stream :=
       fun _ => resolved [empty_chunk; SampleProviders.chat_chunk "Hello"] |}.

(** A streamed chat fragment that carries, for the one choice [index], the
    delta [delta], and one that carries a further fragment of its
    content. *)
Definition carries_delta (index : Z) (delta : JSValue)
    (chunk : ChatCompletionChunk) : Prop :=
  exists reason,
    choices chunk =
    [{| StreamReducer.index := index;
        StreamReducer.delta := delta;
        finish_reason := reason |}].

Definition carries_content (index : Z) (chunk : ChatCompletionChunk)
    (fragment : string) : Prop :=
  carries_delta index (JObj [("content", JStr fragment)]) chunk.

(** The opening delta of a streamed chat answer. *)
Definition opening_delta : Props :=
  [("role", JStr "assistant"); ("content", JStr "")].

(** A provider of generated text that answers at once, and a text
    completion request for the model of the sample document. *)
Definition ready_hf : HfInference :=
  {| textGeneration :=
       fun _ => resolved (JObj [("generated_text", JStr "Hello")]);
     textGenerationStream := fun _ => Pending |}.

Definition plain_request : Props :=
  [("prompt", JStr "Say hello"); ("model", JStr "gpt-4")].

(** A request of two exchanges. *)
Definition two_turn_request : Props :=
  [("model", JStr "gpt-4");
   ("messages",
    JArr [JObj [("role", JStr "system"); ("content", JStr "Be brief")];
          JObj [("role", JStr "user"); ("content", JStr "Hi")];
          JObj [("role", JStr "assistant"); ("content", JStr "Hello")];
          JObj [("role", JStr "user"); ("content", JStr "Bye")]])].

(** A streamed text completion with two choices whose fragments arrive
    interleaved. *)
Definition two_choice_stream : list CompletionChunk :=
  [{| completion_choices :=
        [{| choice_index := 0; choice_text := "Hel";
            choice_finish_reason := JNull; choice_logprobs := JNull |};
         {| choice_index := 1; choice_text := "Good";
            choice_finish_reason := JNull; choice_logprobs := JNull |}];
      completion_rest := [] |};
   {| completion_choices :=
        [{| choice_index := 1; choice_text := "bye";
            choice_finish_reason := JStr "stop"; choice_logprobs := JNull |};
         {| choice_index := 0; choice_text := "lo";
            choice_finish_reason := JStr "stop"; choice_logprobs := JNull |}];
      completion_rest := [] |}].

(** * Properties *)

(** ** Objects *)

Section ObjectFacts.

Lemma obj_find_set_eq (l : Props) k v : obj_find (obj_set l k v) k = Some v.
Proof.
  induction l as [|[k' v'] l IH]; simpl.
  - by rewrite String.eqb_refl.
  - destruct (String.eqb_spec k' k) as [->|Hne]; simpl.
    + by rewrite String.eqb_refl.
    + destruct (String.eqb_spec k' k); [done|]. exact IH.
Qed.

Lemma obj_find_set_ne (l : Props) k k' v :
  k <> k' -> obj_find (obj_set l k v) k' = obj_find l k'.
Proof.
  intros Hne. induction l as [|[k0 v0] l IH]; simpl.
  - destruct (String.eqb_spec k k'); [done|reflexivity].
  - destruct (String.eqb_spec k0 k) as [->|Hk]; simpl.
    + destruct (String.eqb_spec k k'); [done|reflexivity].
    + destruct (String.eqb_spec k0 k'); [reflexivity|exact IH].
Qed.

Lemma obj_get_set_eq (l : Props) k v : obj_get (obj_set l k v) k = v.
Proof. unfold obj_get. by rewrite obj_find_set_eq. Qed.

Lemma obj_get_set_ne (l : Props) k k' v :
  k <> k' -> obj_get (obj_set l k v) k' = obj_get l k'.
Proof. intros. unfold obj_get. by rewrite obj_find_set_ne. Qed.

Lemma obj_has_set_eq (l : Props) k v : obj_has (obj_set l k v) k = true.
Proof. unfold obj_has. by rewrite obj_find_set_eq. Qed.

Lemma obj_has_set_ne (l : Props) k k' v :
  k <> k' -> obj_has (obj_set l k v) k' = obj_has l k'.
Proof. intros. unfold obj_has. by rewrite obj_find_set_ne. Qed.

Lemma existsb_eqb_In k (l : list string) :
  existsb (String.eqb k) l = true <-> In k l.
Proof.
  rewrite existsb_exists. split.
  - intros (x & Hx & Heq). apply String.eqb_eq in Heq. by subst.
  - intros Hin. exists k. split; [done|apply String.eqb_refl].
Qed.

Lemma distinct_NoDup (l : list string) : distinct l = true <-> NoDup l.
Proof.
  induction l as [|k l IH]; simpl.
  - split; [constructor|done].
  - rewrite andb_true_iff, negb_true_iff, IH, NoDup_cons, list_elem_of_In.
    rewrite <- not_true_iff_false, existsb_eqb_In. tauto.
Qed.

Lemma obj_find_None (l : Props) k : obj_find l k = None <-> ~ In k (keys l).
Proof.
  induction l as [|[k' v'] l IH]; simpl; [tauto|].
  destruct (String.eqb_spec k' k) as [->|Hne].
  - split; [done|tauto].
  - rewrite IH. tauto.
Qed.

Lemma obj_find_Some_In (l : Props) k v :
  obj_find l k = Some v -> In (k, v) l.
Proof.
  induction l as [|[k' v'] l IH]; simpl; [done|].
  destruct (String.eqb_spec k' k) as [->|Hne].
  - intros [= ->]. by left.
  - intros Hf. right. by apply IH.
Qed.

Lemma obj_find_distinct (l : Props) k v :
  distinct (keys l) = true -> In (k, v) l -> obj_find l k = Some v.
Proof.
  induction l as [|[k' v'] l IH]; simpl; [done|].
  rewrite andb_true_iff, negb_true_iff. intros [Hk Hd] [Heq|Hin].
  - injection Heq as -> ->. by rewrite String.eqb_refl.
  - destruct (String.eqb_spec k' k) as [->|Hne]; [|by apply IH].
    exfalso. apply not_true_iff_false in Hk. apply Hk.
    apply existsb_eqb_In. change (In (fst (k, v)) (map fst l)).
    by apply in_map.
Qed.

Lemma obj_has_In (l : Props) k : obj_has l k = true <-> In k (keys l).
Proof.
  unfold obj_has. destruct (obj_find l k) eqn:Hf.
  - split; [intros _|done].
    apply obj_find_Some_In in Hf. change (In (fst (k, j)) (map fst l)).
    by apply in_map.
  - apply obj_find_None in Hf. split; [done|tauto].
Qed.

Lemma wf_value_obj (l : Props) :
  wf_value (JObj l) = true <->
  distinct (keys l) = true /\ Forall (fun kv => wf_value (snd kv) = true) l.
Proof.
  simpl. rewrite andb_true_iff, forallb_forall, List.Forall_forall. tauto.
Qed.

Lemma wf_value_arr (l : list JSValue) :
  wf_value (JArr l) = true <-> Forall (fun x => wf_value x = true) l.
Proof. simpl. by rewrite forallb_forall, List.Forall_forall. Qed.

Lemma wf_obj_get (l : Props) k :
  Forall (fun kv => wf_value (snd kv) = true) l ->
  wf_value (obj_get l k) = true.
Proof.
  intros Hall. unfold obj_get. destruct (obj_find l k) eqn:Hf; [|done].
  apply obj_find_Some_In in Hf. rewrite List.Forall_forall in Hall.
  exact (Hall _ Hf).
Qed.

End ObjectFacts.

(** ** [isEqual] against the deep equality of the specification *)

Section IsEqualFacts.

Lemma container_by_name v :
  name_eqb (constructor_name v) (Some "Array")
  || name_eqb (constructor_name v) (Some "Object") = is_container v.
Proof. by destruct v. Qed.

Lemma strict_eq_true a b : strict_eq a b = true -> a = b.
Proof.
  destruct a, b; simpl; try done.
  - intros Hb. apply Bool.eqb_prop in Hb. by subst.
  - intros Hn. apply Z.eqb_eq in Hn. by subst.
  - intros Hs. apply String.eqb_eq in Hs. by subst.
Qed.

Lemma strict_eq_refl v : is_container v = false -> strict_eq v v = true.
Proof.
  destruct v; simpl; try done; intros _.
  - apply Bool.eqb_reflx.
  - apply Z.eqb_refl.
  - apply String.eqb_refl.
Qed.

Lemma strict_eq_container a b : is_container a = true -> strict_eq a b = false.
Proof. by destruct a. Qed.

(** Equation of [isEqual] on two arrays and on two objects. *)
Lemma isEqual_arr f s :
  isEqual (JArr f) (JArr s) =
  Nat.eqb (length f) (length s) && isEqual_array isEqual f s.
Proof. simpl. by destruct (Nat.eqb (length f) (length s)). Qed.

Lemma isEqual_obj f s :
  isEqual (JObj f) (JObj s) =
  Nat.eqb (length (keys f)) (length (keys s)) && isEqual_object isEqual s f.
Proof. simpl. by destruct (Nat.eqb (length (keys f)) (length (keys s))). Qed.

Lemma isEqual_prim a b :
  is_container a = false -> isEqual a b = strict_eq a b.
Proof.
  intros Ha. destruct a; try done; destruct b; simpl; try done;
    by repeat case_match.
Qed.

Lemma isEqual_array_all (rel : JSValue -> JSValue -> bool) f s :
  Forall2 (fun x y => rel x y = true) f s -> isEqual_array rel f s = true.
Proof. induction 1 as [|x y f s Hxy _ IH]; simpl; [done|]. by rewrite Hxy. Qed.

(** One property whose two values have the same truthiness and are
    accepted by [rel] lets the loop go on. *)
Lemma isEqual_object_all (rel : JSValue -> JSValue -> bool) s f :
  Forall (fun kv =>
            truthy (snd kv) = truthy (obj_get s (fst kv)) /\
            (truthy (snd kv) = true ->
             if is_container (snd kv)
             then rel (snd kv) (obj_get s (fst kv)) = true
             else strict_eq (snd kv) (obj_get s (fst kv)) = true)) f ->
  isEqual_object rel s f = true.
Proof.
  induction 1 as [|[k fv] f [Htr Hv] _ IH]; simpl in *; [done|].
  rewrite <- Htr. destruct (truthy fv); simpl.
  - specialize (Hv eq_refl). rewrite container_by_name.
    destruct (is_container fv) eqn:Hc.
    + rewrite strict_eq_container by done. by rewrite Hv.
    + by rewrite Hv.
  - exact IH.
Qed.

(** [isEqual] is reflexive; an aliased operand, on which [===] answers
    [true] at once, is therefore treated as the structural path treats
    it. *)
Lemma isEqual_refl v : wf_value v = true -> isEqual v v = true.
Proof.
  induction v as [| | | | |l IH|l IH] using JSValue_ind; intros Hwf;
    try (rewrite isEqual_prim by done; by apply strict_eq_refl).
  - rewrite isEqual_arr, Nat.eqb_refl. simpl.
    apply isEqual_array_all. apply wf_value_arr in Hwf.
    induction IH as [|x l Hx _ IHl]; constructor.
    + apply Hx. by inversion Hwf.
    + apply IHl. by inversion Hwf.
  - rewrite isEqual_obj, Nat.eqb_refl. simpl.
    apply wf_value_obj in Hwf as [Hd Hall].
    apply isEqual_object_all. rewrite List.Forall_forall.
    intros [k fv] Hin. simpl.
    assert (obj_get l k = fv) as ->.
    { unfold obj_get. by rewrite (obj_find_distinct l k fv). }
    split; [done|]. intros _.
    rewrite List.Forall_forall in IH, Hall.
    destruct (is_container fv) eqn:Hc.
    + apply (IH _ Hin). exact (Hall _ Hin).
    + by apply strict_eq_refl.
Qed.

Lemma deepEqual_prim a b :
  is_container a = false -> deepEqual a b = strict_eq a b.
Proof. intros Ha. by destruct a. Qed.

Lemma deepEqual_truthy a b : deepEqual a b = true -> truthy a = truthy b.
Proof.
  destruct a; try (rewrite deepEqual_prim by done; intros Hs;
                   by apply strict_eq_true in Hs; subst).
  - destruct b; simpl; done.
  - destruct b; simpl; done.
Qed.

Lemma deepEqual_container a b :
  deepEqual a b = true -> is_container a = is_container b.
Proof.
  destruct a; try (rewrite deepEqual_prim by done; intros Hs;
                   by apply strict_eq_true in Hs; subst);
    destruct b; simpl; done.
Qed.

Lemma same_key_set_length f s :
  distinct (keys f) = true -> distinct (keys s) = true ->
  same_key_set f s = true -> length (keys f) = length (keys s).
Proof.
  intros Hf Hs Hsame. apply distinct_NoDup in Hf, Hs.
  unfold same_key_set in Hsame.
  apply andb_true_iff in Hsame as [Hfs Hsf].
  rewrite forallb_forall in Hfs, Hsf.
  apply Permutation_length, NoDup_Permutation; [done|done|].
  intros k. rewrite !list_elem_of_In. split; intros Hin.
  - apply obj_has_In. by apply Hfs.
  - apply obj_has_In. by apply Hsf.
Qed.

Lemma deepEqual_elements_Forall2 (rel : JSValue -> JSValue -> bool) f :
  forall s, length f = length s -> deepEqual_elements rel f s = true ->
            Forall2 (fun x y => rel x y = true) f s.
Proof.
  induction f as [|x f IH]; intros [|y s] Hlen Hel; simpl in *;
    try discriminate; constructor.
  - by apply andb_true_iff in Hel as [Hxy _].
  - apply andb_true_iff in Hel as [_ Hel]. apply IH; [lia|done].
Qed.

Lemma deepEqual_values_Forall (rel : JSValue -> JSValue -> bool) s f :
  deepEqual_values rel s f = true ->
  Forall (fun kv => rel (snd kv) (obj_get s (fst kv)) = true) f.
Proof.
  induction f as [|[k fv] f IH]; simpl; [constructor|].
  intros Hv. apply andb_true_iff in Hv as [Hk Hv]. constructor; auto.
Qed.

(** Whenever the deep equality of the specification holds, [isEqual]
    answers [true]. *)
Lemma deepEqual_isEqual a :
  forall b, wf_value a = true -> wf_value b = true ->
            deepEqual a b = true -> isEqual a b = true.
Proof.
  induction a as [| |x|x|x|l IH|l IH] using JSValue_ind; intros b Ha Hb Hde;
    try (rewrite isEqual_prim by done; by rewrite <- deepEqual_prim).
  - destruct b as [| | | | |s|]; try done.
    simpl in Hde. apply andb_true_iff in Hde as [Hlen Hel].
    rewrite isEqual_arr, Hlen. simpl. apply isEqual_array_all.
    apply wf_value_arr in Ha, Hb. apply Nat.eqb_eq in Hlen.
    apply deepEqual_elements_Forall2 in Hel; [|done].
    clear Hlen. induction Hel as [|x y l s Hxy Hel IHl]; constructor.
    + inversion IH; inversion Ha; inversion Hb; subst. auto.
    + inversion IH; inversion Ha; inversion Hb; subst. auto.
  - destruct b as [| | | | | |s]; try done.
    simpl in Hde. apply andb_true_iff in Hde as [Hkeys Hval].
    apply wf_value_obj in Ha as [Hdl Hwl], Hb as [Hds Hws].
    rewrite isEqual_obj, (same_key_set_length l s) by done.
    rewrite Nat.eqb_refl. simpl. apply isEqual_object_all.
    apply deepEqual_values_Forall in Hval.
    rewrite List.Forall_forall in *. intros [k fv] Hin. simpl.
    specialize (Hval _ Hin). simpl in Hval. split.
    + by apply deepEqual_truthy.
    + intros _. destruct (is_container fv) eqn:Hc.
      * apply (IH _ Hin); [exact (Hwl _ Hin)| |done].
        apply wf_obj_get. by apply List.Forall_forall.
      * by rewrite <- deepEqual_prim.
Qed.

Lemma isEqual_array_elements (rel rel' : JSValue -> JSValue -> bool) f :
  forall s,
    Forall (fun y => wf_value y = true) s ->
    Forall (fun x => forall y, wf_value y = true -> rel x y = rel' x y) f ->
    isEqual_array rel f s = deepEqual_elements rel' f s.
Proof.
  induction f as [|x f IH]; intros [|y s] Hs Hrel; simpl; try done.
  inversion Hrel as [|? ? Hx Hf]; inversion Hs as [|? ? Hy Hs']; subst.
  rewrite (Hx y Hy).
  destruct (rel' x y); simpl; [by apply IH|done].
Qed.

Lemma isEqual_object_values (rel rel' : JSValue -> JSValue -> bool) s f :
  Forall (fun kv => wf_value (snd kv) = true) s ->
  Forall (fun kv =>
            truthy (snd kv) = true /\
            (forall y, wf_value y = true ->
                       rel (snd kv) y = rel' (snd kv) y) /\
            (forall y, rel' (snd kv) y = true -> truthy y = true) /\
            (is_container (snd kv) = false ->
             forall y, rel' (snd kv) y = strict_eq (snd kv) y)) f ->
  isEqual_object rel s f = deepEqual_values rel' s f.
Proof.
  intros Hs.
  induction 1 as [|[k fv] f (Htruthy & Hrel & Hsame & Hprim) _ IH];
    simpl in *; [done|].
  rewrite Htruthy. simpl. rewrite container_by_name.
  destruct (truthy (obj_get s k)) eqn:Hsv; simpl.
  - destruct (is_container fv) eqn:Hc.
    + rewrite strict_eq_container by done.
      rewrite (Hrel _ (wf_obj_get s k Hs)).
      by destruct (rel' fv (obj_get s k)).
    + rewrite (Hprim eq_refl).
      by destruct (strict_eq fv (obj_get s k)).
  - destruct (rel' fv (obj_get s k)) eqn:Hde; [|done].
    apply Hsame in Hde. congruence.
Qed.

Lemma deepEqual_values_keys (rel : JSValue -> JSValue -> bool) s f :
  Forall (fun kv => forall y, rel (snd kv) y = true -> truthy y = true) f ->
  deepEqual_values rel s f = true ->
  forall k, In k (keys f) -> In k (keys s).
Proof.
  induction 1 as [|[k fv] f Hfv _ IH]; simpl; [done|].
  intros Hvalues. apply andb_true_iff in Hvalues as [Hk Hvalues].
  intros k' [<-|Hin]; [|by apply IH].
  apply Hfv in Hk. apply obj_has_In. unfold obj_has, obj_get in *.
  by destruct (obj_find s k).
Qed.

Lemma same_key_set_by_length f s :
  distinct (keys f) = true -> distinct (keys s) = true ->
  (forall k, In k (keys f) -> In k (keys s)) ->
  Nat.eqb (length (keys f)) (length (keys s)) = same_key_set f s.
Proof.
  intros Hf Hs Hsub. apply eq_true_iff_eq. split.
  - intros Hlen. apply Nat.eqb_eq in Hlen.
    apply distinct_NoDup in Hf, Hs.
    assert (keys f ≡ₚ keys s) as Hperm.
    { apply submseteq_length_Permutation; [|lia].
      apply NoDup_submseteq; [done|].
      intros k. rewrite !list_elem_of_In. apply Hsub. }
    unfold same_key_set. apply andb_true_iff.
    split; apply forallb_forall; intros k Hin; apply obj_has_In.
    + by apply Hsub.
    + apply list_elem_of_In. rewrite Hperm. by apply list_elem_of_In.
  - intros Hsame. apply Nat.eqb_eq. by apply same_key_set_length.
Qed.

(** On values whose objects hold no falsy property, [isEqual] is the deep
    equality of the specification: the two part only where a property of
    the first operand is falsy. *)
Lemma isEqual_deepEqual a :
  forall b, wf_value a = true -> wf_value b = true ->
            no_falsy_property a = true ->
            isEqual a b = deepEqual a b.
Proof.
  induction a as [| |x|x|x|l IH|l IH] using JSValue_ind; intros b Ha Hb Hnf;
    try (rewrite isEqual_prim by done; by rewrite deepEqual_prim).
  - destruct b as [| | | | |s|]; try done.
    rewrite isEqual_arr. simpl deepEqual. f_equal.
    apply wf_value_arr in Ha, Hb. simpl in Hnf.
    rewrite forallb_forall in Hnf.
    apply isEqual_array_elements; [done|].
    rewrite List.Forall_forall in *.
    intros x Hx y Hy. apply (IH x Hx); auto.
  - destruct b as [| | | | | |s]; try done.
    rewrite isEqual_obj. simpl deepEqual.
    apply wf_value_obj in Ha as [Hdl Hwl], Hb as [Hds Hws].
    simpl in Hnf. rewrite forallb_forall in Hnf.
    assert (Forall (fun kv : string * JSValue =>
                      truthy (snd kv) = true /\
                      (forall y, wf_value y = true ->
                                 isEqual (snd kv) y = deepEqual (snd kv) y) /\
                      (forall y, deepEqual (snd kv) y = true ->
                                 truthy y = true) /\
                      (is_container (snd kv) = false ->
                       forall y, deepEqual (snd kv) y = strict_eq (snd kv) y))
                   l) as Hentries.
    { rewrite List.Forall_forall in *. intros [k fv] Hin. simpl.
      specialize (Hnf _ Hin). simpl in Hnf.
      apply andb_true_iff in Hnf as [Htruthy Hnf].
      split; [done|]. split; [|split].
      - intros y Hy. apply (IH _ Hin); [exact (Hwl _ Hin)|done|done].
      - intros y Hde. apply deepEqual_truthy in Hde. congruence.
      - intros Hc y. by apply deepEqual_prim. }
    rewrite (isEqual_object_values isEqual deepEqual s l Hws Hentries).
    destruct (deepEqual_values deepEqual s l) eqn:Hvalues;
      [|by rewrite !andb_false_r].
    rewrite !andb_true_r. apply same_key_set_by_length; [done|done|].
    apply (deepEqual_values_keys deepEqual s l); [|done].
    eapply Forall_impl; [exact Hentries|]. by intros kv (_ & _ & ? & _).
Qed.

End IsEqualFacts.

(** ** The settings diff *)

Section OverridesFacts.

Lemma set_add_In set item k :
  In k (set_add set item) <-> In k set \/ k = item.
Proof.
  unfold set_add. destruct (existsb (String.eqb item) set) eqn:Hex.
  - apply existsb_eqb_In in Hex. split; [tauto|]. intros [? | ->]; done.
  - rewrite in_app_iff. simpl. intuition congruence.
Qed.

Lemma fold_set_add_In array : forall set k,
  In k (fold_left set_add array set) <-> In k set \/ In k array.
Proof.
  induction array as [|x array IH]; intros set k; simpl; [tauto|].
  rewrite IH, set_add_In. intuition congruence.
Qed.

Lemma union_In a b k : In k (union [a; b]) <-> In k a \/ In k b.
Proof.
  unfold union. simpl. rewrite !fold_set_add_In. simpl. tauto.
Qed.

Lemma overrides_fold_find G R ks : forall result k,
  obj_find (fold_left (overrides_step G R) ks result) k =
  if existsb (String.eqb k) ks
     && negb (isEqual (obj_get G k) (obj_get R k))
  then Some (obj_get R k)
  else obj_find result k.
Proof.
  induction ks as [|x ks IH]; intros result k; simpl; [done|].
  rewrite IH. unfold overrides_step.
  destruct (String.eqb_spec k x) as [->|Hne]; simpl.
  - destruct (isEqual (obj_get G x) (obj_get R x)) eqn:Heq; simpl.
    + by rewrite andb_false_r.
    + rewrite obj_find_set_eq. by destruct (existsb _ ks).
  - destruct (existsb (String.eqb k) ks
              && negb (isEqual (obj_get G k) (obj_get R k))); [done|].
    destruct (negb (isEqual (obj_get G x) (obj_get R x))); [|done].
    apply obj_find_set_ne. congruence.
Qed.

(** Minimality of the diff with respect to [isEqual]: a key is in the
    result exactly when it belongs to either side and [isEqual] tells the
    two values apart, and it then carries the requested value ([undefined]
    for a key that the requested settings lack). *)
Lemma overrides_find G R k :
  obj_find (overrides G R) k =
  if (obj_has G k || obj_has R k)
     && negb (isEqual (obj_get G k) (obj_get R k))
  then Some (obj_get R k)
  else None.
Proof.
  unfold overrides.
  change (fun result key => _) with (overrides_step G R).
  rewrite overrides_fold_find. simpl.
  replace (existsb (String.eqb k) (union [keys G; keys R]))
    with (obj_has G k || obj_has R k); [done|].
  apply eq_true_iff_eq.
  rewrite orb_true_iff, !obj_has_In, existsb_eqb_In, union_In. tauto.
Qed.

Lemma merge_fold_get (D : Props) : forall G k,
  distinct (keys D) = true ->
  obj_get (fold_left (fun result kv => obj_set result (fst kv) (snd kv)) D G) k
  = match obj_find D k with
    | Some v => v
    | None => obj_get G k
    end.
Proof.
  induction D as [|[k' v'] D IH]; intros G k Hd; simpl in *; [done|].
  apply andb_true_iff in Hd as [Hk Hd]. rewrite IH by done.
  destruct (String.eqb_spec k' k) as [->|Hne].
  - destruct (obj_find D k) eqn:Hf; [|apply obj_get_set_eq].
    apply obj_find_Some_In in Hf. apply negb_true_iff in Hk.
    apply not_true_iff_false in Hk. exfalso. apply Hk.
    apply existsb_eqb_In. change (In (fst (k, j)) (map fst D)).
    by apply in_map.
  - destruct (obj_find D k); [done|]. by apply obj_get_set_ne.
Qed.

Lemma obj_set_keys_In l k v x :
  In x (keys (obj_set l k v)) <-> In x (keys l) \/ x = k.
Proof.
  induction l as [|[k' v'] l IH]; simpl.
  - intuition congruence.
  - destruct (String.eqb_spec k' k) as [->|Hne]; simpl.
    + intuition congruence.
    + rewrite IH. intuition congruence.
Qed.

Lemma obj_set_distinct l k v :
  distinct (keys l) = true -> distinct (keys (obj_set l k v)) = true.
Proof.
  induction l as [|[k' v'] l IH]; simpl; [done|].
  rewrite andb_true_iff, negb_true_iff. intros [Hk Hd].
  destruct (String.eqb_spec k' k) as [->|Hne]; simpl.
  - by rewrite Hk, Hd.
  - rewrite IH by done. rewrite andb_true_r. apply negb_true_iff.
    apply not_true_iff_false. rewrite existsb_eqb_In, obj_set_keys_In.
    apply not_true_iff_false in Hk. rewrite existsb_eqb_In in Hk.
    intuition congruence.
Qed.

Lemma overrides_distinct G R : distinct (keys (overrides G R)) = true.
Proof.
  unfold overrides. generalize (union [keys G; keys R]).
  assert (distinct (keys ([] : Props)) = true) as Hnil by done.
  revert Hnil. generalize ([] : Props).
  intros result Hres ks. revert result Hres.
  induction ks as [|x ks IH]; intros result Hres; simpl; [done|].
  apply IH. destruct (negb _); [|done]. by apply obj_set_distinct.
Qed.

(** Layering the diff over the global settings gives, at every key, a value
    that [isEqual] accepts as the requested one. *)
Lemma merge_overrides_isEqual G R k :
  wf_value (JObj R) = true ->
  isEqual (obj_get (merge G (overrides G R)) k) (obj_get R k) = true.
Proof.
  intros HR. unfold merge.
  rewrite merge_fold_get by apply overrides_distinct.
  rewrite overrides_find.
  destruct (isEqual (obj_get G k) (obj_get R k)) eqn:Heq.
  - by rewrite andb_false_r.
  - rewrite andb_true_r.
    destruct (obj_has G k || obj_has R k) eqn:Hhas.
    + apply isEqual_refl. apply wf_obj_get. by apply wf_value_obj in HR as [_ ?].
    + apply orb_false_iff in Hhas as [HG HR'].
      unfold obj_has in HG, HR'. unfold obj_get in *.
      destruct (obj_find G k); [done|]. destruct (obj_find R k); done.
Qed.

(** Where no global setting holds an object with a falsy property, the
    diff is minimal with respect to the deep equality of the
    specification. *)
Lemma overrides_find_deepEqual G R k :
  wf_value (JObj G) = true -> wf_value (JObj R) = true ->
  Forall (fun kv => no_falsy_property (snd kv) = true) G ->
  obj_find (overrides G R) k =
  if (obj_has G k || obj_has R k)
     && negb (deepEqual (obj_get G k) (obj_get R k))
  then Some (obj_get R k)
  else None.
Proof.
  intros HG HR Hnf. rewrite overrides_find.
  apply wf_value_obj in HG as [_ HG], HR as [_ HR].
  rewrite (isEqual_deepEqual (obj_get G k) (obj_get R k));
    [done|by apply wf_obj_get|by apply wf_obj_get|].
  unfold obj_get. destruct (obj_find G k) eqn:Hf; [|done].
  apply obj_find_Some_In in Hf. rewrite List.Forall_forall in Hnf.
  exact (Hnf _ Hf).
Qed.

End OverridesFacts.

(** ** Claims on deep equality and on the settings diff *)

Section EqualityClaims.

(** C2.  [isEqual] is meant to be the deep equality of the specification,
    and it is so on primitives and on arrays, but its loop over the
    properties of an object tests the two values for truthiness before it
    compares them: two properties that are both falsy are taken as equal,
    and a property that is falsy on one side may be absent from the other.
    So [isEqual({a: 0}, {b: 0})] and [isEqual({a: 0}, {a: false})] answer
    [true], where the deep equality answers [false] (a key present on one
    side only; corresponding values that differ).  The array path and the
    top level tell the same values apart.  (Lemma [isEqual_deepEqual]: the
    two equalities agree wherever no object of the first operand holds a
    falsy property; lemma [deepEqual_isEqual]: the deep equality always
    implies [isEqual].) *)
Theorem isEqual_conflates_falsy_properties :
  isEqual (JObj [("a", JNum 0)]) (JObj [("b", JNum 0)]) = true /\
  deepEqual (JObj [("a", JNum 0)]) (JObj [("b", JNum 0)]) = false /\
  isEqual (JObj [("a", JNum 0)]) (JObj [("a", JBool false)]) = true /\
  deepEqual (JObj [("a", JNum 0)]) (JObj [("a", JBool false)]) = false /\
  isEqual (JArr [JNum 0]) (JArr [JBool false]) = false /\
  isEqual (JNum 0) (JBool false) = false.
Proof. repeat split; reflexivity. Qed.

(** C3.  The diff leaves out a key whose two values differ, and layering
    it over the global settings then keeps the global value, when the
    values differ only in properties that are falsy: with global settings
    [{stream_options: {include_usage: false}}] and requested settings
    [{stream_options: {include_obfuscation: false}}] the diff is empty, and
    [serialize] records the bare model name.  (Lemmas [overrides_find] and
    [merge_overrides_isEqual] give what holds in general: the diff is
    minimal, and reproduces the requested settings, up to [isEqual]; by
    [overrides_find_deepEqual] it is minimal for the deep equality itself
    where no global setting holds an object with a falsy property.) *)
Theorem overrides_misses_falsy_difference :
  let G := [("stream_options", JObj [("include_usage", JBool false)])] in
  let R := [("stream_options", JObj [("include_obfuscation", JBool false)])] in
  deepEqual (obj_get G "stream_options") (obj_get R "stream_options") = false /\
  extractOverrideSettings (JObj G) (JObj R) = [] /\
  OpenAIChat.serializeModelMetadata (JStr "gpt-4") (JObj G) R = JStr "gpt-4" /\
  obj_get (merge G (extractOverrideSettings (JObj G) (JObj R))) "stream_options"
    = JObj [("include_usage", JBool false)] /\
  obj_get R "stream_options" = JObj [("include_obfuscation", JBool false)].
Proof. repeat split; reflexivity. Qed.

End EqualityClaims.

(** ** The stream reducer *)

Section ReduceFacts.

Lemma max_of_In {A} (f : A -> nat) l x : In x l -> (f x <= max_of f l)%nat.
Proof.
  induction l as [|y l IH]; simpl; [done|].
  intros [->|Hin]; [lia|]. specialize (IH Hin). lia.
Qed.

Lemma props_depth_cons k v (l : Props) :
  props_depth ((k, v) :: l) = Nat.max (depth v) (props_depth l).
Proof. reflexivity. Qed.

Lemma depth_obj_get (l : Props) k : (depth (obj_get l k) <= props_depth l)%nat.
Proof.
  unfold obj_get. destruct (obj_find l k) eqn:Hf; [|simpl; lia].
  apply obj_find_Some_In in Hf.
  exact (max_of_In (fun kv => depth (snd kv)) l (k, j) Hf).
Qed.

Lemma props_depth_obj_set (l : Props) k v :
  (props_depth (obj_set l k v) <= Nat.max (props_depth l) (depth v))%nat.
Proof.
  induction l as [|[k' v'] l IH]; cbn [obj_set].
  - rewrite props_depth_cons. unfold props_depth. simpl. lia.
  - destruct (String.eqb_spec k' k) as [->|Hne];
      rewrite !props_depth_cons; lia.
Qed.

Lemma props_depth_array_entries l : forall i,
  props_depth (array_entries_from i l) = max_of depth l.
Proof.
  induction l as [|x l IH]; intros i; [done|].
  cbn [array_entries_from]. rewrite props_depth_cons, IH. reflexivity.
Qed.

Lemma props_depth_string_entries s : forall i,
  props_depth (string_entries_from i s) = 0%nat.
Proof.
  induction s as [|c s IH]; intros i; [done|].
  cbn [string_entries_from]. rewrite props_depth_cons, IH. reflexivity.
Qed.

(** The properties of a value lie one level below it. *)
Lemma props_depth_spread v : (props_depth (spread v) <= Nat.pred (depth v))%nat.
Proof.
  destruct v; cbn [spread depth];
    rewrite ?props_depth_string_entries, ?props_depth_array_entries;
    unfold props_depth; simpl; lia.
Qed.

Lemma reduce_entry_mono rec rec' acc key value o :
  extends rec rec' ->
  reduce_entry rec acc key value = Some o ->
  reduce_entry rec' acc key value = Some o.
Proof.
  intros Hext. unfold reduce_entry.
  destruct (strict_eq _ JUndefined || strict_eq _ JNull); [done|].
  destruct (obj_get acc key) eqn:Hfield; try done;
    try (destruct value; try done);
    simpl; try (destruct (rec _ _) as [o'|] eqn:Hrec; [|done];
         rewrite (Hext _ _ _ Hrec); done).
Qed.

Lemma reduce_entries_mono rec rec' entries : forall acc o,
  extends rec rec' ->
  reduce_entries rec acc entries = Some o ->
  reduce_entries rec' acc entries = Some o.
Proof.
  induction entries as [|[key value] entries IH]; intros acc o Hext; simpl;
    [done|].
  destruct (reduce_entry rec acc key value) as [o'|] eqn:Hentry; [|done].
  rewrite (reduce_entry_mono _ _ _ _ _ _ Hext Hentry).
  destruct o'; [by apply IH|done].
Qed.

Lemma reduce_body_mono rec rec' acc delta o :
  extends rec rec' ->
  reduce_body rec acc delta = Some o ->
  reduce_body rec' acc delta = Some o.
Proof.
  intros Hext. unfold reduce_body.
  destruct (Object_entries delta) as [entries|e]; [|done].
  destruct (reduce_entries rec (spread acc) entries) as [o'|] eqn:Hentries;
    [|done].
  by rewrite (reduce_entries_mono _ _ _ _ _ Hext Hentries).
Qed.

Lemma reduce_fuel_S n : extends (reduce_fuel n) (reduce_fuel (S n)).
Proof.
  induction n as [|n IH]; intros a d o; [done|].
  intros Hn. change (reduce_body (reduce_fuel (S n)) a d = Some o).
  by apply (reduce_body_mono (reduce_fuel n)).
Qed.

Lemma reduce_fuel_le n m : (n <= m)%nat -> extends (reduce_fuel n) (reduce_fuel m).
Proof.
  induction 1 as [|m _ IH]; intros a d o Hn; [done|].
  apply reduce_fuel_S. by apply IH.
Qed.

Lemma reduce_entry_answers rec n acc key value :
  answers_below rec n ->
  (Nat.max (props_depth acc) (depth value) <= n)%nat ->
  exists o, reduce_entry rec acc key value = Some o /\
    forall r, o = Ret r ->
      (props_depth r <= Nat.max (props_depth acc) (depth value))%nat.
Proof.
  intros Hrec Hn. unfold reduce_entry.
  pose proof (depth_obj_get acc key) as Hfield.
  pose proof (props_depth_obj_set acc key value) as Hset.
  assert (forall s, props_depth (obj_set acc key (JStr s))
                    <= Nat.max (props_depth acc) (depth value))%nat as Hstr.
  { intros s. pose proof (props_depth_obj_set acc key (JStr s)). simpl in *. lia. }
  assert (exists o, Some (Ret acc) = Some o /\
            forall r, o = Ret r ->
              (props_depth r <= Nat.max (props_depth acc) (depth value))%nat)
    as Hkeep.
  { eexists. split; [reflexivity|]. intros r [= <-]. lia. }
  assert (forall v, (props_depth (obj_set acc key v)
                     <= Nat.max (props_depth acc) (depth value))%nat ->
            exists o, Some (Ret (obj_set acc key v)) = Some o /\
            forall r, o = Ret r ->
              (props_depth r <= Nat.max (props_depth acc) (depth value))%nat)
    as Hput.
  { intros v Hv. eexists. split; [reflexivity|]. by intros r [= <-]. }
  destruct (obj_get acc key) as [| | | |a|l|o] eqn:Hget; simpl;
    try (by apply Hput); try exact Hkeep.
  - destruct value; simpl; try exact Hkeep. apply Hput, Hstr.
  - pose proof (props_depth_spread value) as Hvalue.
    simpl in Hfield. fold (props_depth o) in Hfield.
    destruct (Hrec (JObj o) value) as (o' & Hrec' & Hshape).
    { simpl. lia. }
    rewrite Hrec'. destruct o' as [merged|e].
    + destruct (Hshape merged eq_refl) as (r' & -> & Hr').
      apply Hput. simpl in Hr'.
      pose proof (props_depth_obj_set acc key (JObj r')) as Hm.
      simpl in Hm. fold (props_depth r') in Hm. lia.
    + eexists. split; [reflexivity|]. intros r Hr. discriminate Hr.
Qed.

Lemma reduce_entries_answers rec n entries : forall acc,
  answers_below rec n ->
  (Nat.max (props_depth acc) (props_depth entries) <= n)%nat ->
  exists o, reduce_entries rec acc entries = Some o /\
    forall r, o = Ret r ->
      (props_depth r <= Nat.max (props_depth acc) (props_depth entries))%nat.
Proof.
  induction entries as [|[key value] entries IH]; intros acc Hrec Hn.
  - eexists. split; [reflexivity|]. intros r [= <-]. lia.
  - rewrite props_depth_cons in *. cbn [reduce_entries].
    destruct (reduce_entry_answers rec n acc key value Hrec)
      as (o & Hentry & Hshape); [lia|].
    rewrite Hentry. destruct o as [acc'|e].
    + specialize (Hshape acc' eq_refl).
      destruct (IH acc' Hrec) as (o & Hrest & Hshape'); [lia|].
      exists o. split; [done|]. intros r Hr.
      specialize (Hshape' r Hr). lia.
    + eexists. split; [reflexivity|]. intros r Hr. discriminate Hr.
Qed.

(** Fuel beyond the depth of the arguments is enough. *)
Lemma reduce_fuel_answers n : answers_below (reduce_fuel n) n.
Proof.
  induction n as [|n IH]; intros a d Hn; [lia|].
  cbn [reduce_fuel]. unfold reduce_body.
  assert (Object_entries d = Throw TypeError \/
          Object_entries d = Ret (spread d)) as [-> | ->]
    by (destruct d; auto).
  { eexists. split; [reflexivity|]. intros r Hr. discriminate Hr. }
  destruct (reduce_entries_answers (reduce_fuel n) n (spread d) (spread a) IH)
    as (o & Hentries & Hshape); [lia|].
  rewrite Hentries. destruct o as [acc'|e].
  - eexists. split; [reflexivity|]. intros r [= <-].
    exists acc'. split; [reflexivity|]. exact (Hshape acc' eq_refl).
  - eexists. split; [reflexivity|]. intros r Hr. discriminate Hr.
Qed.

Lemma reduce_fuel_enough acc delta n :
  (reduce_bound acc delta <= n)%nat ->
  reduce_fuel n acc delta = Some (reduce acc delta).
Proof.
  intros Hn.
  destruct (reduce_fuel_answers (reduce_bound acc delta) acc delta)
    as (o & Ho & _); [unfold reduce_bound; lia|].
  unfold reduce. rewrite Ho.
  exact (reduce_fuel_le _ _ Hn _ _ _ Ho).
Qed.

Lemma reduce_unfold acc delta :
  reduce_body reduce_rec acc delta = Some (reduce acc delta).
Proof.
  pose proof (reduce_fuel_enough acc delta (reduce_bound acc delta)
                (Nat.le_refl _)) as Hfuel.
  unfold reduce_bound in Hfuel at 1. cbn [reduce_fuel] in Hfuel.
  revert Hfuel. apply reduce_body_mono.
  intros a d o Ho. unfold reduce_rec. f_equal.
  set (m := Nat.max (props_depth (spread acc)) (props_depth (spread delta)))
    in Ho.
  pose proof (reduce_fuel_enough a d (Nat.max (reduce_bound a d) m)
                (Nat.le_max_l _ _)) as Ha.
  pose proof (reduce_fuel_le _ _ (Nat.le_max_r (reduce_bound a d) m) _ _ _ Ho)
    as Hb.
  congruence.
Qed.

(** The result of [reduce] is an object, and [reduce] throws no error
    other than the [TypeError] of [Object.entries]. *)
Lemma reduce_returns_object acc delta r :
  reduce acc delta = Ret r -> exists r', r = JObj r'.
Proof.
  intros Hr.
  destruct (reduce_fuel_answers (reduce_bound acc delta) acc delta)
    as (o & Ho & Hshape); [unfold reduce_bound; lia|].
  unfold reduce in Hr. rewrite Ho in Hr. subst o.
  destruct (Hshape r eq_refl) as (r' & -> & _). by exists r'.
Qed.

End ReduceFacts.

(** ** Field by field: what [reduce] does to one property *)

Section FieldRules.

Lemma nullish_strict v :
  strict_eq v JUndefined || strict_eq v JNull = nullish v.
Proof. by destruct v. Qed.

Lemma obj_set_same (acc : Props) key :
  obj_has acc key = true -> obj_set acc key (obj_get acc key) = acc.
Proof.
  unfold obj_has, obj_get.
  induction acc as [|[k v] acc IH]; simpl; [done|].
  destruct (String.eqb_spec k key) as [->|Hne]; [done|].
  intros Hhas. by rewrite IH.
Qed.

Lemma reduce_entry_field acc key value :
  match merge_field (obj_get acc key) value with
  | Throw e => reduce_entry reduce_rec acc key value = Some (Throw e)
  | Ret x =>
      exists acc',
        reduce_entry reduce_rec acc key value = Some (Ret acc') /\
        obj_get acc' key = x /\
        forall k, k <> key -> obj_get acc' k = obj_get acc k
  end.
Proof.
  unfold merge_field, reduce_entry. rewrite nullish_strict.
  assert (forall v, exists acc',
            Some (Ret (obj_set acc key v)) = Some (Ret acc') /\
            obj_get acc' key = v /\
            forall k, k <> key -> obj_get acc' k = obj_get acc k) as Hput.
  { intros v. eexists. split; [reflexivity|]. split.
    - apply obj_get_set_eq.
    - intros k Hk. apply obj_get_set_ne. congruence. }
  assert (exists acc',
            Some (Ret acc) = Some (Ret acc') /\
            obj_get acc' key = obj_get acc key /\
            forall k, k <> key -> obj_get acc' k = obj_get acc k) as Hkeep.
  { by exists acc. }
  destruct (obj_get acc key) as [| | | |a|l|o] eqn:Hget; simpl;
    try apply Hput; try exact Hkeep.
  - destruct value; simpl; try exact Hkeep. apply Hput.
  - unfold reduce_rec. destruct (reduce (JObj o) value); [apply Hput|done].
Qed.

Lemma reduce_entries_returns entries : forall acc,
  distinct (keys entries) = true ->
  (forall key value, In (key, value) entries ->
     exists x, merge_field (obj_get acc key) value = Ret x) ->
  exists acc', reduce_entries reduce_rec acc entries = Some (Ret acc').
Proof.
  induction entries as [|[key value] entries IH]; intros acc Hd Hok;
    cbn [reduce_entries]; [by eexists|].
  simpl in Hd. apply andb_true_iff in Hd as [Hkey Hd].
  pose proof (reduce_entry_field acc key value) as Hentry.
  destruct (Hok key value (or_introl eq_refl)) as (x & Hx).
  rewrite Hx in Hentry. destruct Hentry as (acc1 & -> & _ & Hother).
  apply IH; [done|]. intros k v Hin.
  rewrite Hother; [apply Hok; by right|].
  intros ->. apply negb_true_iff, not_true_iff_false in Hkey. apply Hkey.
  apply existsb_eqb_In. change (In (fst (key, v)) (map fst entries)).
  by apply in_map.
Qed.

Lemma reduce_entries_fields entries : forall acc acc',
  distinct (keys entries) = true ->
  reduce_entries reduce_rec acc entries = Some (Ret acc') ->
  forall key,
    match obj_find entries key with
    | Some value =>
        merge_field (obj_get acc key) value = Ret (obj_get acc' key)
    | None => obj_get acc' key = obj_get acc key
    end.
Proof.
  induction entries as [|[k v] entries IH]; intros acc acc' Hd Hred key;
    cbn [reduce_entries] in Hred.
  - by injection Hred as ->.
  - simpl in Hd. apply andb_true_iff in Hd as [Hk Hd].
    pose proof (reduce_entry_field acc k v) as Hentry.
    destruct (merge_field (obj_get acc k) v) as [x|e] eqn:Hfield.
    + destruct Hentry as (acc1 & Hentry & Hx & Hother).
      rewrite Hentry in Hred. specialize (IH acc1 acc' Hd Hred).
      simpl. destruct (String.eqb_spec k key) as [->|Hne].
      * specialize (IH key).
        assert (obj_find entries key = None) as Hnone.
        { apply obj_find_None. intros Hin.
          apply negb_true_iff, not_true_iff_false in Hk. apply Hk.
          by apply existsb_eqb_In. }
        rewrite Hnone in IH. by rewrite IH, Hx.
      * specialize (IH key). by rewrite Hother in IH by congruence.
    + by rewrite Hentry in Hred.
Qed.

End FieldRules.

(** ** Which errors the reducer can raise *)

Section ReducerErrors.

Lemma reduce_entry_throws rec acc key value e :
  reduce_entry rec acc key value = Some (Throw e) ->
  exists field, rec field value = Some (Throw e).
Proof.
  unfold reduce_entry.
  destruct (obj_get acc key) as [| | | |a|l|o]; simpl; try done.
  - by destruct value.
  - destruct (rec (JObj o) value) as [[merged|e']|] eqn:Hrec; try done.
    intros [= ->]. by eexists.
Qed.

Lemma reduce_entries_throws rec entries : forall acc e,
  reduce_entries rec acc entries = Some (Throw e) ->
  exists field key value,
    In (key, value) entries /\ rec field value = Some (Throw e).
Proof.
  induction entries as [|[key value] entries IH]; intros acc e;
    cbn [reduce_entries]; [done|].
  destruct (reduce_entry rec acc key value) as [[acc'|e']|] eqn:Hentry;
    [|intros [= ->]|done].
  - intros Hrest. destruct (IH _ _ Hrest) as (f & k & v & Hin & Hrec).
    exists f, k, v. split; [by right|done].
  - destruct (reduce_entry_throws _ _ _ _ _ Hentry) as (f & Hrec).
    exists f, key, value. split; [by left|done].
Qed.

Lemma reduce_body_throws rec acc delta e :
  reduce_body rec acc delta = Some (Throw e) ->
  (nullish delta = true /\ e = TypeError) \/
  (nullish delta = false /\
   exists field key value,
     In (key, value) (spread delta) /\ rec field value = Some (Throw e)).
Proof.
  unfold reduce_body.
  assert ((nullish delta = true /\ Object_entries delta = Throw TypeError) \/
          (nullish delta = false /\ Object_entries delta = Ret (spread delta)))
    as [[Hnull ->]|[Hnull ->]] by (destruct delta; auto).
  - intros [= <-]. by left.
  - destruct (reduce_entries rec (spread acc) (spread delta))
      as [[acc'|e']|] eqn:Hentries; try done.
    intros [= ->]. right. split; [done|].
    exact (reduce_entries_throws _ _ _ _ Hentries).
Qed.

Lemma reduce_fuel_raises_TypeError_only n :
  raises_TypeError_only (reduce_fuel n).
Proof.
  induction n as [|n IH]; intros a d e; [done|].
  cbn [reduce_fuel]. intros Hthrow.
  apply reduce_body_throws in Hthrow
    as [[_ ->]|(_ & f & k & v & _ & Hrec)]; [done|].
  exact (IH _ _ _ Hrec).
Qed.

Lemma reduce_raises_TypeError_only acc delta e :
  reduce acc delta = Throw e -> e = TypeError.
Proof.
  intros Hthrow.
  apply (reduce_fuel_raises_TypeError_only (reduce_bound acc delta) acc delta).
  rewrite (reduce_fuel_enough acc delta _ (Nat.le_refl _)). by f_equal.
Qed.

Lemma defined_spread delta key value :
  defined_everywhere delta = true -> In (key, value) (spread delta) ->
  defined_everywhere value = true.
Proof.
  destruct delta as [| | | |s|l|l]; simpl; try done.
  - intros _. generalize 0%nat. induction s as [|c s IH]; intros i; [done|].
    simpl. intros [[= _ <-]|Hin]; [done|]. by apply (IH (S i)).
  - rewrite forallb_forall. generalize 0%nat.
    induction l as [|x l IH]; intros i Hall; [done|].
    simpl. intros [[= _ <-]|Hin]; [apply Hall; by left|].
    apply (IH (S i)); [|done]. intros y Hy. apply Hall. by right.
  - rewrite forallb_forall. intros Hall Hin. exact (Hall _ Hin).
Qed.

Lemma reduce_fuel_returns_on_defined n : returns_on_defined (reduce_fuel n).
Proof.
  induction n as [|n IH]; intros a d e Hdef; [done|].
  cbn [reduce_fuel]. intros Hthrow.
  apply reduce_body_throws in Hthrow
    as [[Hnull _]|(_ & f & k & v & Hin & Hrec)].
  - by destruct d.
  - apply (IH f v e); [|done]. exact (defined_spread _ _ _ Hdef Hin).
Qed.

Lemma reduce_returns_on_defined acc delta :
  defined_everywhere delta = true ->
  exists fields, reduce acc delta = Ret (JObj fields).
Proof.
  intros Hdef. destruct (reduce acc delta) as [r|e] eqn:Hred.
  - destruct (reduce_returns_object _ _ _ Hred) as (fields & ->).
    by exists fields.
  - exfalso.
    apply (reduce_fuel_returns_on_defined (reduce_bound acc delta)
             acc delta e Hdef).
    rewrite (reduce_fuel_enough acc delta _ (Nat.le_refl _)). by f_equal.
Qed.

Lemma reduce_choices_raises_TypeError_only choices : forall messages e,
  reduce_choices messages choices = Throw e -> e = TypeError.
Proof.
  induction choices as [|choice choices IH]; intros messages e;
    cbn [reduce_choices]; [done|].
  destruct (reduce _ (delta choice)) as [updated|e'] eqn:Hred; simpl.
  - apply IH.
  - intros [= <-]. exact (reduce_raises_TypeError_only _ _ _ Hred).
Qed.

Lemma reduce_choices_returns choices : forall messages,
  Forall (fun choice => defined_everywhere (delta choice) = true) choices ->
  exists messages', reduce_choices messages choices = Ret messages'.
Proof.
  induction choices as [|choice choices IH]; intros messages Hdef;
    cbn [reduce_choices]; [by eexists|].
  inversion Hdef as [|? ? Hchoice Hrest]; subst.
  destruct (reduce_returns_on_defined
              (coalesce match messages !! index choice with
                        | Some m => m
                        | None => JUndefined
                        end (JArr [])) (delta choice) Hchoice)
    as (fields & ->).
  simpl. by apply IH.
Qed.

End ReducerErrors.

(** ** Claims on the stream reducer *)

Section ReducerClaims.

(** C1 (as amended).  For every accumulator [acc] and every delta mapping
    [delta], [reduce(acc, delta)] returns as soon as the recursive merges
    of its mapping-valued properties return, and its result is determined
    property by property: a property that the delta lacks keeps its value;
    a property that is unset ([undefined] or [null]) or missing in the
    accumulator adopts the incoming value; a property that is a string on
    both sides is the concatenation; a property that is a mapping in the
    accumulator is merged with the incoming value by the same rules; and
    in every other combination the accumulator's value is kept. *)
Theorem reduce_field_by_field (acc : JSValue) (delta : Props) :
  distinct (keys delta) = true ->
  ((forall key value o,
      In (key, value) delta -> obj_get (spread acc) key = JObj o ->
      exists merged, reduce (JObj o) value = Ret merged) ->
   exists fields, reduce acc (JObj delta) = Ret (JObj fields)) /\
  (forall fields,
     reduce acc (JObj delta) = Ret (JObj fields) ->
     forall key,
       let field := obj_get (spread acc) key in
       match obj_find delta key with
       | None => obj_get fields key = field
       | Some value =>
           (nullish field = true -> obj_get fields key = value) /\
           (forall a b, field = JStr a -> value = JStr b ->
                        obj_get fields key = JStr (a ++ b)) /\
           (forall o, field = JObj o ->
                      reduce field value = Ret (obj_get fields key)) /\
           (nullish field = false ->
            is_string field && is_string value = false ->
            (forall o, field <> JObj o) ->
            obj_get fields key = field)
       end).
Proof.
  intros Hd. pose proof (reduce_unfold acc (JObj delta)) as Hunfold.
  unfold reduce_body in Hunfold. simpl Object_entries in Hunfold.
  cbn [spread] in Hunfold. split.
  - intros Hrec.
    destruct (reduce_entries_returns delta (spread acc) Hd) as (acc' & Hacc').
    { intros key value Hin. unfold merge_field.
      destruct (obj_get (spread acc) key) as [| | | |a|l|o] eqn:Hget; simpl;
        try by eexists.
      - destruct value; by eexists.
      - exact (Hrec key value o Hin Hget). }
    rewrite Hacc' in Hunfold. exists acc'. congruence.
  - intros fields Hret key field. rewrite Hret in Hunfold.
    destruct (reduce_entries reduce_rec (spread acc) delta)
      as [[acc'|e]|] eqn:Hentries; try done.
    injection Hunfold as ->.
    pose proof (reduce_entries_fields delta _ _ Hd Hentries key) as Hkey.
    destruct (obj_find delta key) as [value|]; [|done].
    fold field in Hkey. unfold merge_field in Hkey.
    repeat split.
    + intros Hnull. rewrite Hnull in Hkey. congruence.
    + intros a b Ha Hb. rewrite Ha, Hb in Hkey. simpl in Hkey. congruence.
    + intros o Ho. rewrite Ho in Hkey. simpl in Hkey. by rewrite Ho.
    + intros Hnull Hstr Hobj. rewrite Hnull in Hkey.
      destruct field as [| | | |a|l|o]; try congruence;
        try (destruct value; simpl in Hstr; congruence);
        try (by destruct (Hobj o)).
Qed.

Lemma reduce_field_by_field_witness :
  distinct (keys incoming_delta) = true /\
  exists fields,
    reduce partial_message (JObj incoming_delta) = Ret (JObj fields) /\
    obj_get fields "role" = JStr "assistant" /\
    obj_get fields "content" = JStr "Hello" /\
    reduce (JObj [("name", JStr "lookup")]) (JObj [("arguments", JStr "{")])
      = Ret (obj_get fields "function_call") /\
    obj_get fields "n" = JNum 1 /\
    obj_get fields "refusal" = JNull.
Proof.
  split; [reflexivity|].
  destruct (reduce_field_by_field partial_message incoming_delta eq_refl)
    as [Hreturns Hfields].
  destruct Hreturns as (fields & Hret).
  { intros key value o Hin Hget. simpl in Hin.
    destruct Hin as [Hin|[Hin|[Hin|[Hin|[]]]]]; injection Hin as <- <-;
      try discriminate Hget.
    injection Hget as <-. by eexists. }
  exists fields. split; [exact Hret|].
  pose proof (Hfields fields Hret) as Hkey.
  split; [exact (Hkey "role")|].
  split; [exact (proj1 (proj2 (Hkey "content")) "Hel" "lo" eq_refl eq_refl)|].
  split; [exact (proj1 (proj2 (proj2 (Hkey "function_call"))) _ eq_refl)|].
  split; [|exact (proj1 (Hkey "refusal") eq_refl)].
  apply (proj2 (proj2 (proj2 (Hkey "n")))); [reflexivity|reflexivity|].
  intros o Ho. discriminate Ho.
Defined.

(** C1, the claim as stated, fails on its last rule: a value of the
    accumulator that is neither unset, nor a string meeting a string, nor a
    mapping meeting a mapping, is not overwritten with the incoming value.
    [reduce({n: 1}, {n: 2})] is [{n: 1}]. *)
Lemma reduce_does_not_overwrite :
  ~ (forall (acc : JSValue) (delta fields : Props) (key : string)
            (value : JSValue),
       reduce acc (JObj delta) = Ret (JObj fields) ->
       obj_find delta key = Some value ->
       nullish (obj_get (spread acc) key) = false ->
       is_string (obj_get (spread acc) key) && is_string value = false ->
       is_mapping (obj_get (spread acc) key) && is_mapping value = false ->
       obj_get fields key = value).
Proof.
  intros Hclaim.
  specialize (Hclaim (JObj [("n", JNum 1)]) [("n", JNum 2)] [("n", JNum 1)]
                     "n" (JNum 2) eq_refl eq_refl eq_refl eq_refl eq_refl).
  discriminate Hclaim.
Qed.

(** C4.  For every accumulator that a previous fragment has initialised,
    and so for every non-empty one, the fold of a fragment raises the
    protocol error exactly when the number of choices of the fragment
    differs from the size of the accumulator; when the two agree the fold
    returns for every fragment whose deltas hold no [null] or [undefined].
    On the first fragment the accumulator is initialised empty and the
    protocol error cannot arise. *)
Theorem choice_count_invariant (messages : gmap Z JSValue)
    (chunk : ChatCompletionChunk) :
  messages <> ∅ ->
  (size messages <> length (choices chunk) ->
   multiChoiceMessageReducer (Some messages) chunk = Throw choice_count_error)
  /\
  (size messages = length (choices chunk) ->
   multiChoiceMessageReducer (Some messages) chunk <> Throw choice_count_error
   /\
   (Forall (fun choice => defined_everywhere (delta choice) = true)
           (choices chunk) ->
    exists messages',
      multiChoiceMessageReducer (Some messages) chunk = Ret messages'))
  /\
  multiChoiceMessageReducer None chunk = reduce_choices ∅ (choices chunk) /\
  multiChoiceMessageReducer None chunk <> Throw choice_count_error.
Proof.
  intros _. unfold multiChoiceMessageReducer.
  split; [|split; [|split]].
  - intros Hsize. apply Nat.eqb_neq in Hsize. by rewrite Hsize.
  - intros Hsize. rewrite Hsize, Nat.eqb_refl. simpl. split.
    + intros Hthrow.
      by apply reduce_choices_raises_TypeError_only in Hthrow.
    + by apply reduce_choices_returns.
  - reflexivity.
  - intros Hthrow.
    by apply reduce_choices_raises_TypeError_only in Hthrow.
Qed.

Lemma choice_count_invariant_witness :
  one_choice_so_far <> ∅ /\
  size one_choice_so_far = length (choices next_fragment) /\
  Forall (fun choice => defined_everywhere (delta choice) = true)
         (choices next_fragment) /\
  exists messages',
    multiChoiceMessageReducer (Some one_choice_so_far) next_fragment
    = Ret messages'.
Proof.
  assert (one_choice_so_far <> ∅) as Hne.
  { intros Hempty.
    assert (size one_choice_so_far = size (∅ : gmap Z JSValue)) as Hsize
      by (by rewrite Hempty).
    vm_compute in Hsize. discriminate Hsize. }
  assert (size one_choice_so_far = length (choices next_fragment)) as Hsize
    by (vm_compute; reflexivity).
  assert (Forall (fun choice => defined_everywhere (delta choice) = true)
                 (choices next_fragment)) as Hdef
    by (repeat constructor).
  repeat split; try assumption.
  exact (proj2 (proj1 (proj2 (choice_count_invariant one_choice_so_far
                                next_fragment Hne)) Hsize) Hdef).
Defined.

End ReducerClaims.

(** ** The chat history *)

Section HistoryFacts.
Context `{runtime : Runtime}.

Lemma walk_upto_target prompt aiConfig params prompts : forall messages,
  OpenAIChat.walk prompt aiConfig params prompts messages =
  add_all aiConfig params (upto_target (name prompt) prompts) messages.
Proof.
  induction prompts as [|p prompts IH]; intros messages; simpl; [done|].
  destruct (String.eqb (name p) (name prompt)); simpl.
  - by destruct (OpenAIChat.addPromptAsMessage p aiConfig messages params).
  - destruct (OpenAIChat.addPromptAsMessage p aiConfig messages params);
      simpl; [apply IH|done].
Qed.

Lemma upto_target_app target pre t post :
  name t = target ->
  Forall (fun q => name q <> target) pre ->
  upto_target target (pre ++ t :: post) = (pre ++ [t])%list.
Proof.
  intros Ht. induction 1 as [|q pre Hq _ IH]; simpl.
  - by rewrite Ht, String.eqb_refl.
  - destruct (String.eqb_spec (name q) target); [done|]. by rewrite IH.
Qed.

Lemma walk_stops_at_target prompt aiConfig params pre t post messages :
  name t = name prompt ->
  Forall (fun q => name q <> name prompt) pre ->
  OpenAIChat.walk prompt aiConfig params (pre ++ t :: post) messages =
  add_all aiConfig params (pre ++ [t]) messages.
Proof.
  intros Ht Hpre. by rewrite walk_upto_target, (upto_target_app _ pre t post).
Qed.

(** What one call of [addPromptAsMessage] appends: the turn of the prompt's
    input, and after it at most one turn, of role [assistant], taken from
    the latest output of the same prompt. *)
Lemma addPromptAsMessage_appends prompt aiConfig messages params result :
  OpenAIChat.addPromptAsMessage prompt aiConfig messages params = Ret result ->
  exists template inputTurn outputTurns,
    OpenAIChat.getPromptTemplate prompt aiConfig = Ret template /\
    result = (messages ++ inputTurn :: outputTurns)%list /\
    get inputTurn "content" =
      JStr (resolvePromptTemplate template prompt aiConfig params) /\
    (typeof (input prompt) = "string" -> get inputTurn "role" = JStr "user") /\
    (length outputTurns <= 1)%nat /\
    Forall (fun turn => get turn "role" = JStr "assistant") outputTurns /\
    (nullish (getLatestOutput aiConfig prompt) = true -> outputTurns = []).
Proof.
  unfold OpenAIChat.addPromptAsMessage.
  destruct (OpenAIChat.getPromptTemplate prompt aiConfig) as [template|e];
    [|done].
  cbn [bind]. unfold bind.
  destruct (String.eqb_spec (typeof (input prompt)) "string") as [Hstr|Hstr];
    repeat case_match; try discriminate; intros [= <-];
    eexists template, _, _;
    (split; [reflexivity|]);
    (split; [unfold push; rewrite <- ?app_assoc; reflexivity|]);
    (split; [reflexivity|]);
    (split; [first [reflexivity | done]|]);
    (split; [simpl; lia|]);
    (split;
     [ repeat constructor;
       first [ by apply strict_eq_true
             | unfold OpenAIChat.member_if; by repeat case_match ]
     | first [ done
             | intros Hnull;
               match goal with
               | Hout : negb (nullish _) = true |- _ =>
                   by rewrite Hnull in Hout
               end ] ]).
Qed.

(** The assistant turn that [addPromptAsMessage] takes from the latest
    output of the prompt: one turn of role [assistant] with the text of the
    output when the output is a recorded result marked as an assistant's,
    the data itself when it is an assistant message, and no turn
    otherwise. *)
Lemma addPromptAsMessage_turns prompt aiConfig messages params result :
  OpenAIChat.addPromptAsMessage prompt aiConfig messages params = Ret result ->
  let output := getLatestOutput aiConfig prompt in
  let data := get output "data" in
  exists template inputTurn outputTurns,
    OpenAIChat.getPromptTemplate prompt aiConfig = Ret template /\
    result = (messages ++ inputTurn :: outputTurns)%list /\
    get inputTurn "content" =
      JStr (resolvePromptTemplate template prompt aiConfig params) /\
    (typeof (input prompt) = "string" -> get inputTurn "role" = JStr "user") /\
    (recorded_result output && marked_assistant output = true ->
     exists turn,
       outputTurns = [turn] /\
       get turn "role" = JStr "assistant" /\
       get turn "content" = default JNull (recorded_text data)) /\
    (recorded_result output && negb (marked_assistant output)
     && assistant_message data = true ->
     outputTurns = [data]) /\
    (recorded_result output
     && (marked_assistant output || assistant_message data) = false ->
     outputTurns = []).
Proof.
  intros Hadd output data. revert Hadd.
  unfold OpenAIChat.addPromptAsMessage.
  destruct (OpenAIChat.getPromptTemplate prompt aiConfig) as [template|e];
    [|done].
  cbn [bind].
  match goal with
  | |- context [if String.eqb (typeof (input prompt)) "string"
                then push messages ?a else push messages ?b] =>
      set (inputTurn :=
             if String.eqb (typeof (input prompt)) "string" then a else b);
      replace (if String.eqb (typeof (input prompt)) "string"
               then push messages a else push messages b)
        with (messages ++ [inputTurn])%list
        by (subst inputTurn; by destruct (String.eqb _ "string"))
  end.
  assert (get inputTurn "content" =
          JStr (resolvePromptTemplate template prompt aiConfig params))
    as Hcontent by (subst inputTurn; by destruct (String.eqb _ "string")).
  assert (typeof (input prompt) = "string" -> get inputTurn "role" = JStr "user")
    as Hrole by (intros Hstring; subst inputTurn;
                 by rewrite Hstring, String.eqb_refl).
  clearbody inputTurn. fold output. fold data.
  change (truthy (coalesce (get (get output "metadata") "role")
                    (JBool (strict_eq
                              (get (get (get output "metadata") "raw_response")
                                   "role")
                              (JStr "assistant")))))
    with (marked_assistant output).
  unfold recorded_result, assistant_message.
  intros Hresult.
  assert (forall turns,
            result = (messages ++ inputTurn :: turns)%list ->
            (recorded_result output && marked_assistant output = true ->
             exists turn,
               turns = [turn] /\
               get turn "role" = JStr "assistant" /\
               get turn "content" = default JNull (recorded_text data)) ->
            (recorded_result output && negb (marked_assistant output)
             && assistant_message data = true -> turns = [data]) ->
            (recorded_result output
             && (marked_assistant output || assistant_message data) = false ->
             turns = []) ->
            exists template0 inputTurn0 outputTurns,
              Ret template = Ret template0 /\
              result = (messages ++ inputTurn0 :: outputTurns)%list /\
              get inputTurn0 "content" =
                JStr (resolvePromptTemplate template0 prompt aiConfig params) /\
              (typeof (input prompt) = "string" ->
               get inputTurn0 "role" = JStr "user") /\
              (recorded_result output && marked_assistant output = true ->
               exists turn,
                 outputTurns = [turn] /\
                 get turn "role" = JStr "assistant" /\
                 get turn "content" = default JNull (recorded_text data)) /\
              (recorded_result output && negb (marked_assistant output)
               && assistant_message data = true -> outputTurns = [data]) /\
              (recorded_result output
               && (marked_assistant output || assistant_message data) = false ->
               outputTurns = [])) as Hshape.
  { intros turns -> Hmarked Hmessage Hnone.
    by exists template, inputTurn, turns. }
  unfold recorded_result, assistant_message in Hshape.
  revert Hresult.
  destruct (nullish output); cbn [negb andb].
  { intros [= Hres]. apply (Hshape []); [by rewrite <- Hres|done..]. }
  destruct (strict_eq (get output "output_type") (JStr "execute_result"));
    cbn [andb].
  2: { intros [= Hres]. apply (Hshape []); [by rewrite <- Hres|done..]. }
  destruct (marked_assistant output); cbn [negb andb orb].
  - match goal with
    | |- bind ?extracted _ = _ -> _ =>
        destruct extracted as [[content functionCall]|e] eqn:Hextracted
    end; [|done].
    cbn [bind fst snd]. intros [= Hres].
    eapply Hshape;
      [rewrite <- Hres; unfold push; rewrite <- app_assoc; reflexivity
      | |done..].
    intros _. eexists. split; [reflexivity|]. split.
    + unfold OpenAIChat.member_if. by repeat case_match.
    + unfold recorded_text. fold data.
      assert (get (JObj (spread_members
                [[("content", content); ("role", JStr "assistant")];
                 OpenAIChat.member_if (negb (nullish functionCall))
                   "function_call" functionCall;
                 OpenAIChat.member_if
                   (negb (nullish
                      (coalesce (get (get output "metadata") "name")
                         (get (get (get output "metadata") "raw_response")
                              "name"))))
                   "name"
                   (coalesce (get (get output "metadata") "name")
                      (get (get (get output "metadata") "raw_response")
                           "name"))])) "content" = content) as ->
        by (unfold OpenAIChat.member_if; by repeat case_match).
      revert Hextracted.
      destruct (String.eqb (typeof data) "string"); [by intros [= <- _]|].
      destruct (hasOwnProperty data "value"); cbn [andb];
        [|by intros [= <- _]].
      destruct (String.eqb (typeof (get data "value")) "string");
        [by intros [= <- _]|].
      destruct (strict_eq (get data "kind") (JStr "tool_calls"));
        [|by intros [= <- _]].
      destruct (OpenAIChat.last_function (get data "value")); [|done].
      by intros [= <- _].
  - destruct (hasOwnProperty data "content" && hasOwnProperty data "role");
      cbn [andb].
    + destruct (strict_eq (get data "role") (JStr "assistant")).
      * intros [= Hres].
        apply (Hshape [data]);
          [rewrite <- Hres; unfold push; by rewrite <- app_assoc|done..].
      * intros [= Hres]. apply (Hshape []); [by rewrite <- Hres|done..].
    + intros [= Hres]. apply (Hshape []); [by rewrite <- Hres|done..].
Qed.

End HistoryFacts.

(** ** Claims on the chat parser *)

Section ChatClaims.
Context `{runtime : Runtime}.

(** C5.  The walk over the prompts of the document stops after the first
    prompt that bears the name of the target, which it processes: for a
    document [pre ++ t :: post] in which [t] is the first prompt named as
    the target, the walk is [addPromptAsMessage] over [pre ++ [t]], and
    [deserialize] gives what it gives on the document cut after [t].  No
    prompt of [post] is handed to [addPromptAsMessage], so no message of
    the history derives from a prompt declared after the target. *)
Theorem history_stops_at_target (target : Prompt) (aiConfig : AIConfigRuntime)
    (params : JSValue) (pre : list Prompt) (t : Prompt) (post : list Prompt) :
  prompts aiConfig = (pre ++ t :: post)%list ->
  name t = name target ->
  Forall (fun q => name q <> name target) pre ->
  (forall messages,
     OpenAIChat.walk target aiConfig params (prompts aiConfig) messages =
     add_all aiConfig params (pre ++ [t]) messages) /\
  OpenAIChat.deserialize target aiConfig params =
  OpenAIChat.deserialize_over (pre ++ [t]) target aiConfig params.
Proof.
  intros Hprompts Ht Hpre. split.
  - intros messages. rewrite Hprompts. by apply walk_stops_at_target.
  - unfold OpenAIChat.deserialize, OpenAIChat.deserialize_over, fire_and_forget.
    rewrite Hprompts.
    destruct (nullish (obj_get _ "messages")); [|reflexivity].
    destruct (OpenAIChat.systemMessages target aiConfig params _)
      as [system|e]; [|reflexivity].
    cbn [bind].
    destruct (negb (strict_eq _ (JBool false))); [|reflexivity].
    rewrite (walk_stops_at_target target aiConfig params pre t post) by done.
    by rewrite (walk_stops_at_target target aiConfig params pre t []) by done.
Qed.

(** C6 (as amended).  When the metadata of the target sets
    [remember_chat_context] to [false] and its settings hold no saved
    messages, the document's prompts are not consulted: the messages are
    the system message, if the settings have one, followed by the turns of
    the target alone.  These are the turn of its input (of role [user] for
    a text input) and the turn of its latest output: when that output is a
    recorded result marked as an assistant's ([marked_assistant]), exactly
    one turn of role [assistant] whose content is the text of the output
    ([null] when it has none); when its data is an assistant message, that
    message; and no turn otherwise.  A text input with no recorded output
    gives exactly the single user turn, and a text input with a recorded
    assistant text gives the user turn followed by the assistant turn that
    holds this text. *)
Theorem forgetful_history_is_target_only (target : Prompt)
    (aiConfig : AIConfigRuntime) (params : JSValue) :
  let modelMetadata := coalesce (getModelSettings target aiConfig) (JObj []) in
  let output := getLatestOutput aiConfig target in
  let data := get output "data" in
  let name :=
    coalesce (get (get output "metadata") "name")
             (get (get (get output "metadata") "raw_response") "name") in
  get (metadata target) "remember_chat_context" = JBool false ->
  nullish (get modelMetadata "messages") = true ->
  (forall documentPrompts,
     OpenAIChat.deserialize_over documentPrompts target aiConfig params =
     OpenAIChat.deserialize_over [] target aiConfig params) /\
  (forall completionParams,
     OpenAIChat.deserialize target aiConfig params = Ret completionParams ->
     exists system template inputTurn outputTurns,
       OpenAIChat.systemMessages target aiConfig params modelMetadata
         = Ret system /\
       OpenAIChat.getPromptTemplate target aiConfig = Ret template /\
       obj_get completionParams "messages" =
         JArr (system ++ inputTurn :: outputTurns) /\
       get inputTurn "content" =
         JStr (resolvePromptTemplate template target aiConfig params) /\
       (typeof (input target) = "string" ->
        get inputTurn "role" = JStr "user") /\
       (length outputTurns <= 1)%nat /\
       Forall (fun turn => get turn "role" = JStr "assistant") outputTurns /\
       (nullish output = true -> outputTurns = []) /\
       (recorded_result output && marked_assistant output = true ->
        exists turn,
          outputTurns = [turn] /\
          get turn "role" = JStr "assistant" /\
          get turn "content" = default JNull (recorded_text data)) /\
       (recorded_result output && negb (marked_assistant output)
        && assistant_message data = true ->
        outputTurns = [data]) /\
       (recorded_result output
        && (marked_assistant output || assistant_message data) = false ->
        outputTurns = [])) /\
  (forall system,
     OpenAIChat.systemMessages target aiConfig params modelMetadata
       = Ret system ->
     typeof (input target) = "string" ->
     nullish output = true ->
     exists completionParams,
       OpenAIChat.deserialize target aiConfig params = Ret completionParams /\
       obj_get completionParams "messages" =
         JArr (system ++
               [JObj [("content",
                       JStr (resolvePromptTemplate (input target) target
                                                   aiConfig params));
                      ("role", JStr "user")]])) /\
  (forall system text,
     OpenAIChat.systemMessages target aiConfig params modelMetadata
       = Ret system ->
     typeof (input target) = "string" ->
     recorded_result output && marked_assistant output = true ->
     data = JStr text ->
     nullish name = true ->
     exists completionParams,
       OpenAIChat.deserialize target aiConfig params = Ret completionParams /\
       obj_get completionParams "messages" =
         JArr (system ++
               [JObj [("content",
                       JStr (resolvePromptTemplate (input target) target
                                                   aiConfig params));
                      ("role", JStr "user")];
                JObj [("content", JStr text); ("role", JStr "assistant")]])).
Proof.
  intros modelMetadata output data name Hforget Hsaved.
  assert (forall documentPrompts,
            OpenAIChat.deserialize_over documentPrompts target aiConfig params =
            let? system :=
              OpenAIChat.systemMessages target aiConfig params modelMetadata in
            let? messages :=
              OpenAIChat.addPromptAsMessage target aiConfig system params in
            Ret (obj_set (OpenAIChat.refineChatCompletionParams modelMetadata)
                         "messages" (JArr messages))) as Heq.
  { intros documentPrompts.
    unfold OpenAIChat.deserialize_over, fire_and_forget.
    fold modelMetadata.
    change (obj_get (OpenAIChat.refineChatCompletionParams modelMetadata)
                    "messages") with (get modelMetadata "messages").
    rewrite Hsaved, Hforget. simpl strict_eq. cbn [negb].
    by destruct (OpenAIChat.systemMessages _ _ _ _). }
  split; [|split; [|split]].
  - intros documentPrompts. by rewrite !Heq.
  - intros completionParams. unfold OpenAIChat.deserialize. rewrite Heq.
    destruct (OpenAIChat.systemMessages _ _ _ _) as [system|e]; [|done].
    cbn [bind].
    destruct (OpenAIChat.addPromptAsMessage target aiConfig system params)
      as [messages|e] eqn:Hadd; [|done].
    cbn [bind]. intros [= <-].
    destruct (addPromptAsMessage_turns _ _ _ _ _ Hadd)
      as (template & inputTurn & outputTurns & Htemplate & -> & Hcontent
          & Hrole & Hmarked & Hmessage & Hnone).
    fold output in Hmarked, Hmessage, Hnone.
    fold data in Hmarked, Hmessage, Hnone.
    exists system, template, inputTurn, outputTurns.
    split; [done|]. split; [done|]. split; [reflexivity|].
    split; [done|]. split; [done|].
    assert ((length outputTurns <= 1)%nat /\
            Forall (fun turn => get turn "role" = JStr "assistant")
                   outputTurns) as [Hlength Hroles].
    { destruct (recorded_result output); cbn [andb] in *.
      - destruct (marked_assistant output); cbn [negb andb orb] in *.
        + destruct (Hmarked eq_refl) as (turn & -> & Hturn & _).
          split; [simpl; lia|by constructor].
        + destruct (assistant_message data) eqn:Hdata.
          * rewrite (Hmessage eq_refl). split; [simpl; lia|].
            constructor; [|done]. unfold assistant_message in Hdata.
            apply andb_true_iff in Hdata as [_ Hdata].
            by apply strict_eq_true.
          * rewrite (Hnone eq_refl). split; [simpl; lia|done].
      - rewrite (Hnone eq_refl). split; [simpl; lia|done]. }
    split; [done|]. split; [done|]. split; [|done].
    intros Hnull. apply Hnone. unfold recorded_result. by rewrite Hnull.
  - intros system Hsystem Hstring Hnull.
    unfold OpenAIChat.deserialize. rewrite Heq, Hsystem. cbn [bind].
    unfold OpenAIChat.addPromptAsMessage, OpenAIChat.getPromptTemplate.
    rewrite Hstring, String.eqb_refl. cbn [bind]. fold output.
    rewrite Hnull.
    cbn [negb bind]. eexists. split; [reflexivity|].
    apply obj_get_set_eq.
  - intros system text Hsystem Hstring Hrecorded Hdata Hname.
    apply andb_true_iff in Hrecorded as [Hrecorded Hmarked].
    apply andb_true_iff in Hrecorded as [Houtput Htype].
    unfold OpenAIChat.deserialize. rewrite Heq, Hsystem. cbn [bind].
    unfold OpenAIChat.addPromptAsMessage, OpenAIChat.getPromptTemplate.
    rewrite Hstring, String.eqb_refl. cbn [bind]. fold output. fold data.
    change (truthy (coalesce (get (get output "metadata") "role")
                      (JBool (strict_eq
                                (get (get (get output "metadata")
                                          "raw_response") "role")
                                (JStr "assistant")))))
      with (marked_assistant output).
    fold name.
    rewrite Houtput, Htype, Hmarked, Hdata, Hname.
    cbn. eexists. split; [reflexivity|].
    cbn. unfold push. by rewrite <- app_assoc.
Qed.

End ChatClaims.

Lemma history_stops_at_target_witness :
  prompts Samples.sample_config =
    ([Samples.first_prompt] ++
     Samples.second_prompt :: [Samples.third_prompt; Samples.forgetful_prompt])%list /\
  name Samples.second_prompt = name Samples.second_prompt /\
  Forall (fun q => name q <> name Samples.second_prompt) [Samples.first_prompt] /\
  (forall messages,
     OpenAIChat.walk (runtime := Samples.sample_runtime) Samples.second_prompt
       Samples.sample_config JUndefined (prompts Samples.sample_config) messages =
     add_all (runtime := Samples.sample_runtime) Samples.sample_config JUndefined
       ([Samples.first_prompt] ++ [Samples.second_prompt]) messages) /\
  OpenAIChat.deserialize (runtime := Samples.sample_runtime) Samples.second_prompt
    Samples.sample_config JUndefined =
  OpenAIChat.deserialize_over (runtime := Samples.sample_runtime)
    ([Samples.first_prompt] ++ [Samples.second_prompt])
    Samples.second_prompt Samples.sample_config JUndefined.
Proof.
  assert (Forall (fun q => name q <> name Samples.second_prompt)
                 [Samples.first_prompt]) as Hpre
    by (repeat constructor; discriminate).
  split; [reflexivity|]. split; [reflexivity|]. split; [exact Hpre|].
  exact (history_stops_at_target (runtime := Samples.sample_runtime)
           Samples.second_prompt Samples.sample_config JUndefined
           [Samples.first_prompt] Samples.second_prompt
           [Samples.third_prompt; Samples.forgetful_prompt]
           eq_refl eq_refl Hpre).
Defined.

Lemma forgetful_history_is_target_only_witness :
  get (metadata Samples.forgetful_prompt) "remember_chat_context" = JBool false /\
  nullish (get (coalesce (getModelSettings (Runtime := Samples.sample_runtime)
                            Samples.forgetful_prompt Samples.sample_config)
                         (JObj [])) "messages") = true /\
  (forall documentPrompts,
     OpenAIChat.deserialize_over (runtime := Samples.sample_runtime)
       documentPrompts Samples.forgetful_prompt Samples.sample_config JUndefined =
     OpenAIChat.deserialize_over (runtime := Samples.sample_runtime) []
       Samples.forgetful_prompt Samples.sample_config JUndefined) /\
  exists completionParams,
    OpenAIChat.deserialize (runtime := Samples.sample_runtime)
      Samples.forgetful_prompt Samples.sample_config JUndefined
      = Ret completionParams /\
    obj_get completionParams "messages" =
      JArr [JObj [("content", JStr "Hi"); ("role", JStr "user")];
            JObj [("content", JStr "Hello"); ("role", JStr "assistant")]].
Proof.
  split; [reflexivity|]. split; [reflexivity|].
  pose proof (forgetful_history_is_target_only
                (runtime := Samples.sample_runtime)
                Samples.forgetful_prompt Samples.sample_config JUndefined
                eq_refl eq_refl) as (Hskip & _ & _ & Hanswered).
  split; [exact Hskip|].
  exact (Hanswered [] "Hello" eq_refl eq_refl eq_refl eq_refl eq_refl).
Defined.

(** C6, the claim as stated, fails for a target that already has a recorded
    output: the history is the user turn followed by an assistant turn
    taken from that output. *)
Lemma forgetful_history_has_assistant_turn :
  ~ (forall (runtime : Runtime) (target : Prompt) (aiConfig : AIConfigRuntime)
            (params : JSValue) (completionParams : Props),
       get (metadata target) "remember_chat_context" = JBool false ->
       OpenAIChat.deserialize target aiConfig params = Ret completionParams ->
       exists turn,
         obj_get completionParams "messages" = JArr [turn] /\
         get turn "role" = JStr "user").
Proof.
  intros Hclaim.
  destruct (Hclaim Samples.sample_runtime Samples.forgetful_prompt
                   Samples.sample_config JUndefined _ eq_refl eq_refl)
    as (turn & Hmessages & _).
  discriminate Hmessages.
Qed.

Section SerializeClaims.
Context `{runtime : Runtime}.

Lemma find_system_returns messages :
  Forall (fun message => nullish message = false) messages ->
  exists systemPrompt, OpenAIChat.find_system messages = Ret systemPrompt.
Proof.
  induction 1 as [|message messages Hmessage _ IH]; simpl; [by eexists|].
  unfold get_strict. rewrite Hmessage. cbn [bind].
  destruct (strict_eq _ _); [by eexists|exact IH].
Qed.

Lemma serialize_messages_skips promptName modelMetadata params messages :
  forall prompts,
    Forall (fun message =>
              nullish message = false /\
              strict_eq (get message "role") (JStr "user") = false /\
              strict_eq (get message "role") (JStr "function") = false)
           messages ->
    OpenAIChat.serialize_messages promptName modelMetadata params messages
                                  prompts = Ret prompts.
Proof.
  intros prompts.
  induction 1 as [|message messages (Hmessage & Huser & Hfunction) _ IH];
    cbn [OpenAIChat.serialize_messages]; [done|].
  unfold get_strict. rewrite Hmessage. cbn [bind].
  by rewrite Huser, Hfunction.
Qed.

(** C10.  When no message of the request has the role [user] or
    [function], the loop of [serialize] leaves the list of prompts empty,
    and the renaming of its last element throws: [serialize] does not
    return. *)
Theorem serialize_without_user_message_throws (promptName : string)
    (data : Props) (aiConfig : AIConfigRuntime) (params : JSValue)
    (messages : list JSValue) :
  obj_get data "messages" = JArr messages ->
  Forall (fun message =>
            nullish message = false /\
            strict_eq (get message "role") (JStr "user") = false /\
            strict_eq (get message "role") (JStr "function") = false)
         messages ->
  (forall modelMetadata,
     OpenAIChat.serialize_messages promptName modelMetadata params messages []
     = Ret []) /\
  OpenAIChat.rename_last [] promptName = Throw TypeError /\
  OpenAIChat.serialize promptName data aiConfig params = Throw TypeError.
Proof.
  intros Hmessages Hroles. split; [|split].
  - intros modelMetadata. by apply serialize_messages_skips.
  - reflexivity.
  - unfold OpenAIChat.serialize, fire_and_forget. rewrite Hmessages.
    cbn [bind].
    destruct (find_system_returns messages) as (systemPrompt & ->).
    { eapply Forall_impl; [exact Hroles|]. by intros message (? & _). }
    cbn [bind]. by rewrite serialize_messages_skips.
Qed.

End SerializeClaims.

Lemma serialize_without_user_message_throws_witness :
  obj_get system_only_request "messages" =
    JArr [JObj [("role", JStr "system"); ("content", JStr "Be brief")];
          JObj [("role", JStr "assistant"); ("content", JStr "Hello")]] /\
  OpenAIChat.serialize (runtime := Samples.sample_runtime) "summary"
    system_only_request Samples.sample_config JUndefined = Throw TypeError.
Proof.
  split; [reflexivity|].
  refine (proj2 (proj2 (serialize_without_user_message_throws
                          (runtime := Samples.sample_runtime) "summary"
                          system_only_request Samples.sample_config JUndefined
                          _ eq_refl _))).
  repeat constructor.
Defined.

(** ** The notification hub *)

Section CallbackFacts.

Lemma withTimeout_late promise timeout :
  pending_at_timeout promise timeout = true ->
  withTimeout promise timeout =
  Settled (timeout * 1000) (Rejected (Error "Timeout")).
Proof.
  unfold withTimeout, Promise_race. destruct promise as [|t r]; [done|].
  simpl. intros Hlate. apply Nat.ltb_lt in Hlate.
  destruct (Nat.leb_spec t (timeout * 1000)); [lia|done].
Qed.

Lemma withTimeout_in_time promise timeout t r :
  promise = Settled t r -> (t <= timeout * 1000)%nat ->
  withTimeout promise timeout = Settled t r.
Proof.
  intros -> Ht. unfold withTimeout, Promise_race.
  by destruct (Nat.leb_spec t (timeout * 1000)); [|lia].
Qed.

Lemma withTimeout_settles promise timeout :
  settles_by (timeout * 1000) (withTimeout promise timeout).
Proof.
  destruct (pending_at_timeout promise timeout) eqn:Hlate.
  - rewrite withTimeout_late by done. by eexists _, _.
  - destruct promise as [|t r]; [done|]. simpl in Hlate.
    apply Nat.ltb_ge in Hlate.
    rewrite (withTimeout_in_time _ _ t r) by done. by eexists _, _.
Qed.

Lemma earliest_rejection_In {A} (tasks : list (Promise A)) t e :
  earliest_rejection tasks = Some (t, e) -> In (Settled t (Rejected e)) tasks.
Proof.
  revert t e. induction tasks as [|p tasks IH]; intros t e; simpl; [done|].
  destruct p as [|tp [a|ep]];
    try (intros Hrest; right; by apply IH).
  destruct (earliest_rejection tasks) as [[t' e']|].
  - destruct (tp <=? t')%nat; intros [= <- <-]; [by left|].
    right. by apply IH.
  - intros [= <- <-]. by left.
Qed.

Lemma earliest_rejection_None {A} (tasks : list (Promise A)) t e :
  In (Settled t (Rejected e)) tasks -> earliest_rejection tasks <> None.
Proof.
  induction tasks as [|p tasks IH]; simpl; [done|].
  intros [->|Hin].
  - destruct (earliest_rejection tasks) as [[t' e']|]; [|done].
    by destruct (t <=? t')%nat.
  - specialize (IH Hin).
    destruct p as [|tp [a|ep]]; try done.
    destruct (earliest_rejection tasks) as [[t' e']|]; [|done].
    by destruct (tp <=? t')%nat.
Qed.

Lemma all_fulfilled_settled {A} (tasks : list (Promise A)) deadline :
  Forall (settles_by deadline) tasks ->
  earliest_rejection tasks = None ->
  exists t l, all_fulfilled tasks = Some (t, l) /\ (t <= deadline)%nat.
Proof.
  induction 1 as [|p tasks (tp & r & -> & Htp) _ IH]; simpl.
  - intros _. exists 0%nat, []. split; [done|lia].
  - destruct r as [a|e].
    + intros Hnone. destruct (IH Hnone) as (t & l & -> & Ht).
      eexists _, _. split; [reflexivity|lia].
    + by destruct (earliest_rejection tasks) as [[t' e']|];
        [destruct (tp <=? t')%nat|].
Qed.

Lemma Promise_all_settles {A} (tasks : list (Promise A)) deadline :
  Forall (settles_by deadline) tasks ->
  settles_by deadline (Promise_all tasks).
Proof.
  intros Hall. unfold Promise_all.
  destruct (earliest_rejection tasks) as [[t e]|] eqn:Hrej.
  - exists t, (Rejected e). split; [done|].
    apply earliest_rejection_In in Hrej.
    rewrite List.Forall_forall in Hall.
    destruct (Hall _ Hrej) as (t' & r' & [= <- <-] & Ht). done.
  - destruct (all_fulfilled_settled tasks deadline Hall Hrej)
      as (t & l & -> & Ht).
    by exists t, (Fulfilled l).
Qed.

Lemma runCallbacks_settles this now event :
  settles_by (timeout this * 1000) (runCallbacks this now event).
Proof.
  unfold runCallbacks. fold (tasks_of this now event).
  destruct (Promise_all_settles (tasks_of this now event)
              (timeout this * 1000)) as (t & r & -> & Ht).
  { unfold tasks_of. rewrite List.Forall_forall. intros task Hin.
    apply in_map_iff in Hin as (callback & <- & _).
    apply withTimeout_settles. }
  destruct r as [l|e]; simpl.
  - eexists _, _. split; [reflexivity|lia].
  - by eexists _, _.
Qed.

Lemma runCallbacks_rejects this now event callback :
  In callback (callbacks this) ->
  pending_at_timeout (callback (eventWithTimeStamp now event)) (timeout this)
    = true ->
  exists t e,
    (t <= timeout this * 1000)%nat /\
    runCallbacks this now event = Settled t (Rejected e) /\
    In (Settled t (Rejected e)) (tasks_of this now event).
Proof.
  intros Hin Hlate. unfold runCallbacks. fold (tasks_of this now event).
  assert (In (Settled (timeout this * 1000) (Rejected (Error "Timeout")))
             (tasks_of this now event)) as Htask.
  { unfold tasks_of. apply in_map_iff. exists callback.
    split; [by apply withTimeout_late|done]. }
  unfold Promise_all.
  destruct (earliest_rejection (tasks_of this now event)) as [[t e]|] eqn:Hrej.
  - pose proof (earliest_rejection_In _ _ _ Hrej) as Hfirst.
    exists t, e. split; [|by split].
    unfold tasks_of in Hfirst. apply in_map_iff in Hfirst as (cb & Hcb & _).
    destruct (withTimeout_settles (cb (eventWithTimeStamp now event))
                (timeout this)) as (t' & r' & Heq & Ht).
    rewrite Heq in Hcb. by injection Hcb as -> ->.
  - by apply earliest_rejection_None in Htask.
Qed.

End CallbackFacts.

Section NotificationClaims.
Context `{runtime : Runtime} `{openai : OpenAIClient} `{hf : HfInference}.

(** C9.  A notification timeout is not recovered inside the hub.  In
    every notification dispatch, a listener that is still pending when its
    timeout elapses fails for that event: its task rejects with
    [Error("Timeout")] at the deadline, and the tasks of the listeners
    that settle in time are unaffected.  But the aggregate notification
    does not wait for the other listeners and does not fulfil: it rejects,
    no later than the deadline, and with the timeout error, at the
    deadline, when no listener rejects of its own.  The rejection of the
    [on_run_start] notification propagates to the caller of [run], which
    awaits it: [run] of the chat parser and of the text-generation parser
    rejects with the same error at the same time. *)
Theorem late_listener_rejects_the_notification (prompt : Prompt)
    (aiConfig : AIConfigRuntime) (options : option InferenceOptions)
    (params : JSValue) (event : CallbackEvent) (callback : Callback) :
  let manager := callbackManager aiConfig in
  let deadline := (timeout manager * 1000)%nat in
  let stamped := eventWithTimeStamp Date_now event in
  In callback (callbacks manager) ->
  pending_at_timeout (callback stamped) (timeout manager) = true ->
  withTimeout (callback stamped) (timeout manager)
    = Settled deadline (Rejected (Error "Timeout")) /\
  (forall other t r,
     other stamped = Settled t r -> (t <= deadline)%nat ->
     withTimeout (other stamped) (timeout manager) = Settled t r) /\
  (exists t e,
     (t <= deadline)%nat /\
     runCallbacks manager Date_now event = Settled t (Rejected e)) /\
  ((forall other t e,
      In other (callbacks manager) -> (t <= deadline)%nat ->
      other stamped <> Settled t (Rejected e)) ->
   runCallbacks manager Date_now event
     = Settled deadline (Rejected (Error "Timeout"))) /\
  (forall t e,
     runCallbacks manager Date_now [("name", JStr "on_run_start")]
       = Settled t (Rejected e) ->
     OpenAIChat.run prompt aiConfig options params = Settled t (Rejected e) /\
     HuggingFace.run prompt aiConfig options params = Settled t (Rejected e)).
Proof.
  intros manager deadline stamped Hin Hlate.
  split; [by apply withTimeout_late|].
  split; [intros other t r Hother Ht; by apply (withTimeout_in_time _ _ t r)|].
  destruct (runCallbacks_rejects manager Date_now event callback Hin Hlate)
    as (t & e & Ht & Hrun & Htask).
  split; [by exists t, e|].
  split.
  - intros Hown. rewrite Hrun.
    unfold tasks_of in Htask. apply in_map_iff in Htask as (cb & Hcb & Hcbin).
    fold stamped in Hcb.
    destruct (pending_at_timeout (cb stamped) (timeout manager)) eqn:Hcblate.
    + rewrite withTimeout_late in Hcb by done. by injection Hcb as <- <-.
    + destruct (cb stamped) as [|t' r'] eqn:Hsettled; [done|].
      simpl in Hcblate. apply Nat.ltb_ge in Hcblate.
      rewrite (withTimeout_in_time _ _ t' r') in Hcb by done.
      injection Hcb as -> ->.
      by destruct (Hown cb t e Hcbin Hcblate).
  - intros t' e' Hstart.
    unfold OpenAIChat.run, HuggingFace.run. fold manager.
    by rewrite Hstart.
Qed.

End NotificationClaims.

Lemma late_listener_rejects_the_notification_witness :
  In SampleProviders.stuck_listener
     (callbacks (callbackManager SampleProviders.watched_config)) /\
  pending_at_timeout
    (SampleProviders.stuck_listener
       (eventWithTimeStamp 0 [("name", JStr "on_run_start")]))
    (timeout (callbackManager SampleProviders.watched_config)) = true /\
  runCallbacks (callbackManager SampleProviders.watched_config) 0
               [("name", JStr "on_run_start")]
    = Settled 0 (Rejected (Error "Timeout")) /\
  OpenAIChat.run (runtime := Samples.sample_runtime)
    (openai := SampleProviders.hello_openai)
    Samples.second_prompt SampleProviders.watched_config None JUndefined
    = Settled 0 (Rejected (Error "Timeout")) /\
  HuggingFace.run (runtime := Samples.sample_runtime)
    (hf := SampleProviders.hello_hf)
    Samples.second_prompt SampleProviders.watched_config None JUndefined
    = Settled 0 (Rejected (Error "Timeout")).
Proof.
  assert (In SampleProviders.stuck_listener
             (callbacks (callbackManager SampleProviders.watched_config)))
    as Hin by (by left).
  split; [exact Hin|]. split; [reflexivity|].
  pose proof (late_listener_rejects_the_notification
                (runtime := Samples.sample_runtime)
                (openai := SampleProviders.hello_openai)
                (hf := SampleProviders.hello_hf)
                Samples.second_prompt SampleProviders.watched_config None
                JUndefined [("name", JStr "on_run_start")]
                SampleProviders.stuck_listener Hin eq_refl)
    as (_ & _ & _ & Hnotify & Hrun).
  assert (runCallbacks (callbackManager SampleProviders.watched_config) 0
                       [("name", JStr "on_run_start")]
          = Settled 0 (Rejected (Error "Timeout"))) as Hstart.
  { apply Hnotify. intros other t e [<-|[]] _. discriminate. }
  split; [exact Hstart|].
  exact (Hrun 0%nat (Error "Timeout") Hstart).
Defined.

(** For one listener that never settles, [run] of the chat parser rejects
    with the timeout error: it is not the case that a notification timeout
    never reaches the caller of [run]. *)
Lemma notification_timeout_rejects_run :
  ~ (forall (runtime : Runtime) (openai : OpenAIClient) (prompt : Prompt)
            (aiConfig : AIConfigRuntime) (options : option InferenceOptions)
            (params : JSValue) (t : nat),
       OpenAIChat.run prompt aiConfig options params
       <> Settled t (Rejected (Error "Timeout"))).
Proof.
  intros Hclaim.
  apply (Hclaim Samples.sample_runtime SampleProviders.hello_openai
                Samples.second_prompt SampleProviders.watched_config None
                JUndefined 0%nat).
  reflexivity.
Qed.

(** ** Claims on [run] *)

Section RunClaims.
Context `{runtime : Runtime} `{openai : OpenAIClient} `{hf : HfInference}.

Lemma runCallbacks_no_listener (aiConfig : AIConfigRuntime) now event :
  callbacks (callbackManager aiConfig) = [] ->
  exists manager,
    runCallbacks (callbackManager aiConfig) now event = resolved manager.
Proof. intros Hnone. unfold runCallbacks. rewrite Hnone. by eexists. Qed.

(** C7.  The streamed run of the text-generation parser calls
    [streamCallback] twice, with the accumulated values "Hel" and "Hello",
    but the output that it records holds the last fragment only: its text
    is "lo", not "Hello".  (The text-completion and the chat-completion
    parsers record the accumulated text: lemmas
    [text_stream_records_accumulated_text] and
    [chat_stream_records_accumulated_text].) *)
Theorem generation_stream_records_last_fragment (prompt : Prompt)
    (aiConfig : AIConfigRuntime) (options : InferenceOptions)
    (params : JSValue) :
  callbacks (callbackManager aiConfig) = [] ->
  opt_callbacks options = true ->
  textGenerationStream (HuggingFace.deserialize prompt aiConfig params)
    = resolved [SampleProviders.token "Hel"; SampleProviders.token "lo"] ->
  exists output,
    HuggingFace.run prompt aiConfig (Some options) params =
    resolved {| run_outputs := [output];
                run_prompt := with_outputs prompt [output];
                run_streamCalls := [(JStr "Hel", JStr "Hel", 0);
                                    (JStr "lo", JStr "Hello", 0)] |} /\
    HuggingFace.getOutputText aiConfig output None = JStr "lo".
Proof.
  intros Hnone Hcallbacks Hstream. unfold HuggingFace.run.
  destruct (runCallbacks_no_listener aiConfig Date_now
              [("name", JStr "on_run_start")] Hnone) as (m1 & ->).
  assert (truthy (HuggingFace.run_stream (Some options)) = true) as ->.
  { unfold HuggingFace.run_stream.
    by destruct (truthy (opt_stream options)) eqn:Ht. }
  rewrite Hstream.
  unfold HuggingFace.constructStreamOutput. simpl.
  rewrite Hcallbacks. simpl.
  match goal with
  | |- context [runCallbacks (callbackManager aiConfig) Date_now ?ev] =>
      destruct (runCallbacks_no_listener aiConfig Date_now ev Hnone)
        as (m2 & ->)
  end.
  eexists. split; reflexivity.
Qed.

Lemma text_stream_records_accumulated_text (prompt : Prompt)
    (aiConfig : AIConfigRuntime) (options : InferenceOptions)
    (params : JSValue) :
  truthy (OpenAIText.run_stream (Some options)
            (OpenAIText.deserialize prompt aiConfig params)) = true ->
  opt_callbacks options = true ->
  completions_stream (OpenAIText.deserialize prompt aiConfig params)
    = resolved [SampleProviders.text_chunk "Hel";
                SampleProviders.text_chunk "lo"] ->
  exists output,
    OpenAIText.run prompt aiConfig (Some options) params =
    resolved {| run_outputs := [output];
                run_prompt := with_outputs prompt [output];
                run_streamCalls := [(JStr "Hel", JStr "Hel", 0);
                                    (JStr "lo", JStr "Hello", 0)] |} /\
    OpenAIText.getOutputText aiConfig output None = JStr "Hello".
Proof.
  intros Hstream Hcallbacks Hprovider. unfold OpenAIText.run.
  rewrite Hstream, Hprovider. cbn [negb].
  unfold OpenAIText.stream_chunks. simpl. rewrite Hcallbacks.
  eexists. split; reflexivity.
Qed.

Lemma chat_stream_records_accumulated_text (prompt : Prompt)
    (aiConfig : AIConfigRuntime) (options : InferenceOptions)
    (params : JSValue) (completionParams : Props) :
  callbacks (callbackManager aiConfig) = [] ->
  OpenAIChat.deserialize prompt aiConfig params = Ret completionParams ->
  truthy (OpenAIChat.run_stream (Some options) completionParams) = true ->
  opt_callbacks options = true ->
  chat_completions_stream (obj_set completionParams "stream" (JBool true))
    = resolved [SampleProviders.chat_chunk "Hel";
                SampleProviders.chat_chunk "lo"] ->
  exists output,
    OpenAIChat.run prompt aiConfig (Some options) params =
    resolved {| run_outputs := [output];
                run_prompt := with_outputs prompt [output];
                run_streamCalls :=
                  [(JObj [("content", JStr "Hel")],
                    JObj [("content", JStr "Hel")], 0);
                   (JObj [("content", JStr "lo")],
                    JObj [("content", JStr "Hello")], 0)] |} /\
    OpenAIChat.getOutputText aiConfig output None = JStr "Hello".
Proof.
  intros Hnone Hparams Hstream Hcallbacks Hprovider. unfold OpenAIChat.run.
  destruct (runCallbacks_no_listener aiConfig Date_now
              [("name", JStr "on_run_start")] Hnone) as (m1 & ->).
  rewrite Hparams. simpl of_outcome. unfold resolved at 1 2. cbn [await delay].
  rewrite Hstream, Hprovider. cbn [negb].
  unfold resolved at 1. cbn [await delay].
  destruct options as [stream callbacks]. simpl in Hcallbacks. subst callbacks.
  match goal with
  | |- context [of_outcome ?streamed] =>
      let st := fresh "st" in
      set (st := streamed); vm_compute in st; subst st
  end.
  cbn [of_outcome]. unfold resolved at 1. cbn [await delay].
  cbn [OpenAIChat.st_outputs OpenAIChat.st_streamCalls Map_values map snd].
  match goal with
  | |- context [runCallbacks (callbackManager aiConfig) Date_now ?ev] =>
      destruct (runCallbacks_no_listener aiConfig Date_now ev Hnone)
        as (m2 & ->)
  end.
  eexists. split; reflexivity.
Qed.

End RunClaims.

Lemma generation_stream_records_last_fragment_witness :
  callbacks (callbackManager Samples.sample_config) = [] /\
  opt_callbacks SampleProviders.streaming_options = true /\
  textGenerationStream (HfInference := SampleProviders.hello_hf)
    (HuggingFace.deserialize (runtime := Samples.sample_runtime)
       Samples.second_prompt Samples.sample_config JUndefined)
    = resolved [SampleProviders.token "Hel"; SampleProviders.token "lo"] /\
  exists output,
    HuggingFace.run (runtime := Samples.sample_runtime)
      (hf := SampleProviders.hello_hf)
      Samples.second_prompt Samples.sample_config
      (Some SampleProviders.streaming_options) JUndefined =
    resolved {| run_outputs := [output];
                run_prompt := with_outputs Samples.second_prompt [output];
                run_streamCalls := [(JStr "Hel", JStr "Hel", 0);
                                    (JStr "lo", JStr "Hello", 0)] |} /\
    HuggingFace.getOutputText (runtime := Samples.sample_runtime)
      Samples.sample_config output None = JStr "lo".
Proof.
  split; [reflexivity|]. split; [reflexivity|]. split; [reflexivity|].
  exact (generation_stream_records_last_fragment
           (runtime := Samples.sample_runtime) (hf := SampleProviders.hello_hf)
           Samples.second_prompt Samples.sample_config
           SampleProviders.streaming_options JUndefined
           eq_refl eq_refl eq_refl).
Defined.

Section StreamDecision.
Context `{runtime : Runtime} `{openai : OpenAIClient} `{hf : HfInference}.

(** The chat-completion and the text-completion parsers decide as the
    specification says: the explicit option first, then the flag of the
    request, then streaming. *)
Lemma openai_stream_decision (options : option InferenceOptions)
    (completionParams : Props) :
  let explicit :=
    match options with
    | Some options => opt_stream options
    | None => JUndefined
    end in
  let flag := obj_get completionParams "stream" in
  OpenAIChat.run_stream options completionParams =
    OpenAIText.run_stream options completionParams /\
  (nullish explicit = false ->
   OpenAIChat.run_stream options completionParams = explicit) /\
  (nullish explicit = true -> nullish flag = false ->
   OpenAIChat.run_stream options completionParams = flag) /\
  (nullish explicit = true -> nullish flag = true ->
   OpenAIChat.run_stream options completionParams = JBool true).
Proof.
  intros explicit flag.
  unfold OpenAIChat.run_stream, OpenAIText.run_stream, coalesce.
  fold explicit. fold flag.
  destruct (nullish explicit) eqn:Hexplicit;
    destruct (nullish flag) eqn:Hflag;
    cbv iota; rewrite ?Hexplicit, ?Hflag; by repeat split.
Qed.

Lemma constructStreamOutput_loop_options (options options' : InferenceOptions)
    (response : list JSValue) :
  opt_callbacks options = opt_callbacks options' ->
  forall accumulatedMessage output calls,
    HuggingFace.constructStreamOutput_loop options response
      accumulatedMessage output calls =
    HuggingFace.constructStreamOutput_loop options' response
      accumulatedMessage output calls.
Proof.
  intros Hsame.
  induction response as [|iteration response IH];
    intros accumulatedMessage output calls; simpl; [done|].
  destruct (get_strict iteration "token") as [token|e]; [|done]. simpl.
  destruct (get_strict token "text") as [newText|e]; [|done]. simpl.
  rewrite Hsame. destruct (opt_callbacks options'); [apply IH|done].
Qed.

(** C8.  The text-generation parser does not honour an explicit
    [stream: false]: with options present it streams whatever the option
    says, and a run with [stream: false] is the run with [stream: true]. *)
Theorem generation_run_ignores_stream_false (prompt : Prompt)
    (aiConfig : AIConfigRuntime) (params : JSValue) (callbacks : bool) :
  HuggingFace.run_stream
    (Some {| opt_stream := JBool false; opt_callbacks := callbacks |})
    = JBool true /\
  HuggingFace.run prompt aiConfig
    (Some {| opt_stream := JBool false; opt_callbacks := callbacks |}) params
  = HuggingFace.run prompt aiConfig
      (Some {| opt_stream := JBool true; opt_callbacks := callbacks |}) params.
Proof.
  split; [reflexivity|].
  unfold HuggingFace.run, HuggingFace.run_stream. simpl.
  unfold HuggingFace.constructStreamOutput.
  destruct (runCallbacks _ _ _) as [|t [m|e]]; [done| |done].
  simpl. f_equal.
  destruct (textGenerationStream _) as [|t' [response|e]]; [done| |done].
  simpl. do 3 f_equal.
  by apply constructStreamOutput_loop_options.
Qed.

End StreamDecision.

(** * Further properties of the sources *)

(** ** [union], [omit], [deepClone] *)

Section UtilsProperties.

Lemma set_add_NoDup set item : NoDup set -> NoDup (set_add set item).
Proof.
  intros Hset. unfold set_add.
  destruct (existsb (String.eqb item) set) eqn:Hin; [done|].
  apply NoDup_app. split; [done|]. split; [|apply NoDup_singleton].
  intros x Hx Hitem. apply list_elem_of_singleton in Hitem as ->.
  apply not_true_iff_false in Hin. apply Hin, existsb_eqb_In.
  by apply list_elem_of_In.
Qed.

Lemma fold_set_add_NoDup array : forall set,
  NoDup set -> NoDup (fold_left set_add array set).
Proof.
  induction array as [|x array IH]; intros set Hset; simpl; [done|].
  by apply IH, set_add_NoDup.
Qed.

Lemma union_fold arrays : forall set,
  NoDup set ->
  NoDup (fold_left (fun set array => fold_left set_add array set) arrays set)
  /\ forall x,
       In x (fold_left (fun set array => fold_left set_add array set)
                       arrays set)
       <-> In x set \/ exists array, In array arrays /\ In x array.
Proof.
  induction arrays as [|array arrays IH]; intros set Hset; simpl.
  - split; [done|]. intros x. split; [by left|].
    by intros [?|(? & [] & _)].
  - destruct (IH (fold_left set_add array set)) as [Hnodup Hin];
      [by apply fold_set_add_NoDup|].
    split; [done|]. intros x. rewrite Hin, fold_set_add_In. split.
    + intros [[?|?]|(a & ? & ?)]; [by left| |].
      * right. exists array. by split; [left|].
      * right. exists a. by split; [right|].
    + intros [?|(a & [<-|?] & ?)]; [by left; left|by left; right|].
      right. by exists a.
Qed.

(** X1.  [union] returns every item of every array, each exactly once. *)
Theorem union_holds_each_item_once (arrays : list (list string)) :
  NoDup (union arrays) /\
  forall x,
    In x (union arrays) <-> exists array, In array arrays /\ In x array.
Proof.
  destruct (union_fold arrays []) as [Hnodup Hin]; [constructor|].
  split; [done|]. intros x. unfold union. rewrite Hin.
  split; [by intros [[]|?]|by right].
Qed.

Lemma obj_set_fresh (l : Props) k v :
  ~ In k (keys l) -> obj_set l k v = (l ++ [(k, v)])%list.
Proof.
  induction l as [|[k' v'] l IH]; simpl; [done|].
  intros Hfresh. destruct (String.eqb_spec k' k) as [->|Hne]; [tauto|].
  rewrite IH; [done|tauto].
Qed.

Lemma distinct_cons k (l : list string) :
  distinct (k :: l) = true <-> ~ In k l /\ distinct l = true.
Proof.
  simpl. rewrite andb_true_iff, negb_true_iff, <- not_true_iff_false.
  by rewrite existsb_eqb_In.
Qed.

(** The loop of [omit] over a part [l] of the keys of [obj]. *)
Lemma omit_fold obj keysToOmit (l : Props) : forall result,
  (forall k v, In (k, v) l -> obj_find obj k = Some v) ->
  distinct (keys l) = true ->
  (forall k, In k (keys l) -> ~ In k (keys result)) ->
  fold_left
    (fun result key =>
       if obj_has obj key && negb (existsb (String.eqb key) keysToOmit)
       then obj_set result key (obj_get obj key)
       else result)
    (keys l) result
  = (result ++
     List.filter
       (fun kv => negb (existsb (String.eqb (fst kv)) keysToOmit)) l)%list.
Proof.
  induction l as [|[k v] l IH]; intros result Hfind Hd Hfresh.
  - simpl. by rewrite app_nil_r.
  - apply distinct_cons in Hd as [Hk Hd]. cbn [keys map fst fold_left].
    assert (obj_find obj k = Some v) as Hkv by (apply Hfind; by left).
    assert (obj_has obj k = true) as Hhas by (unfold obj_has; by rewrite Hkv).
    assert (obj_get obj k = v) as Hget by (unfold obj_get; by rewrite Hkv).
    rewrite Hhas, Hget. cbn [andb]. fold (keys l).
    cbn [List.filter fst].
    destruct (existsb (String.eqb k) keysToOmit) eqn:Homit; cbn [negb].
    + apply IH; [|done|].
      * intros k' v' Hin. apply Hfind. by right.
      * intros k' Hin. apply Hfresh. by right.
    + rewrite obj_set_fresh by (apply Hfresh; by left).
      rewrite IH; [by rewrite <- app_assoc| |done|].
      * intros k' v' Hin. apply Hfind. by right.
      * intros k' Hin. unfold keys. rewrite map_app, in_app_iff. simpl.
        intros [Hres|[->|[]]]; [|done].
        revert Hres. apply Hfresh. by right.
Qed.

(** X2.  On an object, [omit] keeps the properties whose names are not to
    be omitted, in their order and with their values, and nothing else. *)
Theorem omit_keeps_the_other_properties (obj : Props)
    (keysToOmit : list string) :
  distinct (keys obj) = true ->
  omit obj keysToOmit =
  List.filter (fun kv => negb (existsb (String.eqb (fst kv)) keysToOmit)) obj.
Proof.
  intros Hd. unfold omit.
  rewrite (omit_fold obj keysToOmit obj []); [done| |done|by intros k _ []].
  intros k v Hin. by apply obj_find_distinct.
Qed.

Lemma omit_keeps_the_other_properties_witness :
  distinct (keys [("model", JStr "gpt-4"); ("messages", JArr []);
                  ("temperature", JNum 0)]) = true /\
  omit [("model", JStr "gpt-4"); ("messages", JArr []);
        ("temperature", JNum 0)] ["messages"] =
  [("model", JStr "gpt-4"); ("temperature", JNum 0)].
Proof.
  split; [reflexivity|].
  exact (omit_keeps_the_other_properties
           [("model", JStr "gpt-4"); ("messages", JArr []);
            ("temperature", JNum 0)] ["messages"] eq_refl).
Defined.

Lemma deepClone_props_app (props : Props) : forall result,
  Forall (fun kv => deepClone (snd kv) = snd kv) props ->
  distinct (keys props) = true ->
  (forall k, In k (keys props) -> ~ In k (keys result)) ->
  deepClone_props deepClone props result = (result ++ props)%list.
Proof.
  induction props as [|[k v] props IH]; intros result Hclone Hd Hfresh.
  - simpl. by rewrite app_nil_r.
  - apply distinct_cons in Hd as [Hk Hd].
    inversion Hclone as [|? ? Hv Hrest]; subst. simpl in Hv.
    cbn [deepClone_props]. rewrite Hv.
    rewrite obj_set_fresh by (apply Hfresh; by left).
    rewrite IH; [by rewrite <- app_assoc|done|done|].
    intros k' Hin. unfold keys. rewrite map_app, in_app_iff. simpl.
    intros [Hres|[->|[]]]; [|done].
    revert Hres. apply Hfresh. by right.
Qed.

(** X3.  [deepClone] rebuilds plain data as it is: the clone of a value is
    that value, property by property and element by element. *)
Theorem deepClone_rebuilds_the_value (obj : JSValue) :
  wf_value obj = true -> deepClone obj = obj.
Proof.
  induction obj as [| |x|x|x|l IH|l IH] using JSValue_ind; intros Hwf;
    try reflexivity.
  - cbn [deepClone]. f_equal. apply wf_value_arr in Hwf.
    induction IH as [|x l Hx _ IHl]; [done|].
    inversion Hwf; subst. simpl. by rewrite Hx, IHl.
  - cbn [deepClone]. f_equal. apply wf_value_obj in Hwf as [Hd Hwf].
    rewrite deepClone_props_app; [done| |done|by intros k _ []].
    rewrite List.Forall_forall in *. intros kv Hin. by apply IH, Hwf.
Qed.

Lemma deepClone_rebuilds_the_value_witness :
  wf_value partial_message = true /\ deepClone partial_message = partial_message.
Proof.
  split; [reflexivity|].
  exact (deepClone_rebuilds_the_value partial_message eq_refl).
Defined.

End UtilsProperties.

(** ** [isEqual] and [extractOverrideSettings] *)

Section EqualityProperties.

(** X4.  [isEqual] answers [true] on a value against itself (a copy of
    it), when no object in it holds an own property named
    [constructor]. *)
Theorem isEqual_accepts_a_value_against_itself (v : JSValue) :
  wf_value v = true -> no_own_constructor v = true -> isEqual v v = true.
Proof. intros Hwf _. by apply isEqual_refl. Qed.

Lemma isEqual_accepts_a_value_against_itself_witness :
  wf_value partial_message = true /\
  no_own_constructor partial_message = true /\
  isEqual partial_message partial_message = true.
Proof.
  split; [reflexivity|]. split; [reflexivity|].
  exact (isEqual_accepts_a_value_against_itself partial_message
           eq_refl eq_refl).
Defined.

Lemma keys_Permutation (f s : Props) : f ≡ₚ s -> keys f ≡ₚ keys s.
Proof. intros Hperm. unfold keys. by apply Permutation_map. Qed.

Lemma obj_find_Permutation (f s : Props) k :
  distinct (keys f) = true -> f ≡ₚ s -> obj_find s k = obj_find f k.
Proof.
  intros Hd Hperm.
  assert (distinct (keys s) = true) as Hds.
  { apply distinct_NoDup. rewrite <- (keys_Permutation f s Hperm).
    by apply distinct_NoDup. }
  destruct (obj_find f k) as [v|] eqn:Hf.
  - apply obj_find_Some_In in Hf. apply obj_find_distinct; [done|].
    apply list_elem_of_In. rewrite <- Hperm. by apply list_elem_of_In.
  - apply obj_find_None. apply obj_find_None in Hf. intros Hin. apply Hf.
    apply list_elem_of_In. rewrite (keys_Permutation f s Hperm).
    by apply list_elem_of_In.
Qed.

Lemma isEqual_against_same_lookups (f s : Props) :
  wf_value (JObj f) = true ->
  length (keys f) = length (keys s) ->
  (forall k, obj_get s k = obj_get f k) ->
  isEqual (JObj f) (JObj s) = true.
Proof.
  intros Hwf Hlen Hget. rewrite isEqual_obj, Hlen, Nat.eqb_refl. simpl.
  apply wf_value_obj in Hwf as [Hd Hall].
  apply isEqual_object_all. rewrite List.Forall_forall in *.
  intros [k fv] Hin. simpl.
  assert (obj_get s k = fv) as ->.
  { rewrite Hget. unfold obj_get. by rewrite (obj_find_distinct f k fv). }
  split; [done|]. intros _.
  destruct (is_container fv) eqn:Hc.
  - apply isEqual_refl. exact (Hall _ Hin).
  - by apply strict_eq_refl.
Qed.

(** X5.  [isEqual] does not depend on the order of the properties: an
    object and the same properties in another order are equal, when no
    object in it holds an own property named [constructor]. *)
Theorem isEqual_ignores_the_order_of_properties (f s : Props) :
  wf_value (JObj f) = true -> no_own_constructor (JObj f) = true ->
  f ≡ₚ s ->
  isEqual (JObj f) (JObj s) = true.
Proof.
  intros Hwf _ Hperm. apply isEqual_against_same_lookups; [done| |].
  - by rewrite (keys_Permutation f s Hperm).
  - intros k. unfold obj_get. rewrite (obj_find_Permutation f s k); [done| |done].
    by apply wf_value_obj in Hwf as [? _].
Qed.

Lemma isEqual_ignores_the_order_of_properties_witness :
  wf_value (JObj [("model", JStr "gpt-4"); ("temperature", JNum 0)]) = true /\
  no_own_constructor
    (JObj [("model", JStr "gpt-4"); ("temperature", JNum 0)]) = true /\
  [("model", JStr "gpt-4"); ("temperature", JNum 0)]
    ≡ₚ [("temperature", JNum 0); ("model", JStr "gpt-4")] /\
  isEqual (JObj [("model", JStr "gpt-4"); ("temperature", JNum 0)])
          (JObj [("temperature", JNum 0); ("model", JStr "gpt-4")]) = true.
Proof.
  assert ([("model", JStr "gpt-4"); ("temperature", JNum 0)]
            ≡ₚ [("temperature", JNum 0); ("model", JStr "gpt-4")]) as Hperm
    by apply perm_swap.
  split; [reflexivity|]. split; [reflexivity|]. split; [exact Hperm|].
  exact (isEqual_ignores_the_order_of_properties
           [("model", JStr "gpt-4"); ("temperature", JNum 0)]
           [("temperature", JNum 0); ("model", JStr "gpt-4")]
           eq_refl eq_refl Hperm).
Defined.

Lemma obj_get_other k k' v : k <> k' -> obj_get [(k, v)] k' = JUndefined.
Proof.
  intros Hne. unfold obj_get. simpl.
  by destruct (String.eqb_spec k k').
Qed.

(** X6.  [isEqual] is not symmetric: an object whose only property is
    falsy is equal to an object whose only property, of another name, is
    truthy, and not the other way round; the two names are not names of
    inherited members. *)
Theorem isEqual_is_not_symmetric (k k' : string) (w v : JSValue) :
  k <> k' -> inherited k = false -> inherited k' = false ->
  truthy w = false -> truthy v = true ->
  isEqual (JObj [(k, w)]) (JObj [(k', v)]) = true /\
  isEqual (JObj [(k', v)]) (JObj [(k, w)]) = false.
Proof.
  intros Hne _ _ Hw Hv. rewrite !isEqual_obj. simpl.
  rewrite (obj_get_other k' k) by congruence.
  rewrite (obj_get_other k k') by done.
  rewrite Hw, Hv. by simpl.
Qed.

Lemma isEqual_is_not_symmetric_witness :
  "stop" <> "n" /\ inherited "stop" = false /\ inherited "n" = false /\
  truthy JNull = false /\ truthy (JNum 2) = true /\
  isEqual (JObj [("stop", JNull)]) (JObj [("n", JNum 2)]) = true /\
  isEqual (JObj [("n", JNum 2)]) (JObj [("stop", JNull)]) = false.
Proof.
  assert ("stop" <> "n") as Hne by discriminate.
  split; [exact Hne|]. split; [reflexivity|]. split; [reflexivity|].
  split; [reflexivity|]. split; [reflexivity|].
  exact (isEqual_is_not_symmetric "stop" "n" JNull (JNum 2)
           Hne eq_refl eq_refl eq_refl eq_refl).
Defined.

(** X7.  The result of [extractOverrideSettings] holds a key exactly when
    it is a key of the global or of the requested settings on which
    [isEqual] answers [false], and holds the requested value for it
    ([undefined] when the requested settings lack the key); settings that
    are [null] or [undefined] count as empty. *)
Theorem extractOverrideSettings_holds_the_unequal_keys
    (globalSettings inferenceSettings : JSValue) (k : string) :
  let G := spread (coalesce globalSettings (JObj [])) in
  let R := spread (coalesce inferenceSettings (JObj [])) in
  obj_find (extractOverrideSettings globalSettings inferenceSettings) k =
  if (obj_has G k || obj_has R k)
     && negb (isEqual (obj_get G k) (obj_get R k))
  then Some (obj_get R k)
  else None.
Proof. intros G R. unfold extractOverrideSettings. apply overrides_find. Qed.

Lemma overrides_nothing_to_override G R :
  (forall k, isEqual (obj_get G k) (obj_get R k) = true) ->
  overrides G R = [].
Proof.
  intros Hequal. unfold overrides.
  generalize (union [keys G; keys R]). intros ks.
  induction ks as [|k ks IH]; simpl; [done|]. by rewrite Hequal.
Qed.

(** X8.  When the requested settings are the global settings, in whatever
    order of keys, and no object in them holds an own property named
    [constructor], [extractOverrideSettings] returns the empty object. *)
Theorem extractOverrideSettings_of_the_same_settings (G R : Props) :
  wf_value (JObj G) = true -> no_own_constructor (JObj G) = true ->
  G ≡ₚ R ->
  extractOverrideSettings (JObj G) (JObj R) = [].
Proof.
  intros Hwf _ Hperm. unfold extractOverrideSettings. simpl.
  apply overrides_nothing_to_override. intros k.
  apply wf_value_obj in Hwf as [Hd Hall].
  unfold obj_get at 2. rewrite (obj_find_Permutation G R k) by done.
  fold (obj_get G k). apply isEqual_refl. by apply wf_obj_get.
Qed.

Lemma extractOverrideSettings_of_the_same_settings_witness :
  wf_value (JObj [("model", JStr "gpt-4"); ("temperature", JNum 0)]) = true /\
  no_own_constructor
    (JObj [("model", JStr "gpt-4"); ("temperature", JNum 0)]) = true /\
  [("model", JStr "gpt-4"); ("temperature", JNum 0)]
    ≡ₚ [("temperature", JNum 0); ("model", JStr "gpt-4")] /\
  extractOverrideSettings
    (JObj [("model", JStr "gpt-4"); ("temperature", JNum 0)])
    (JObj [("temperature", JNum 0); ("model", JStr "gpt-4")]) = [].
Proof.
  assert ([("model", JStr "gpt-4"); ("temperature", JNum 0)]
            ≡ₚ [("temperature", JNum 0); ("model", JStr "gpt-4")]) as Hperm
    by apply perm_swap.
  split; [reflexivity|]. split; [reflexivity|]. split; [exact Hperm|].
  exact (extractOverrideSettings_of_the_same_settings
           [("model", JStr "gpt-4"); ("temperature", JNum 0)]
           [("temperature", JNum 0); ("model", JStr "gpt-4")]
           eq_refl eq_refl Hperm).
Defined.

End EqualityProperties.

(** ** The notification hub, further *)

Section CallbackProperties.

(** X9.  [runCallbacks] never stays pending: whatever the listeners do, it
    settles no later than the timeout. *)
Theorem runCallbacks_settles_by_the_timeout (this : CallbackManager)
    (now : Z) (event : CallbackEvent) :
  exists t r,
    runCallbacks this now event = Settled t r /\
    (t <= timeout this * 1000)%nat.
Proof. apply runCallbacks_settles. Qed.

Lemma earliest_rejection_fulfilled (outcomes : list (nat * JSValue)) :
  earliest_rejection
    (map (fun tv => Settled (fst tv) (Fulfilled (snd tv))) outcomes) = None.
Proof. induction outcomes as [|[t v] outcomes IH]; simpl; [done|exact IH]. Qed.

Lemma all_fulfilled_values (outcomes : list (nat * JSValue)) :
  all_fulfilled
    (map (fun tv => Settled (fst tv) (Fulfilled (snd tv))) outcomes)
  = Some (max_of fst outcomes, map snd outcomes).
Proof.
  induction outcomes as [|[t v] outcomes IH]; simpl; [done|].
  by rewrite IH.
Qed.

(** X10.  When every listener fulfils in time, [runCallbacks] fulfils when
    the last of them does, and [results] holds their values in the order of
    the listeners. *)
Theorem runCallbacks_collects_the_results (this : CallbackManager)
    (now : Z) (event : CallbackEvent) (outcomes : list (nat * JSValue)) :
  map (fun callback => callback (eventWithTimeStamp now event))
      (callbacks this)
    = map (fun tv => Settled (fst tv) (Fulfilled (snd tv))) outcomes ->
  Forall (fun tv => (fst tv <= timeout this * 1000)%nat) outcomes ->
  runCallbacks this now event =
  Settled (max_of fst outcomes)
          (Fulfilled {| callbacks := callbacks this;
                        results := map snd outcomes;
                        timeout := timeout this |}).
Proof.
  intros Hlisteners Hintime. unfold runCallbacks.
  assert (map (fun callback =>
                 withTimeout (callback (eventWithTimeStamp now event))
                             (timeout this)) (callbacks this)
          = map (fun tv => Settled (fst tv) (Fulfilled (snd tv))) outcomes)
    as ->.
  { rewrite <- (map_map (fun callback => callback _)
                        (fun p => withTimeout p (timeout this))).
    rewrite Hlisteners, map_map. apply map_ext_in.
    intros [t v] Hin. rewrite List.Forall_forall in Hintime.
    apply (withTimeout_in_time _ _ t (Fulfilled v)); [done|].
    exact (Hintime _ Hin). }
  unfold Promise_all.
  rewrite earliest_rejection_fulfilled, all_fulfilled_values.
  simpl. by rewrite Nat.add_0_r.
Qed.

Lemma runCallbacks_collects_the_results_witness :
  let this := new_CallbackManager [quick_listener; slow_listener] (Some 1%nat) in
  map (fun callback => callback (eventWithTimeStamp 0 [("name", JStr "e")]))
      (callbacks this)
    = map (fun tv => Settled (fst tv) (Fulfilled (snd tv)))
          [(3%nat, JStr "a"); (9%nat, JStr "b")] /\
  Forall (fun tv => (fst tv <= timeout this * 1000)%nat)
         [(3%nat, JStr "a"); (9%nat, JStr "b")] /\
  runCallbacks this 0 [("name", JStr "e")] =
  Settled 9 (Fulfilled {| callbacks := callbacks this;
                          results := [JStr "a"; JStr "b"];
                          timeout := 1 |}).
Proof.
  intros this.
  assert (Forall (fun tv : nat * JSValue => (fst tv <= timeout this * 1000)%nat)
                 [(3%nat, JStr "a"); (9%nat, JStr "b")]) as Hintime.
  { repeat constructor; simpl; lia. }
  split; [reflexivity|]. split; [exact Hintime|].
  exact (runCallbacks_collects_the_results this 0 [("name", JStr "e")]
           [(3%nat, JStr "a"); (9%nat, JStr "b")] eq_refl Hintime).
Defined.

(** X11.  A manager built without a timeout has the default of 0 seconds:
    a listener that is not settled at once makes [runCallbacks] reject at
    once. *)
Theorem default_timeout_rejects_a_listener_that_takes_time
    (listeners : list Callback) (now : Z) (event : CallbackEvent)
    (callback : Callback) :
  In callback listeners ->
  (forall r, callback (eventWithTimeStamp now event) <> Settled 0 r) ->
  exists e,
    runCallbacks (new_CallbackManager listeners None) now event
    = Settled 0 (Rejected e).
Proof.
  intros Hin Hslow.
  destruct (runCallbacks_rejects (new_CallbackManager listeners None)
              now event callback Hin) as (t & e & Ht & Hrun & _).
  - simpl. destruct (callback (eventWithTimeStamp now event)) as [|t r] eqn:Hp;
      [done|]. simpl. destruct t; [by destruct (Hslow r)|done].
  - simpl in Ht. exists e. rewrite Hrun. f_equal. lia.
Qed.

Lemma default_timeout_rejects_a_listener_that_takes_time_witness :
  In slow_listener [quick_listener; slow_listener] /\
  (forall r, slow_listener (eventWithTimeStamp 0 [("name", JStr "e")])
             <> Settled 0 r) /\
  exists e,
    runCallbacks (new_CallbackManager [quick_listener; slow_listener] None)
                 0 [("name", JStr "e")]
    = Settled 0 (Rejected e).
Proof.
  assert (In slow_listener [quick_listener; slow_listener]) as Hin
    by (right; by left).
  assert (forall r, slow_listener (eventWithTimeStamp 0 [("name", JStr "e")])
                    <> Settled 0 r) as Hslow by (intros r; discriminate).
  split; [exact Hin|]. split; [exact Hslow|].
  exact (default_timeout_rejects_a_listener_that_takes_time
           [quick_listener; slow_listener] 0 [("name", JStr "e")]
           slow_listener Hin Hslow).
Defined.

End CallbackProperties.

(** ** The stream reducer, further *)

Section ReducerProperties.

(** X12.  [reduce] returns an object or throws a [TypeError], nothing else;
    it throws only if the delta holds a [null] or an [undefined]. *)
Theorem reduce_returns_an_object_or_throws_TypeError (acc delta : JSValue) :
  match reduce acc delta with
  | Ret merged => exists fields, merged = JObj fields
  | Throw e => e = TypeError /\ defined_everywhere delta = false
  end.
Proof.
  destruct (reduce acc delta) as [merged|e] eqn:Hreduce.
  - exact (reduce_returns_object _ _ _ Hreduce).
  - split; [exact (reduce_raises_TypeError_only _ _ _ Hreduce)|].
    destruct (defined_everywhere delta) eqn:Hdefined; [|done].
    destruct (reduce_returns_on_defined acc delta Hdefined) as (fields & Hret).
    congruence.
Qed.

Lemma reduce_of_entries acc delta o :
  nullish delta = false ->
  reduce_entries reduce_rec (spread acc) (spread delta) = Some o ->
  reduce acc delta =
  match o with
  | Ret fields => Ret (JObj fields)
  | Throw e => Throw e
  end.
Proof.
  intros Hdelta Hentries.
  pose proof (reduce_unfold acc delta) as Hunfold.
  unfold reduce_body in Hunfold.
  assert (Object_entries delta = Ret (spread delta)) as Hspread
    by (by destruct delta).
  rewrite Hspread, Hentries in Hunfold. destruct o; congruence.
Qed.

Lemma reduce_entries_adopts entries : forall acc,
  distinct (keys entries) = true ->
  (forall k, In k (keys entries) -> ~ In k (keys acc)) ->
  reduce_entries reduce_rec acc entries = Some (Ret (acc ++ entries)%list).
Proof.
  induction entries as [|[key value] entries IH]; intros acc Hd Hfresh.
  - simpl. by rewrite app_nil_r.
  - apply distinct_cons in Hd as [Hkey Hd]. cbn [reduce_entries].
    assert (~ In key (keys acc)) as Hnew by (apply Hfresh; by left).
    unfold reduce_entry.
    assert (obj_get acc key = JUndefined) as ->.
    { unfold obj_get. apply obj_find_None in Hnew. by rewrite Hnew. }
    simpl. rewrite obj_set_fresh by done.
    rewrite IH; [by rewrite <- app_assoc|done|].
    intros k Hin. unfold keys. rewrite map_app, in_app_iff. simpl.
    intros [Hacc|[->|[]]]; [|done].
    revert Hacc. apply Hfresh. by right.
Qed.

(** X13.  Folded into the empty accumulator of a first fragment, a delta
    becomes the partial message as it is. *)
Theorem reduce_into_the_empty_accumulator (delta : Props) :
  distinct (keys delta) = true ->
  reduce (JArr []) (JObj delta) = Ret (JObj delta) /\
  reduce (JObj []) (JObj delta) = Ret (JObj delta).
Proof.
  intros Hd.
  pose proof (reduce_entries_adopts delta [] Hd
                (fun k _ (H : In k (keys [])) => H)) as Hentries.
  split.
  - by rewrite (reduce_of_entries (JArr []) (JObj delta) _ eq_refl Hentries).
  - by rewrite (reduce_of_entries (JObj []) (JObj delta) _ eq_refl Hentries).
Qed.

Lemma reduce_into_the_empty_accumulator_witness :
  distinct (keys incoming_delta) = true /\
  reduce (JArr []) (JObj incoming_delta) = Ret (JObj incoming_delta).
Proof.
  split; [reflexivity|].
  exact (proj1 (reduce_into_the_empty_accumulator incoming_delta eq_refl)).
Defined.

Lemma string_app_assoc (a b c : string) :
  ((a ++ b) ++ c = a ++ (b ++ c))%string.
Proof.
  induction a as [|ch a IH]; [reflexivity|].
  change (String ch ((a ++ b) ++ c) = String ch (a ++ (b ++ c)))%string.
  by rewrite IH.
Qed.

Lemma obj_set_twice (l : Props) k v v' :
  obj_set (obj_set l k v) k v' = obj_set l k v'.
Proof.
  induction l as [|[k0 v0] l IH]; simpl.
  - by rewrite String.eqb_refl.
  - destruct (String.eqb_spec k0 k) as [->|Hne]; simpl.
    + by rewrite String.eqb_refl.
    + destruct (String.eqb_spec k0 k); [done|]. by rewrite IH.
Qed.

Lemma reduce_text acc key text :
  let field := obj_get (spread acc) key in
  nullish field || is_string field = true ->
  reduce acc (JObj [(key, JStr text)]) =
  Ret (JObj (obj_set (spread acc) key (JStr (text_of field ++ text)))).
Proof.
  intros field Hfield.
  rewrite (reduce_of_entries acc (JObj [(key, JStr text)])
             (Ret (obj_set (spread acc) key (JStr (text_of field ++ text))))
             eq_refl); [done|].
  cbn [spread reduce_entries]. unfold reduce_entry. fold field.
  by destruct field.
Qed.

(** X14.  Folding two text fragments of a property one after the other
    gives what folding their concatenation gives, when the accumulator
    holds a text, or nothing, for that property. *)
Theorem reduce_text_fragments_compose (acc : JSValue) (key : string)
    (a b : string) :
  nullish (obj_get (spread acc) key) || is_string (obj_get (spread acc) key)
    = true ->
  (let? merged := reduce acc (JObj [(key, JStr a)]) in
   reduce merged (JObj [(key, JStr b)]))
  = reduce acc (JObj [(key, JStr (a ++ b))]).
Proof.
  intros Hfield. rewrite !reduce_text by done. cbn [bind].
  rewrite reduce_text; cbn [spread]; rewrite obj_get_set_eq; [|done].
  rewrite obj_set_twice. cbn [text_of]. by rewrite string_app_assoc.
Qed.

Lemma reduce_text_fragments_compose_witness :
  nullish (obj_get (spread partial_message) "content")
  || is_string (obj_get (spread partial_message) "content") = true /\
  (let? merged := reduce partial_message (JObj [("content", JStr "lo")]) in
   reduce merged (JObj [("content", JStr " there")]))
  = reduce partial_message (JObj [("content", JStr "lo there")]).
Proof.
  split; [reflexivity|].
  exact (reduce_text_fragments_compose partial_message "content"
           "lo" " there" eq_refl).
Defined.

Lemma reduce_choices_dom choices : forall messages messages',
  reduce_choices messages choices = Ret messages' ->
  dom messages' = dom messages ∪ list_to_set (map index choices).
Proof.
  induction choices as [|choice choices IH]; intros messages messages';
    cbn [reduce_choices].
  - intros [= <-]. simpl. by rewrite (right_id_L ∅ (∪)).
  - destruct (reduce _ (delta choice)) as [updated|e]; [|done]. cbn [bind].
    intros Hrest. rewrite (IH _ _ Hrest), dom_insert_L. simpl.
    by rewrite (comm_L (∪) {[index choice]} (dom messages)), (assoc_L (∪)).
Qed.

(** X15.  A fold that returns keeps every choice of the accumulator and
    holds a partial message for every choice of the fragment: its indices
    are those of the accumulator and those of the fragment. *)
Theorem multiChoiceMessageReducer_indices (messages : option (gmap Z JSValue))
    (chunk : ChatCompletionChunk) (messages' : gmap Z JSValue) :
  multiChoiceMessageReducer messages chunk = Ret messages' ->
  dom messages' =
  dom (default ∅ messages) ∪ list_to_set (map index (choices chunk)).
Proof.
  unfold multiChoiceMessageReducer. destruct messages as [messages|]; simpl.
  - destruct (negb _); [done|]. apply reduce_choices_dom.
  - apply reduce_choices_dom.
Qed.

Lemma multiChoiceMessageReducer_indices_witness :
  multiChoiceMessageReducer (Some one_choice_so_far) next_fragment
    = Ret {[ 0 := JObj [("role", JStr "assistant");
                        ("content", JStr "Hello")] ]} /\
  dom ({[ 0 := JObj [("role", JStr "assistant");
                     ("content", JStr "Hello")] ]} : gmap Z JSValue) =
  dom (default ∅ (Some one_choice_so_far))
  ∪ list_to_set (map index (choices next_fragment)).
Proof.
  assert (multiChoiceMessageReducer (Some one_choice_so_far) next_fragment
          = Ret {[ 0 := JObj [("role", JStr "assistant");
                              ("content", JStr "Hello")] ]}) as Hfold
    by (vm_compute; reflexivity).
  split; [exact Hfold|].
  exact (multiChoiceMessageReducer_indices (Some one_choice_so_far)
           next_fragment _ Hfold).
Defined.

End ReducerProperties.

(** ** The streamed run of the text-completion parser *)

Section TextStreamProperties.

Lemma Map_get_set_eq {V} (m : list (Z * V)) k v :
  Map_get (Map_set m k v) k = Some v.
Proof.
  induction m as [|[k' v'] m IH]; simpl.
  - by rewrite Z.eqb_refl.
  - destruct (k' =? k) eqn:Hk; simpl; [by rewrite Z.eqb_refl|by rewrite Hk].
Qed.

Lemma Map_get_set_ne {V} (m : list (Z * V)) k k' v :
  k <> k' -> Map_get (Map_set m k v) k' = Map_get m k'.
Proof.
  intros Hne. induction m as [|[k0 v0] m IH]; simpl.
  - by apply Z.eqb_neq in Hne as ->.
  - destruct (Z.eqb_spec k0 k) as [->|Hk0]; simpl.
    + by apply Z.eqb_neq in Hne as ->.
    + by rewrite IH.
Qed.

Lemma extended_app recorded l1 l2 :
  extended (extended recorded l1) l2 = extended recorded (l1 ++ l2).
Proof.
  destruct l1 as [|a l1]; [done|].
  destruct l2 as [|b l2]; [by rewrite app_nil_r|].
  unfold extended, appended. simpl. by rewrite fold_left_app.
Qed.

Lemma text_stream_choices_step options rest choices : forall st,
  text_outputs_follow st ->
  let st' := OpenAIText.stream_choices options rest choices st in
  text_outputs_follow st' /\
  forall index,
    OpenAIText.st_completions st' !! index =
    extended (OpenAIText.st_completions st !! index) (texts_for index choices).
Proof.
  induction choices as [|choice choices IH]; intros st Hst; [done|].
  cbn zeta. cbn [OpenAIText.stream_choices].
  match goal with
  | |- context [OpenAIText.stream_choices _ _ _ ?next] =>
      destruct (IH next) as [Hfollow Htexts]
  end.
  { intros index. cbn [OpenAIText.st_completions OpenAIText.st_outputs].
    destruct (Z.eq_dec (choice_index choice) index) as [<-|Hne].
    - rewrite lookup_insert_eq, Map_get_set_eq. by eexists.
    - rewrite lookup_insert_ne, Map_get_set_ne by done. apply Hst. }
  split; [exact Hfollow|].
  intros index. rewrite Htexts. cbn [OpenAIText.st_completions].
  unfold texts_for. cbn [List.filter].
  destruct (Z.eqb_spec (choice_index choice) index) as [<-|Hne].
  - rewrite lookup_insert_eq. cbn [map].
    destruct (OpenAIText.st_completions st !! choice_index choice);
      by destruct (map choice_text _).
  - by rewrite lookup_insert_ne.
Qed.

Lemma text_stream_chunks_step options responseStream : forall st,
  text_outputs_follow st ->
  let st' := OpenAIText.stream_chunks options responseStream st in
  text_outputs_follow st' /\
  forall index,
    OpenAIText.st_completions st' !! index =
    extended (OpenAIText.st_completions st !! index)
             (fragments_of index responseStream).
Proof.
  unfold OpenAIText.stream_chunks.
  induction responseStream as [|chunk responseStream IH]; intros st Hst;
    [done|].
  cbn [fold_left].
  destruct (text_stream_choices_step options (completion_rest chunk)
              (completion_choices chunk) st Hst) as [Hfollow Htexts].
  destruct (IH _ Hfollow) as [Hfollow' Htexts'].
  split; [exact Hfollow'|].
  intros index. rewrite Htexts', Htexts, extended_app.
  unfold fragments_of, texts_for. cbn [map concat].
  by rewrite List.filter_app, map_app.
Qed.

(** X16.  The streamed run of the text-completion parser records, for each
    choice index, one output whose text is the fragments of that choice
    appended in arrival order, whatever the order in which the choices
    arrive; an index for which no fragment arrived has no output. *)
Theorem text_stream_accumulates_each_choice
    (options : option InferenceOptions)
    (responseStream : list CompletionChunk) (index : Z) :
  let st := OpenAIText.stream_chunks options responseStream text_stream_start in
  match fragments_of index responseStream with
  | [] => Map_get (OpenAIText.st_outputs st) index = None
  | fragments =>
      exists output,
        Map_get (OpenAIText.st_outputs st) index = Some output /\
        get output "data" = JStr (appended "" fragments) /\
        get output "execution_count" = JNum index
  end.
Proof.
  intros st.
  destruct (text_stream_chunks_step options responseStream text_stream_start)
    as [Hfollow Htexts]; [done|].
  specialize (Hfollow index). specialize (Htexts index).
  fold st in Hfollow, Htexts. rewrite Htexts in Hfollow.
  cbn [text_stream_start OpenAIText.st_completions] in Hfollow.
  rewrite lookup_empty in Hfollow.
  by destruct (fragments_of index responseStream).
Qed.

Lemma text_stream_choices_outputs options rest choices : forall st st',
  OpenAIText.st_outputs st = OpenAIText.st_outputs st' ->
  OpenAIText.st_completions st = OpenAIText.st_completions st' ->
  let after := OpenAIText.stream_choices options rest choices st in
  let after' := OpenAIText.stream_choices None rest choices st' in
  OpenAIText.st_outputs after = OpenAIText.st_outputs after' /\
  OpenAIText.st_completions after = OpenAIText.st_completions after'.
Proof.
  induction choices as [|choice choices IH]; intros st st' Houtputs Htexts;
    [done|].
  cbn [OpenAIText.stream_choices]. apply IH.
  - cbn [OpenAIText.st_outputs]. by rewrite Houtputs, Htexts.
  - cbn [OpenAIText.st_completions]. by rewrite Htexts.
Qed.

Lemma text_stream_chunks_outputs options responseStream : forall st st',
  OpenAIText.st_outputs st = OpenAIText.st_outputs st' ->
  OpenAIText.st_completions st = OpenAIText.st_completions st' ->
  OpenAIText.st_outputs (OpenAIText.stream_chunks options responseStream st) =
  OpenAIText.st_outputs (OpenAIText.stream_chunks None responseStream st').
Proof.
  unfold OpenAIText.stream_chunks.
  induction responseStream as [|chunk responseStream IH];
    intros st st' Houtputs Htexts; [done|].
  cbn [fold_left].
  destruct (text_stream_choices_outputs options (completion_rest chunk)
              (completion_choices chunk) st st' Houtputs Htexts).
  by apply IH.
Qed.

Lemma text_stream_choices_silent options rest choices : forall st,
  match options with
  | Some options => opt_callbacks options
  | None => false
  end = false ->
  OpenAIText.st_streamCalls (OpenAIText.stream_choices options rest choices st)
  = OpenAIText.st_streamCalls st.
Proof.
  intros st Hsilent. revert st.
  induction choices as [|choice choices IH]; intros st; [done|].
  cbn [OpenAIText.stream_choices]. rewrite IH.
  cbn [OpenAIText.st_streamCalls].
  destruct options as [options|]; [|done]. by rewrite Hsilent.
Qed.

Lemma text_stream_chunks_silent options responseStream : forall st,
  match options with
  | Some options => opt_callbacks options
  | None => false
  end = false ->
  OpenAIText.st_streamCalls (OpenAIText.stream_chunks options responseStream st)
  = OpenAIText.st_streamCalls st.
Proof.
  intros st Hsilent. revert st. unfold OpenAIText.stream_chunks.
  induction responseStream as [|chunk responseStream IH]; intros st; [done|].
  cbn [fold_left]. rewrite IH. by apply text_stream_choices_silent.
Qed.

Lemma text_stream_choices_calls options rest choices : forall st,
  opt_callbacks options = true ->
  length (OpenAIText.st_streamCalls
            (OpenAIText.stream_choices (Some options) rest choices st)) =
  (length (OpenAIText.st_streamCalls st) + length choices)%nat.
Proof.
  intros st Hcallbacks. revert st.
  induction choices as [|choice choices IH]; intros st; simpl; [lia|].
  rewrite IH. cbn [OpenAIText.st_streamCalls]. rewrite Hcallbacks.
  unfold push. rewrite length_app. simpl. lia.
Qed.

Lemma text_stream_chunks_calls options responseStream : forall st,
  opt_callbacks options = true ->
  length (OpenAIText.st_streamCalls
            (OpenAIText.stream_chunks (Some options) responseStream st)) =
  (length (OpenAIText.st_streamCalls st)
   + length (concat (map completion_choices responseStream)))%nat.
Proof.
  intros st Hcallbacks. revert st. unfold OpenAIText.stream_chunks.
  induction responseStream as [|chunk responseStream IH]; intros st; simpl;
    [lia|].
  rewrite IH, text_stream_choices_calls, length_app by done. lia.
Qed.

(** X17.  The outputs of the streamed text completion do not depend on the
    options: the loop records the same outputs whether callbacks are set or
    not.  Without options, or without callbacks, it invokes no
    [streamCallback]; with callbacks it invokes it once for every choice of
    every chunk. *)
Theorem text_stream_outputs_without_callbacks
    (options : option InferenceOptions) (stream : JSValue)
    (responseStream : list CompletionChunk) :
  OpenAIText.st_outputs
    (OpenAIText.stream_chunks options responseStream text_stream_start) =
  OpenAIText.st_outputs
    (OpenAIText.stream_chunks None responseStream text_stream_start) /\
  OpenAIText.st_streamCalls
    (OpenAIText.stream_chunks None responseStream text_stream_start) = [] /\
  OpenAIText.st_streamCalls
    (OpenAIText.stream_chunks
       (Some {| opt_stream := stream; opt_callbacks := false |})
       responseStream text_stream_start) = [] /\
  length (OpenAIText.st_streamCalls
            (OpenAIText.stream_chunks
               (Some {| opt_stream := stream; opt_callbacks := true |})
               responseStream text_stream_start)) =
  length (concat (map completion_choices responseStream)).
Proof.
  split; [by apply text_stream_chunks_outputs|].
  split; [by rewrite text_stream_chunks_silent|].
  split; [by rewrite text_stream_chunks_silent|].
  by rewrite text_stream_chunks_calls.
Qed.

End TextStreamProperties.

(** ** The streamed run of the text-generation parser *)

Section GenerationStreamProperties.
Context `{runtime : Runtime} `{hf : HfInference}.

Lemma carries_reads iteration fragment :
  carries iteration fragment ->
  get_strict iteration "token" = Ret (get iteration "token") /\
  get_strict (get iteration "token") "text" = Ret (JStr fragment).
Proof.
  unfold carries, get_strict. intros Hcarries.
  destruct iteration; try discriminate Hcarries;
    destruct (get _ "token"); try discriminate Hcarries;
    by rewrite <- Hcarries.
Qed.

Lemma constructStreamOutput_loop_fragments options response fragments :
  opt_callbacks options = true ->
  Forall2 carries response fragments ->
  forall accumulated output calls iteration fragment,
    carries iteration fragment ->
    HuggingFace.constructStreamOutput_loop options (response ++ [iteration])
      accumulated output calls =
    Ret (JObj [("output_type", JStr "execute_result");
               ("data", JStr fragment);
               ("execution_count", JNum 0);
               ("metadata", iteration)],
         (calls ++ fragment_calls accumulated (fragments ++ [fragment]))%list).
Proof.
  intros Hcallbacks.
  induction 1 as [|it text response fragments Hit _ IH];
    intros accumulated output calls iteration fragment Hlast;
    cbn [app HuggingFace.constructStreamOutput_loop].
  - destruct (carries_reads _ _ Hlast) as [Htoken Htext].
    rewrite Htoken. cbn [bind]. rewrite Htext. cbn [bind].
    by rewrite Hcallbacks.
  - destruct (carries_reads _ _ Hit) as [Htoken Htext].
    rewrite Htoken. cbn [bind]. rewrite Htext. cbn [bind].
    rewrite Hcallbacks, (IH _ _ _ _ _ Hlast).
    cbn [fragment_calls property_key]. unfold push.
    by rewrite <- app_assoc.
Qed.

(** X19.  With callbacks, the streamed text generation invokes
    [streamCallback] on every fragment with the text accumulated so far,
    and returns an output whose data is the last fragment alone, whatever
    the number of fragments; the text read back from the output is that
    last fragment. *)
Theorem generation_stream_keeps_the_last_fragment
    (aiConfig : AIConfigRuntime) (options : InferenceOptions)
    (response : list JSValue) (fragments : list string)
    (iteration : JSValue) (fragment : string) :
  opt_callbacks options = true ->
  Forall2 carries response fragments ->
  carries iteration fragment ->
  exists output,
    HuggingFace.constructStreamOutput (response ++ [iteration]) options =
    Ret (output, fragment_calls "" (fragments ++ [fragment])) /\
    get output "data" = JStr fragment /\
    get output "metadata" = iteration /\
    HuggingFace.getOutputText aiConfig output None = JStr fragment.
Proof.
  intros Hcallbacks Hresponse Hlast. eexists. split.
  - unfold HuggingFace.constructStreamOutput.
    by rewrite (constructStreamOutput_loop_fragments options response
                  fragments Hcallbacks Hresponse _ _ _ _ _ Hlast).
  - by repeat split.
Qed.

(** X20.  Without callbacks the streamed text generation cannot consume a
    fragment: on a stream that is not empty [constructStreamOutput] throws
    a [TypeError], and the run is rejected whatever the listeners of the
    document do, with this [TypeError] when the [on_run_start]
    notification fulfils; it records nothing, where the text-completion
    parser returns its outputs. *)
Theorem generation_stream_needs_callbacks (prompt : Prompt)
    (aiConfig : AIConfigRuntime) (stream : JSValue) (params : JSValue)
    (iteration : JSValue) (response : list JSValue) :
  let options := {| opt_stream := stream; opt_callbacks := false |} in
  textGenerationStream (HuggingFace.deserialize prompt aiConfig params)
    = resolved (iteration :: response) ->
  HuggingFace.constructStreamOutput (iteration :: response) options
    = Throw TypeError /\
  (exists t e,
     HuggingFace.run prompt aiConfig (Some options) params
     = Settled t (Rejected e)) /\
  (forall t manager,
     runCallbacks (callbackManager aiConfig) Date_now
                  [("name", JStr "on_run_start")]
       = Settled t (Fulfilled manager) ->
     HuggingFace.run prompt aiConfig (Some options) params
     = Settled t (Rejected TypeError)).
Proof.
  intros options Hstream.
  assert (HuggingFace.constructStreamOutput (iteration :: response) options
          = Throw TypeError) as Hthrow.
  { unfold HuggingFace.constructStreamOutput.
    cbn [HuggingFace.constructStreamOutput_loop]. unfold get_strict.
    destruct (nullish iteration); [done|]. cbn [bind].
    by destruct (nullish (get iteration "token")). }
  split; [exact Hthrow|].
  assert (forall t manager,
            runCallbacks (callbackManager aiConfig) Date_now
                         [("name", JStr "on_run_start")]
              = Settled t (Fulfilled manager) ->
            HuggingFace.run prompt aiConfig (Some options) params
            = Settled t (Rejected TypeError)) as Hfulfilled.
  { intros t manager Hstart. unfold HuggingFace.run. rewrite Hstart.
    assert (truthy (HuggingFace.run_stream (Some options)) = true) as ->.
    { unfold HuggingFace.run_stream.
      by destruct (truthy (opt_stream options)) eqn:Ht. }
    rewrite Hstream. unfold resolved. cbn [await delay].
    rewrite Hthrow. cbn [of_outcome]. unfold rejected. cbn [await delay].
    by rewrite Nat.add_0_r. }
  split; [|exact Hfulfilled].
  destruct (runCallbacks_settles (callbackManager aiConfig) Date_now
              [("name", JStr "on_run_start")]) as (t & [manager|e] & Hstart & _).
  - exists t, TypeError. by apply (Hfulfilled t manager).
  - exists t, e. unfold HuggingFace.run. by rewrite Hstart.
Qed.

End GenerationStreamProperties.

Lemma generation_stream_keeps_the_last_fragment_witness :
  opt_callbacks SampleProviders.streaming_options = true /\
  Forall2 carries [SampleProviders.token "Hel"; SampleProviders.token "lo"]
          ["Hel"; "lo"] /\
  carries (SampleProviders.token "!") "!" /\
  exists output,
    HuggingFace.constructStreamOutput
      ([SampleProviders.token "Hel"; SampleProviders.token "lo"]
       ++ [SampleProviders.token "!"])
      SampleProviders.streaming_options =
    Ret (output, fragment_calls "" (["Hel"; "lo"] ++ ["!"])) /\
    get output "data" = JStr "!" /\
    get output "metadata" = SampleProviders.token "!" /\
    HuggingFace.getOutputText (runtime := Samples.sample_runtime)
      Samples.sample_config output None = JStr "!".
Proof.
  assert (Forall2 carries
            [SampleProviders.token "Hel"; SampleProviders.token "lo"]
            ["Hel"; "lo"]) as Hresponse
    by (repeat constructor).
  split; [reflexivity|]. split; [exact Hresponse|]. split; [reflexivity|].
  exact (generation_stream_keeps_the_last_fragment
           (runtime := Samples.sample_runtime) Samples.sample_config
           SampleProviders.streaming_options
           [SampleProviders.token "Hel"; SampleProviders.token "lo"]
           ["Hel"; "lo"] (SampleProviders.token "!") "!"
           eq_refl Hresponse eq_refl).
Defined.

Lemma generation_stream_needs_callbacks_witness :
  textGenerationStream (HfInference := SampleProviders.hello_hf)
    (HuggingFace.deserialize (runtime := Samples.sample_runtime)
       Samples.second_prompt attended_config JUndefined)
    = resolved [SampleProviders.token "Hel"; SampleProviders.token "lo"] /\
  HuggingFace.run (runtime := Samples.sample_runtime)
    (hf := SampleProviders.hello_hf)
    Samples.second_prompt attended_config
    (Some {| opt_stream := JBool true; opt_callbacks := false |}) JUndefined
  = Settled 9 (Rejected TypeError).
Proof.
  split; [reflexivity|].
  exact (proj2 (proj2 (generation_stream_needs_callbacks
                         (runtime := Samples.sample_runtime)
                         (hf := SampleProviders.hello_hf)
                         Samples.second_prompt attended_config (JBool true)
                         JUndefined (SampleProviders.token "Hel")
                         [SampleProviders.token "lo"] eq_refl))
               9%nat _ eq_refl).
Defined.

(** ** [serialize] of the chat parser *)

Section SerializeProperties.
Context `{runtime : Runtime}.

Lemma serialize_messages_shape promptName modelMetadata params messages :
  forall prompts result,
    OpenAIChat.serialize_messages promptName modelMetadata params messages
                                  prompts = Ret result ->
    exists added,
      result = (prompts ++ added)%list /\
      map name added =
        numbered promptName (length prompts + 1)
                 (length (List.filter is_turn messages)) /\
      map input added = map turn_input (List.filter is_turn messages).
Proof.
  induction messages as [|message messages IH]; intros prompts result;
    cbn [OpenAIChat.serialize_messages].
  - intros [= <-]. exists []. by rewrite app_nil_r.
  - unfold get_strict at 1. destruct (nullish message); [done|]. cbn [bind].
    cbn [List.filter].
    assert (strict_eq (get message "role") (JStr "user")
            || strict_eq (get message "role") (JStr "function")
            = is_turn message) as -> by reflexivity.
    destruct (is_turn message); [|apply IH].
    match goal with
    | |- bind ?next _ = _ -> _ => destruct next as [assistantResponse|e]
    end; [|done].
    cbn [bind]. intros Hrest.
    destruct (IH _ _ Hrest) as (added & -> & Hnames & Hinputs).
    eexists (_ :: added). unfold push. rewrite <- app_assoc.
    split; [reflexivity|]. cbn [map name input length]. split.
    + unfold push in Hnames. rewrite Hnames, length_app. cbn [length].
      unfold numbered.
      cbn [seq map]. by rewrite !Nat.add_1_r.
    + by rewrite Hinputs.
Qed.

Lemma rename_last_snoc earlier prompt promptName :
  OpenAIChat.rename_last (earlier ++ [prompt]) promptName =
  Ret (earlier ++ [{| name := promptName;
                      input := input prompt;
                      metadata := metadata prompt;
                      outputs := outputs prompt |}])%list.
Proof.
  induction earlier as [|p earlier IH]; [done|].
  change ((p :: earlier) ++ [prompt])%list
    with (p :: (earlier ++ [prompt]))%list.
  cbn [OpenAIChat.rename_last]. rewrite IH.
  by destruct (earlier ++ [prompt])%list eqn:Hlist;
    [destruct earlier; discriminate Hlist|].
Qed.

(** X21.  When [serialize] returns, it returns one prompt for each message
    of role [user] or [function], in the order of the messages and with the
    input taken from the message; the last prompt bears the requested name
    and the earlier ones are numbered from one. *)
Theorem serialize_gives_one_prompt_per_turn (promptName : string)
    (data : Props) (aiConfig : AIConfigRuntime) (params : JSValue)
    (messages : list JSValue) (prompts : list Prompt) :
  obj_get data "messages" = JArr messages ->
  OpenAIChat.serialize promptName data aiConfig params = Ret prompts ->
  let turns := List.filter is_turn messages in
  map input prompts = map turn_input turns /\
  map name prompts =
    (numbered promptName 1 (length turns - 1) ++ [promptName])%list.
Proof.
  intros Hmessages. unfold OpenAIChat.serialize, fire_and_forget.
  rewrite Hmessages. cbn [bind].
  destruct (OpenAIChat.find_system messages) as [systemPrompt|e]; [|done].
  cbn [bind].
  destruct (OpenAIChat.serialize_messages _ _ _ _ _) as [recorded|e] eqn:Hloop;
    [|done].
  cbn [bind].
  destruct (serialize_messages_shape _ _ _ _ _ _ Hloop)
    as (added & -> & Hnames & Hinputs).
  cbn [app length Nat.add] in *.
  clear Hloop. destruct added as [|prompt earlier _] using rev_ind; [done|].
  -  rewrite rename_last_snoc. cbn [bind]. intros [= <-].
    set (turns := List.filter is_turn messages) in *.
    rewrite !map_app in *. cbn [map name input] in *.
    split; [exact Hinputs|].
    assert (length (map name earlier ++ [name prompt])%list
            = length (numbered promptName 1 (length turns))) as Hlength
      by (by rewrite Hnames).
    unfold numbered in *. rewrite length_app, !length_map, length_seq in Hlength.
    cbn [length] in Hlength.
    replace (length turns) with (S (length earlier)) in * by lia.
    rewrite seq_S, map_app in Hnames. cbn [map] in Hnames.
    apply app_inj_tail in Hnames as [Hnames _].
    replace (S (length earlier) - 1)%nat with (length earlier) by lia.
    by rewrite Hnames.
Qed.

End SerializeProperties.

Lemma serialize_gives_one_prompt_per_turn_witness :
  obj_get two_turn_request "messages" =
    JArr [JObj [("role", JStr "system"); ("content", JStr "Be brief")];
          JObj [("role", JStr "user"); ("content", JStr "Hi")];
          JObj [("role", JStr "assistant"); ("content", JStr "Hello")];
          JObj [("role", JStr "user"); ("content", JStr "Bye")]] /\
  exists prompts,
    OpenAIChat.serialize (runtime := Samples.sample_runtime) "chat"
      two_turn_request Samples.sample_config JUndefined = Ret prompts /\
    map input prompts = [JStr "Hi"; JStr "Bye"] /\
    map name prompts = ["chat_1"; "chat"].
Proof.
  split; [reflexivity|].
  destruct (OpenAIChat.serialize (runtime := Samples.sample_runtime) "chat"
              two_turn_request Samples.sample_config JUndefined)
    as [prompts|e] eqn:Hserialize; [|discriminate Hserialize].
  exists prompts. split; [reflexivity|].
  exact (serialize_gives_one_prompt_per_turn
           (runtime := Samples.sample_runtime) "chat" two_turn_request
           Samples.sample_config JUndefined _ prompts eq_refl Hserialize).
Defined.

(** ** [deserialize] of the chat parser *)

Section DeserializeProperties.
Context `{runtime : Runtime}.

Lemma addPromptAsMessage_grows prompt aiConfig messages params result :
  OpenAIChat.addPromptAsMessage prompt aiConfig messages params = Ret result ->
  exists added,
    result = (messages ++ added)%list /\
    (1 <= length added <= 2)%nat.
Proof.
  intros Hadd.
  destruct (addPromptAsMessage_appends _ _ _ _ _ Hadd)
    as (template & inputTurn & outputTurns & _ & -> & _ & _ & Hlength & _).
  exists (inputTurn :: outputTurns). split; [done|]. simpl. lia.
Qed.

Lemma add_all_grows aiConfig params prompts : forall messages result,
  add_all aiConfig params prompts messages = Ret result ->
  exists added,
    result = (messages ++ added)%list /\
    (length prompts <= length added <= 2 * length prompts)%nat.
Proof.
  induction prompts as [|p prompts IH]; intros messages result;
    cbn [add_all].
  - intros [= <-]. exists []. rewrite app_nil_r. split; [done|]. simpl. lia.
  - destruct (OpenAIChat.addPromptAsMessage p aiConfig messages params)
      as [next|e] eqn:Hadd; [|done].
    cbn [bind]. intros Hrest.
    destruct (addPromptAsMessage_grows _ _ _ _ _ Hadd) as (first & -> & Hfirst).
    destruct (IH _ _ Hrest) as (rest & -> & Hlength).
    exists (first ++ rest)%list. rewrite <- app_assoc. split; [done|].
    rewrite length_app. simpl. lia.
Qed.

Lemma systemMessages_at_most_one prompt aiConfig params modelMetadata system :
  OpenAIChat.systemMessages prompt aiConfig params modelMetadata = Ret system ->
  (length system <= 1)%nat.
Proof.
  unfold OpenAIChat.systemMessages.
  destruct (negb (nullish _)); [|intros [= <-]; simpl; lia].
  destruct (String.eqb _ "string"); cbn [bind].
  - intros [= <-]. simpl. lia.
  - destruct (get modelMetadata "system_prompt"); try done.
    cbn [bind]. intros [= <-]. simpl. lia.
Qed.

(** X22.  When the settings hold no saved messages, the history that
    [deserialize] returns is the system message, if the settings have one,
    followed by the turns of the prompts that are walked, and each of these
    prompts contributes one message or two: nothing is put before the
    system message and no message is dropped or replaced on the way. *)
Theorem history_is_system_then_turns (target : Prompt)
    (aiConfig : AIConfigRuntime) (params : JSValue) (completionParams : Props) :
  let modelMetadata := coalesce (getModelSettings target aiConfig) (JObj []) in
  nullish (get modelMetadata "messages") = true ->
  OpenAIChat.deserialize target aiConfig params = Ret completionParams ->
  exists system turns,
    OpenAIChat.systemMessages target aiConfig params modelMetadata
      = Ret system /\
    obj_get completionParams "messages" = JArr (system ++ turns) /\
    (length system <= 1)%nat /\
    (prompts_walked target aiConfig <= length turns
     <= 2 * prompts_walked target aiConfig)%nat.
Proof.
  intros modelMetadata Hsaved.
  unfold OpenAIChat.deserialize, OpenAIChat.deserialize_over, fire_and_forget.
  fold modelMetadata.
  change (obj_get (OpenAIChat.refineChatCompletionParams modelMetadata)
                  "messages") with (get modelMetadata "messages").
  rewrite Hsaved.
  destruct (OpenAIChat.systemMessages target aiConfig params modelMetadata)
    as [system|e] eqn:Hsystem; [|done].
  cbn [bind]. unfold prompts_walked.
  destruct (strict_eq _ (JBool false)); cbn [negb].
  - destruct (OpenAIChat.addPromptAsMessage target aiConfig system params)
      as [messages|e] eqn:Hadd; [|done].
    cbn [bind]. intros [= <-].
    destruct (addPromptAsMessage_grows _ _ _ _ _ Hadd) as (turns & -> & Hturns).
    exists system, turns. split; [done|].
    split; [first [reflexivity | apply obj_get_set_eq]|].
    split; [by eapply systemMessages_at_most_one|lia].
  - rewrite walk_upto_target.
    destruct (add_all aiConfig params _ system) as [messages|e] eqn:Hwalk;
      [|done].
    cbn [bind]. intros [= <-].
    destruct (add_all_grows _ _ _ _ _ Hwalk) as (turns & -> & Hturns).
    exists system, turns. split; [done|].
    split; [first [reflexivity | apply obj_get_set_eq]|].
    split; [by eapply systemMessages_at_most_one|exact Hturns].
Qed.

Lemma upto_target_absent target prompts :
  Forall (fun q => name q <> target) prompts ->
  upto_target target prompts = prompts.
Proof.
  induction 1 as [|q prompts Hq _ IH]; simpl; [done|].
  destruct (String.eqb_spec (name q) target); [done|]. by rewrite IH.
Qed.

(** X23.  When no prompt of the document bears the name of the target, the
    walk does not stop: every prompt of the document is handed to
    [addPromptAsMessage], and the target itself is not. *)
Theorem walk_without_the_target_takes_every_prompt (target : Prompt)
    (aiConfig : AIConfigRuntime) (params : JSValue) (messages : list JSValue) :
  Forall (fun q => name q <> name target) (prompts aiConfig) ->
  OpenAIChat.walk target aiConfig params (prompts aiConfig) messages =
  add_all aiConfig params (prompts aiConfig) messages.
Proof.
  intros Habsent. by rewrite walk_upto_target, upto_target_absent.
Qed.

Lemma resolveSaved_length prompt aiConfig params saved : forall resolved,
  OpenAIChat.resolveSaved prompt aiConfig params saved = Ret resolved ->
  length resolved = length saved.
Proof.
  induction saved as [|message saved IH]; intros resolved;
    cbn [OpenAIChat.resolveSaved].
  - by intros [= <-].
  - destruct message; try done.
    destruct (OpenAIChat.resolveSaved prompt aiConfig params saved)
      as [rest|e]; [|done].
    cbn [bind]. intros [= <-]. simpl. by rewrite (IH rest).
Qed.

(** X24.  When the settings hold saved messages, [deserialize] consults
    neither the prompts of the document nor the system prompt of the
    settings: the history is the saved messages, resolved one by one,
    followed by the turn of the target (and its recorded assistant turn,
    if any). *)
Theorem saved_messages_replace_the_walk (target : Prompt)
    (aiConfig : AIConfigRuntime) (params : JSValue) (saved : list JSValue) :
  let modelMetadata := coalesce (getModelSettings target aiConfig) (JObj []) in
  get modelMetadata "messages" = JArr saved ->
  (forall documentPrompts,
     OpenAIChat.deserialize_over documentPrompts target aiConfig params =
     OpenAIChat.deserialize_over [] target aiConfig params) /\
  (forall completionParams,
     OpenAIChat.deserialize target aiConfig params = Ret completionParams ->
     exists resolved turns,
       OpenAIChat.resolveSaved target aiConfig params saved = Ret resolved /\
       length resolved = length saved /\
       obj_get completionParams "messages" = JArr (resolved ++ turns) /\
       (1 <= length turns <= 2)%nat).
Proof.
  intros modelMetadata Hsaved.
  assert (forall documentPrompts,
            OpenAIChat.deserialize_over documentPrompts target aiConfig params =
            let? resolved :=
              OpenAIChat.resolveSaved target aiConfig params saved in
            let? messages :=
              OpenAIChat.addPromptAsMessage target aiConfig resolved params in
            Ret (obj_set (OpenAIChat.refineChatCompletionParams modelMetadata)
                         "messages" (JArr messages))) as Heq.
  { intros documentPrompts.
    unfold OpenAIChat.deserialize_over, fire_and_forget.
    fold modelMetadata.
    change (obj_get (OpenAIChat.refineChatCompletionParams modelMetadata)
                    "messages") with (get modelMetadata "messages").
    rewrite Hsaved. cbn [nullish].
    by destruct (OpenAIChat.resolveSaved _ _ _ _). }
  split.
  - intros documentPrompts. by rewrite !Heq.
  - intros completionParams. unfold OpenAIChat.deserialize. rewrite Heq.
    destruct (OpenAIChat.resolveSaved target aiConfig params saved)
      as [resolved|e] eqn:Hresolved; [|done].
    cbn [bind].
    destruct (OpenAIChat.addPromptAsMessage target aiConfig resolved params)
      as [messages|e] eqn:Hadd; [|done].
    cbn [bind]. intros [= <-].
    destruct (addPromptAsMessage_grows _ _ _ _ _ Hadd) as (turns & -> & Hturns).
    exists resolved, turns. split; [done|].
    split; [by eapply resolveSaved_length|].
    split; [first [reflexivity | apply obj_get_set_eq]|exact Hturns].
Qed.

End DeserializeProperties.

Lemma history_is_system_then_turns_witness :
  nullish (get (coalesce (getModelSettings (Runtime := Samples.sample_runtime)
                            Samples.second_prompt Samples.sample_config)
                         (JObj [])) "messages") = true /\
  exists completionParams system turns,
    OpenAIChat.deserialize (runtime := Samples.sample_runtime)
      Samples.second_prompt Samples.sample_config JUndefined
      = Ret completionParams /\
    obj_get completionParams "messages" = JArr (system ++ turns) /\
    (length system <= 1)%nat /\
    (2 <= length turns <= 4)%nat.
Proof.
  split; [reflexivity|].
  destruct (OpenAIChat.deserialize (runtime := Samples.sample_runtime)
              Samples.second_prompt Samples.sample_config JUndefined)
    as [completionParams|e] eqn:Hdeserialize; [|discriminate Hdeserialize].
  destruct (history_is_system_then_turns (runtime := Samples.sample_runtime)
              Samples.second_prompt Samples.sample_config JUndefined
              completionParams eq_refl Hdeserialize)
    as (system & turns & _ & Hmessages & Hsystem & Hturns).
  exists completionParams, system, turns.
  split; [reflexivity|]. split; [exact Hmessages|].
  split; [exact Hsystem|exact Hturns].
Defined.

Lemma walk_without_the_target_takes_every_prompt_witness :
  Forall (fun q => name q <> name stray_prompt)
         (prompts Samples.sample_config) /\
  OpenAIChat.walk (runtime := Samples.sample_runtime) stray_prompt
    Samples.sample_config JUndefined (prompts Samples.sample_config) [] =
  add_all (runtime := Samples.sample_runtime) Samples.sample_config JUndefined
    (prompts Samples.sample_config) [].
Proof.
  assert (Forall (fun q => name q <> name stray_prompt)
                 (prompts Samples.sample_config)) as Habsent
    by (repeat constructor; discriminate).
  split; [exact Habsent|].
  exact (walk_without_the_target_takes_every_prompt
           (runtime := Samples.sample_runtime) stray_prompt
           Samples.sample_config JUndefined [] Habsent).
Defined.

Lemma saved_messages_replace_the_walk_witness :
  get (coalesce (getModelSettings (Runtime := Samples.sample_runtime)
                   Samples.second_prompt saved_config)
                (JObj [])) "messages"
    = JArr [JObj [("role", JStr "user"); ("content", JStr "Earlier")]] /\
  forall documentPrompts,
    OpenAIChat.deserialize_over (runtime := Samples.sample_runtime)
      documentPrompts Samples.second_prompt saved_config JUndefined =
    OpenAIChat.deserialize_over (runtime := Samples.sample_runtime) []
      Samples.second_prompt saved_config JUndefined.
Proof.
  split; [reflexivity|].
  exact (proj1 (saved_messages_replace_the_walk
                  (runtime := Samples.sample_runtime)
                  Samples.second_prompt saved_config JUndefined _ eq_refl)).
Defined.

(** ** The outputs of a complete response *)

Section ResponseProperties.
Context `{runtime : Runtime}.

Lemma chat_response_outputs_of_answers (responseWithoutChoices : Props)
    (choices : list JSValue) :
  Forall (fun choice => nullish choice = false) choices ->
  exists outputs,
    OpenAIChat.response_outputs responseWithoutChoices choices = Ret outputs /\
    map index_and_data outputs =
    map chat_choice_data (List.filter answers choices).
Proof.
  induction 1 as [|choice choices Hchoice _ (outputs & IH & Hdata)];
    cbn [OpenAIChat.response_outputs]; [by exists []|].
  unfold get_strict. rewrite Hchoice. cbn [bind List.filter].
  unfold answers at 1.
  destruct (nullish (buildOutputData (get choice "message"))); cbn [negb].
  - by exists outputs.
  - rewrite IH. cbn [bind]. eexists. split; [reflexivity|].
    cbn [map]. by rewrite Hdata.
Qed.

Lemma text_response_outputs_of_choices (response : JSValue)
    (choices : list JSValue) :
  Forall (fun choice => nullish choice = false) choices ->
  exists outputs,
    OpenAIText.response_outputs response choices = Ret outputs /\
    map index_and_data outputs = map text_choice_data choices /\
    Forall (fun output =>
              get (get output "metadata") "raw_response" = response)
           outputs.
Proof.
  induction 1 as [|choice choices Hchoice _ (outputs & IH & Hdata & Hraw)];
    cbn [OpenAIText.response_outputs]; [by exists []|].
  unfold get_strict. rewrite Hchoice. cbn [bind]. rewrite IH. cbn [bind].
  eexists. split; [reflexivity|]. split.
  - cbn [map]. by rewrite Hdata.
  - by constructor.
Qed.

(** X25.  From a complete chat response, [run] records an output for the
    choices whose message has a content or a function call, and for no
    other: the outputs are those of these choices, in order, each with the
    index of its choice and the data built from its message.  From a
    complete text response, [run] records one output for every choice, in
    order, with the index and the text of the choice and the whole response
    as [raw_response]. *)
Theorem complete_response_outputs_follow_the_choices
    (responseWithoutChoices : Props) (response : JSValue)
    (choices : list JSValue) :
  Forall (fun choice => nullish choice = false) choices ->
  (exists outputs,
     OpenAIChat.response_outputs responseWithoutChoices choices
       = Ret outputs /\
     map index_and_data outputs =
     map chat_choice_data (List.filter answers choices)) /\
  (exists outputs,
     OpenAIText.response_outputs response choices = Ret outputs /\
     map index_and_data outputs = map text_choice_data choices /\
     Forall (fun output =>
               get (get output "metadata") "raw_response" = response)
            outputs).
Proof.
  intros Hchoices. split.
  - by apply chat_response_outputs_of_answers.
  - by apply text_response_outputs_of_choices.
Qed.

(** X27.  The text read back from an output whose data was built from a
    message is the content of the message when it has one, and the
    rendering of the recorded function call otherwise. *)
Theorem getOutputText_reads_back_the_message (aiConfig : AIConfigRuntime)
    (message execution_count metadata : JSValue) :
  nullish (get message "content") || is_string (get message "content")
    = true ->
  nullish (buildOutputData message) = false ->
  OpenAIChat.getOutputText aiConfig
    (execute_result (buildOutputData message) execution_count metadata) None =
  match get message "content" with
  | JStr content => JStr content
  | _ =>
      JStr (JSON_stringify
              (JArr [JObj [("type", JStr "function");
                           ("function", get message "function_call")]]))
  end.
Proof.
  unfold buildOutputData.
  destruct (nullish message); [done|]. cbn [negb].
  destruct (get message "content") as [| | | |content| |] eqn:Hcontent;
    try done; cbn [nullish negb].
  all: destruct (nullish (get message "function_call")); by cbn [negb].
Qed.

End ResponseProperties.

Lemma complete_response_outputs_follow_the_choices_witness :
  Forall (fun choice => nullish choice = false) three_choices /\
  exists outputs,
    OpenAIChat.response_outputs [] three_choices = Ret outputs /\
    map index_and_data outputs =
      [(JNum 0, JStr "Hello");
       (JNum 2,
        JObj [("kind", JStr "tool_calls");
              ("value",
               JArr [JObj [("type", JStr "function");
                           ("function", JObj [("name", JStr "lookup")])]])])].
Proof.
  assert (Forall (fun choice => nullish choice = false) three_choices)
    as Hchoices by (repeat constructor).
  split; [exact Hchoices|].
  exact (proj1 (complete_response_outputs_follow_the_choices
                  [] JUndefined three_choices Hchoices)).
Defined.

Lemma getOutputText_reads_back_the_message_witness :
  nullish (get partial_message "content")
  || is_string (get partial_message "content") = true /\
  nullish (buildOutputData partial_message) = false /\
  OpenAIChat.getOutputText (runtime := Samples.sample_runtime)
    Samples.sample_config
    (execute_result (buildOutputData partial_message) (JNum 0) JUndefined) None
  = JStr "Hel".
Proof.
  split; [reflexivity|]. split; [reflexivity|].
  exact (getOutputText_reads_back_the_message
           (runtime := Samples.sample_runtime) Samples.sample_config
           partial_message (JNum 0) JUndefined eq_refl eq_refl).
Defined.

(** ** The streamed run of the chat parser *)

Section ChatStreamProperties.
Context `{runtime : Runtime} `{openai : OpenAIClient}.

Lemma reduce_choices_size (choices : list ChunkChoice)
    (messages : gmap Z JSValue) :
  NoDup (map index choices) ->
  reduce_choices ∅ choices = Ret messages ->
  size messages = length choices.
Proof.
  intros Hdistinct Hfold.
  rewrite <- size_dom, (reduce_choices_dom _ _ _ Hfold), dom_empty_L.
  rewrite (left_id_L ∅ (∪)), size_list_to_set by done.
  apply length_map.
Qed.

Lemma chat_stream_chunks_rejects options first second rest :
  NoDup (map index (choices first)) ->
  Forall (fun choice => defined_everywhere (delta choice) = true)
         (choices first) ->
  length (choices second) <> length (choices first) ->
  OpenAIChat.stream_chunks options (first :: second :: rest) chat_stream_start
  = Throw choice_count_error.
Proof.
  intros Hdistinct Hdefined Hcount.
  cbn [OpenAIChat.stream_chunks chat_stream_start OpenAIChat.st_messages
       multiChoiceMessageReducer].
  destruct (reduce_choices_returns (choices first) ∅ Hdefined)
    as (messages & Hfold).
  rewrite Hfold. cbn [bind].
  destruct (OpenAIChat.stream_choices _ _ _ _ _) as [outputs calls].
  cbn [OpenAIChat.st_messages].
  rewrite (reduce_choices_size _ _ Hdistinct Hfold).
  apply Nat.neq_sym, Nat.eqb_neq in Hcount. by rewrite Hcount.
Qed.

(** X28.  A streamed chat run whose second fragment has another number of
    choices than the first is rejected, whatever the listeners of the
    document do, and with the protocol error when the [on_run_start]
    notification fulfils; so also when the stream opens with a fragment
    that has no choice and goes on with one that has. *)
Theorem chat_stream_rejects_a_change_of_choices (prompt : Prompt)
    (aiConfig : AIConfigRuntime) (options : option InferenceOptions)
    (params : JSValue) (completionParams : Props)
    (first second : ChatCompletionChunk) (rest : list ChatCompletionChunk) :
  OpenAIChat.deserialize prompt aiConfig params = Ret completionParams ->
  truthy (OpenAIChat.run_stream options completionParams) = true ->
  chat_completions_stream (obj_set completionParams "stream" (JBool true))
    = resolved (first :: second :: rest) ->
  NoDup (map index (choices first)) ->
  Forall (fun choice => defined_everywhere (delta choice) = true)
         (choices first) ->
  length (choices second) <> length (choices first) ->
  (exists t e,
     OpenAIChat.run prompt aiConfig options params = Settled t (Rejected e)) /\
  (forall t manager,
     runCallbacks (callbackManager aiConfig) Date_now
                  [("name", JStr "on_run_start")]
       = Settled t (Fulfilled manager) ->
     OpenAIChat.run prompt aiConfig options params
     = Settled t (Rejected choice_count_error)).
Proof.
  intros Hparams Hstream Hprovider Hdistinct Hdefined Hcount.
  assert (forall t manager,
            runCallbacks (callbackManager aiConfig) Date_now
                         [("name", JStr "on_run_start")]
              = Settled t (Fulfilled manager) ->
            OpenAIChat.run prompt aiConfig options params
            = Settled t (Rejected choice_count_error)) as Hfulfilled.
  { intros t manager Hstart. unfold OpenAIChat.run. rewrite Hstart.
    rewrite Hparams. cbn [of_outcome]. unfold resolved at 1.
    cbn [await delay]. rewrite Hstream, Hprovider. cbn [negb].
    unfold resolved at 1. cbn [await delay].
    change {| OpenAIChat.st_outputs := []; OpenAIChat.st_messages := None;
              OpenAIChat.st_streamCalls := [] |} with chat_stream_start.
    rewrite chat_stream_chunks_rejects by done.
    cbn [of_outcome]. unfold rejected. cbn [await delay].
    by rewrite Nat.add_0_r. }
  split; [|exact Hfulfilled].
  destruct (runCallbacks_settles (callbackManager aiConfig) Date_now
              [("name", JStr "on_run_start")]) as (t & [manager|e] & Hstart & _).
  - exists t, choice_count_error. by apply (Hfulfilled t manager).
  - exists t, e. unfold OpenAIChat.run. by rewrite Hstart.
Qed.

Lemma reduce_adopts_first_delta (delta : Props) :
  distinct (keys delta) = true ->
  reduce (JArr []) (JObj delta) = Ret (JObj delta).
Proof.
  intros Hdistinct.
  by rewrite (reduce_of_entries (JArr []) (JObj delta) _ eq_refl
                (reduce_entries_adopts delta [] Hdistinct
                   (fun k _ (H : In k (keys [])) => H))).
Qed.

Lemma chat_stream_content_step options index chunk fragment
    (message : Props) (text : string) output calls :
  carries_content index chunk fragment ->
  obj_get message "content" = JStr text ->
  exists output' calls',
    OpenAIChat.stream_chunks options [chunk]
      {| OpenAIChat.st_outputs := [(index, output)];
         OpenAIChat.st_messages := Some {[ index := JObj message ]};
         OpenAIChat.st_streamCalls := calls |} =
    Ret {| OpenAIChat.st_outputs := [(index, output')];
           OpenAIChat.st_messages :=
             Some {[ index :=
                       JObj (obj_set message "content"
                                     (JStr (text ++ fragment))) ]};
           OpenAIChat.st_streamCalls := calls' |} /\
    get output' "data" = JStr (text ++ fragment).
Proof.
  intros [reason Hchunk] Hcontent.
  cbn [OpenAIChat.stream_chunks OpenAIChat.st_messages
       OpenAIChat.st_outputs OpenAIChat.st_streamCalls
       multiChoiceMessageReducer].
  rewrite Hchunk, map_size_singleton. cbn [length Nat.eqb negb reduce_choices
    StreamReducer.index StreamReducer.delta].
  rewrite lookup_singleton_eq. cbn [coalesce nullish].
  rewrite (reduce_text (JObj message) "content" fragment);
    cbn [spread]; rewrite Hcontent; [|done].
  cbn [bind text_of]. rewrite insert_singleton_eq.
  cbn [OpenAIChat.stream_choices StreamReducer.index StreamReducer.delta].
  rewrite lookup_singleton_eq.
  assert (buildOutputData
            (JObj (obj_set message "content" (JStr (text ++ fragment))))
          = JStr (text ++ fragment)) as ->.
  { unfold buildOutputData. cbn [nullish negb get].
    by rewrite obj_get_set_eq. }
  cbn [nullish Map_set]. rewrite Z.eqb_refl.
  by eexists _, _.
Qed.

Lemma chat_stream_content_steps options index later fragments :
  Forall2 (carries_content index) later fragments ->
  forall (message : Props) (text : string) output calls,
    obj_get message "content" = JStr text ->
    get output "data" = JStr text ->
    exists output' calls',
      OpenAIChat.stream_chunks options later
        {| OpenAIChat.st_outputs := [(index, output)];
           OpenAIChat.st_messages := Some {[ index := JObj message ]};
           OpenAIChat.st_streamCalls := calls |} =
      Ret {| OpenAIChat.st_outputs := [(index, output')];
             OpenAIChat.st_messages :=
               Some {[ index :=
                         JObj (obj_set message "content"
                                       (JStr (appended text fragments))) ]};
             OpenAIChat.st_streamCalls := calls' |} /\
      get output' "data" = JStr (appended text fragments).
Proof.
  induction 1 as [|chunk fragment later fragments Hchunk _ IH];
    intros message text output calls Hcontent Hdata.
  - exists output, calls. cbn [OpenAIChat.stream_chunks appended fold_left].
    rewrite <- Hcontent, obj_set_same; [by rewrite Hcontent|].
    unfold obj_has. unfold obj_get in Hcontent.
    by destruct (obj_find message "content").
  - destruct (chat_stream_content_step options index chunk fragment message
                text output calls Hchunk Hcontent)
      as (output1 & calls1 & Hstep & Hdata1).
    cbn [OpenAIChat.stream_chunks] in Hstep |- *.
    destruct (multiChoiceMessageReducer _ chunk) as [messages|e]; [|done].
    cbn [bind] in Hstep |- *.
    destruct (OpenAIChat.stream_choices _ _ _ _ _) as [outputs1 calls1'].
    injection Hstep as -> -> ->.
    destruct (IH (obj_set message "content" (JStr (text ++ fragment)))
                 (text ++ fragment) output1 calls1
                 (obj_get_set_eq _ _ _) Hdata1)
      as (output' & calls' & Hrest & Hdata').
    exists output', calls'. rewrite Hrest, obj_set_twice. by split.
Qed.

(** X29.  The streamed chat run keeps, for a choice, the message that the
    first fragment opened, with the content of the later fragments
    appended to its content in arrival order; the output recorded for the
    choice holds that accumulated content. *)
Theorem chat_stream_accumulates_the_content (options : option InferenceOptions)
    (index : Z) (first : ChatCompletionChunk) (delta : Props) (text : string)
    (later : list ChatCompletionChunk) (fragments : list string) :
  distinct (keys delta) = true ->
  obj_get delta "content" = JStr text ->
  carries_delta index (JObj delta) first ->
  Forall2 (carries_content index) later fragments ->
  exists st output,
    OpenAIChat.stream_chunks options (first :: later) chat_stream_start
      = Ret st /\
    OpenAIChat.st_messages st =
      Some {[ index :=
                JObj (obj_set delta "content"
                              (JStr (appended text fragments))) ]} /\
    OpenAIChat.st_outputs st = [(index, output)] /\
    get output "data" = JStr (appended text fragments).
Proof.
  intros Hdistinct Hcontent [reason Hfirst] Hlater.
  cbn [OpenAIChat.stream_chunks chat_stream_start OpenAIChat.st_messages
       OpenAIChat.st_outputs OpenAIChat.st_streamCalls
       multiChoiceMessageReducer].
  rewrite Hfirst.
  cbn [reduce_choices StreamReducer.index StreamReducer.delta].
  rewrite lookup_empty. cbn [coalesce nullish].
  rewrite reduce_adopts_first_delta by done.
  cbn [bind]. rewrite insert_empty.
  cbn [OpenAIChat.stream_choices StreamReducer.index StreamReducer.delta].
  rewrite lookup_singleton_eq.
  assert (buildOutputData (JObj delta) = JStr text) as ->.
  { unfold buildOutputData. cbn [nullish negb get]. by rewrite Hcontent. }
  cbn [nullish Map_set].
  match goal with
  | |- context [OpenAIChat.stream_chunks _ _
                  {| OpenAIChat.st_outputs := [(index, ?output)];
                     OpenAIChat.st_messages := _;
                     OpenAIChat.st_streamCalls := ?calls |}] =>
      destruct (chat_stream_content_steps options index later fragments
                  Hlater delta text output calls Hcontent eq_refl)
        as (output' & calls' & -> & Hdata)
  end.
  by eexists _, output'.
Qed.

End ChatStreamProperties.

Lemma chat_stream_rejects_a_change_of_choices_witness :
  (exists completionParams,
     OpenAIChat.deserialize (runtime := Samples.sample_runtime)
       Samples.second_prompt attended_config JUndefined
     = Ret completionParams /\
     truthy (OpenAIChat.run_stream None completionParams) = true) /\
  NoDup (map index (choices empty_chunk)) /\
  Forall (fun choice => defined_everywhere (delta choice) = true)
         (choices empty_chunk) /\
  length (choices (SampleProviders.chat_chunk "Hello"))
  <> length (choices empty_chunk) /\
  OpenAIChat.run (runtime := Samples.sample_runtime) (openai := late_openai)
    Samples.second_prompt attended_config None JUndefined
  = Settled 9 (Rejected choice_count_error).
Proof.
  assert (NoDup (map index (choices empty_chunk))) as Hdistinct
    by constructor.
  assert (Forall (fun choice => defined_everywhere (delta choice) = true)
                 (choices empty_chunk)) as Hdefined by constructor.
  assert (length (choices (SampleProviders.chat_chunk "Hello"))
          <> length (choices empty_chunk)) as Hcount by discriminate.
  split; [eexists; split; reflexivity|].
  split; [exact Hdistinct|]. split; [exact Hdefined|].
  split; [exact Hcount|].
  exact (proj2 (chat_stream_rejects_a_change_of_choices
                  (runtime := Samples.sample_runtime) (openai := late_openai)
                  Samples.second_prompt attended_config None JUndefined _
                  empty_chunk (SampleProviders.chat_chunk "Hello") []
                  eq_refl eq_refl eq_refl Hdistinct Hdefined Hcount)
               9%nat _ eq_refl).
Defined.

Lemma chat_stream_accumulates_the_content_witness :
  distinct (keys opening_delta) = true /\
  obj_get opening_delta "content" = JStr "" /\
  carries_delta 0 (JObj opening_delta)
    {| choices := [{| index := 0; delta := JObj opening_delta;
                      finish_reason := JNull |}];
       chunk_rest := [] |} /\
  Forall2 (carries_content 0)
          [SampleProviders.chat_chunk "Hel"; SampleProviders.chat_chunk "lo"]
          ["Hel"; "lo"] /\
  exists st output,
    OpenAIChat.stream_chunks None
      ({| choices := [{| index := 0; delta := JObj opening_delta;
                         finish_reason := JNull |}];
          chunk_rest := [] |}
       :: [SampleProviders.chat_chunk "Hel"; SampleProviders.chat_chunk "lo"])
      chat_stream_start = Ret st /\
    OpenAIChat.st_messages st =
      Some {[ 0 := JObj [("role", JStr "assistant");
                         ("content", JStr "Hello")] ]} /\
    OpenAIChat.st_outputs st = [(0, output)] /\
    get output "data" = JStr "Hello".
Proof.
  assert (carries_delta 0 (JObj opening_delta)
            {| choices := [{| index := 0; delta := JObj opening_delta;
                              finish_reason := JNull |}];
               chunk_rest := [] |}) as Hfirst
    by (by exists JNull).
  assert (Forall2 (carries_content 0)
            [SampleProviders.chat_chunk "Hel"; SampleProviders.chat_chunk "lo"]
            ["Hel"; "lo"]) as Hlater
    by (repeat constructor; by exists JNull).
  split; [reflexivity|]. split; [reflexivity|].
  split; [exact Hfirst|]. split; [exact Hlater|].
  exact (chat_stream_accumulates_the_content None 0 _ opening_delta ""
           [SampleProviders.chat_chunk "Hel"; SampleProviders.chat_chunk "lo"]
           ["Hel"; "lo"] eq_refl eq_refl Hfirst Hlater).
Defined.

(** ** The run of the text-generation parser without options *)

Section GenerationRunProperties.
Context `{runtime : Runtime} `{hf : HfInference}.

(** X18.  Without options the text-generation parser does not stream:
    the output of the run is the one built from the complete response,
    whose data is the generated text.  When the [on_run_start] and the
    [on_run_end] notifications fulfil, the run fulfils, once both have,
    with this one output, which it records on the prompt, and it invokes no
    [streamCallback]. *)
Theorem generation_run_without_options (prompt : Prompt)
    (aiConfig : AIConfigRuntime) (params response : JSValue) :
  textGeneration (HuggingFace.deserialize prompt aiConfig params)
    = resolved response ->
  nullish response = false ->
  exists output,
    HuggingFace.constructOutput response = Ret output /\
    get output "data" = get response "generated_text" /\
    get (get output "metadata") "raw_response" = response /\
    match get response "generated_text" with
    | JStr text => HuggingFace.getOutputText aiConfig output None = JStr text
    | _ => True
    end /\
    forall started ended manager manager',
      runCallbacks (callbackManager aiConfig) Date_now
                   [("name", JStr "on_run_start")]
        = Settled started (Fulfilled manager) ->
      runCallbacks (callbackManager aiConfig) Date_now
                   [("name", JStr "on_run_end");
                    ("data", JObj [("result", JArr [output])])]
        = Settled ended (Fulfilled manager') ->
      HuggingFace.run prompt aiConfig None params =
      Settled (started + ended)
              (Fulfilled {| run_outputs := [output];
                            run_prompt := with_outputs prompt [output];
                            run_streamCalls := [] |}).
Proof.
  intros Hprovider Hresponse.
  unfold HuggingFace.constructOutput, get_strict. rewrite Hresponse.
  cbn [bind]. eexists. split; [reflexivity|]. split; [reflexivity|].
  split; [reflexivity|]. split.
  - by destruct (get response "generated_text") eqn:Htext.
  - intros started ended manager manager' Hstart Hend.
    unfold HuggingFace.run. rewrite Hstart.
    cbn [HuggingFace.run_stream truthy]. rewrite Hprovider.
    unfold resolved. cbn [await delay].
    unfold HuggingFace.constructOutput, get_strict. rewrite Hresponse.
    cbn [bind of_outcome]. unfold resolved. cbn [await delay].
    rewrite Hend. cbn [await delay]. f_equal. lia.
Qed.

End GenerationRunProperties.

Lemma generation_run_without_options_witness :
  textGeneration (HfInference := ready_hf)
    (HuggingFace.deserialize (runtime := Samples.sample_runtime)
       Samples.second_prompt attended_config JUndefined)
    = resolved (JObj [("generated_text", JStr "Hello")]) /\
  nullish (JObj [("generated_text", JStr "Hello")]) = false /\
  exists output,
    get output "data" = JStr "Hello" /\
    HuggingFace.getOutputText (runtime := Samples.sample_runtime)
      attended_config output None = JStr "Hello" /\
    HuggingFace.run (runtime := Samples.sample_runtime) (hf := ready_hf)
      Samples.second_prompt attended_config None JUndefined =
    Settled 18
            (Fulfilled {| run_outputs := [output];
                          run_prompt := with_outputs Samples.second_prompt
                                                     [output];
                          run_streamCalls := [] |}).
Proof.
  split; [reflexivity|]. split; [reflexivity|].
  destruct (generation_run_without_options (runtime := Samples.sample_runtime)
              (hf := ready_hf) Samples.second_prompt attended_config
              JUndefined (JObj [("generated_text", JStr "Hello")])
              eq_refl eq_refl)
    as (output & Hbuilt & Hdata & _ & Htext & Hrun).
  injection Hbuilt as <-.
  eexists. split; [exact Hdata|]. split; [exact Htext|].
  exact (Hrun 9%nat 9%nat _ _ eq_refl eq_refl).
Defined.

(** ** [serialize] and [deserialize] of the text-completion parser *)

Section TextSerializeProperties.
Context `{runtime : Runtime}.

(** X26.  [serialize] of the text-completion parser gives one prompt, of
    the requested name, from which [deserialize] gives back the prompt of
    the request: a text prompt comes back resolved as a template, any other
    prompt comes back as it is ([null] when there is none), whatever the
    document and the parameters. *)
Theorem text_serialize_then_deserialize (promptName : string) (data : Props)
    (aiConfig aiConfig' : AIConfigRuntime) (params params' : JSValue) :
  exists prompt,
    OpenAIText.serialize promptName data aiConfig params = [prompt] /\
    name prompt = promptName /\
    obj_get (OpenAIText.deserialize prompt aiConfig' params') "prompt" =
    match obj_get data "prompt" with
    | JStr text =>
        JStr (resolvePromptTemplate (JStr text) prompt aiConfig' params')
    | other => coalesce other JNull
    end.
Proof.
  eexists. split; [reflexivity|]. split; [reflexivity|].
  unfold OpenAIText.deserialize. rewrite obj_get_set_eq. cbn [input].
  by destruct (obj_get data "prompt").
Qed.

(** X30.  When the document holds global settings for the model of the
    request and the settings of the request are these settings, in
    whatever order, with no own property named [constructor] in any object
    of them, [serialize] of the text-completion parser records the bare
    name of the model, with no settings. *)
Theorem text_serialize_records_the_bare_model_name (promptName : string)
    (data : Props) (aiConfig : AIConfigRuntime) (params : JSValue)
    (G : Props) :
  let modelName := coalesce (obj_get data "model") (JStr id) in
  get (models aiConfig) (property_key modelName) = JObj G ->
  wf_value (JObj G) = true ->
  no_own_constructor (JObj G) = true ->
  G ≡ₚ obj_delete data "prompt" ->
  map (fun prompt => get (metadata prompt) "model")
      (OpenAIText.serialize promptName data aiConfig params) = [modelName].
Proof.
  intros modelName Hglobal Hwf _ Hsame.
  unfold OpenAIText.serialize, OpenAIChat.serializeModelMetadata.
  fold modelName. rewrite Hglobal. cbn [nullish negb spread map].
  rewrite overrides_nothing_to_override; [done|].
  intros k. apply wf_value_obj in Hwf as [Hd Hall].
  unfold obj_get at 2. rewrite (obj_find_Permutation G _ k) by done.
  fold (obj_get G k). apply isEqual_refl. by apply wf_obj_get.
Qed.

End TextSerializeProperties.

Lemma text_serialize_records_the_bare_model_name_witness :
  get (models Samples.sample_config)
      (property_key (coalesce (obj_get plain_request "model")
                              (JStr (id (Runtime := Samples.sample_runtime)))))
    = JObj [("model", JStr "gpt-4")] /\
  wf_value (JObj [("model", JStr "gpt-4")]) = true /\
  no_own_constructor (JObj [("model", JStr "gpt-4")]) = true /\
  [("model", JStr "gpt-4")] ≡ₚ obj_delete plain_request "prompt" /\
  map (fun prompt => get (metadata prompt) "model")
      (OpenAIText.serialize (runtime := Samples.sample_runtime) "hello"
         plain_request Samples.sample_config JUndefined) = [JStr "gpt-4"].
Proof.
  assert ([("model", JStr "gpt-4")] ≡ₚ obj_delete plain_request "prompt")
    as Hsame by reflexivity.
  split; [reflexivity|]. split; [reflexivity|]. split; [reflexivity|].
  split; [exact Hsame|].
  exact (text_serialize_records_the_bare_model_name
           (runtime := Samples.sample_runtime) "hello" plain_request
           Samples.sample_config JUndefined [("model", JStr "gpt-4")]
           eq_refl eq_refl eq_refl Hsame).
Defined.
